(** * Semantic query matcher of the campus-navigation backend

    Shallow embedding of [backend/chatbot/semantic_model.py]: the lazily
    initialised module globals, the embedding provider [get_embedding] and
    the question matcher [find_best_match], together with the properties
    the design document states about them.

    Modelling conventions.
    - The module globals [_tokenizer], [_model] and [_QUESTIONS] are the
      fields of the record [globals]; every function threads them.
    - Everything the module obtains from outside (the questions file, the
      pretrained tokenizer and model, the tokenizer and model calls,
      [torch.nn.functional.cosine_similarity]) is a field of the record
      [world].  A call into the outside either raises ([inl e]) or returns
      ([inr v]); the exception type [exn] is left abstract.
    - Each run records the outside calls it makes, in order, in a trace of
      [event]s, so that "how often" and "in which order" can be stated.
    - Python floats are modelled by rationals: the score returned by
      [.item()] is a finite float, finite floats are rationals and Python
      compares them exactly.  The scores are single-precision values,
      since the tensors are; where that matters it is the hypothesis
      [is_float32].  The literal [0.7] denotes
      the double [float_0_7], which lies a little below 7/10; no
      single-precision value lies between the two, so that comparing a
      score with either is the same, and the comparison is written with
      [7 # 10].  The literal [-1] is [-1].
    - Tensor entries are finite floats, as rationals.  The arithmetic on
      tensors is torch's and belongs to the outside: [mean_dim1] and
      [cosine_similarity] are fields of [world], and nothing is assumed
      about how they round.
    - The questions file is taken to be well typed, that is, of the form
      [{"questions": [string, ...]}]. *)

From Stdlib Require Import List String Ascii QArith ZArith Lia Lqa Bool Arith.
From Stdlib Require Import Sorted Permutation Qabs Qround.
Import ListNotations.
Open Scope string_scope.
Open Scope list_scope.
Open Scope Q_scope.

Set Implicit Arguments.

(** ** Tensors *)

(** The model output [last_hidden_state], of shape
    [batch x sequence x hidden]. *)
Record tensor3 := {
  dim0 : nat;
  dim1 : nat;
  dim2 : nat;
  at3 : nat -> nat -> nat -> Q
}.

(** A pooled embedding, of shape [batch x hidden]. *)
Record tensor2 := {
  rows : nat;
  cols : nat;
  at2 : nat -> nat -> Q
}.

Definition Qsum (l : list Q) : Q := fold_right Qplus 0 l.

(** The exact average of the entries over the sequence dimension, which
    a mean over that dimension approximates. *)
Definition average (x : tensor3) (b h : nat) : Q :=
  Qsum (map (fun t => at3 x b t h) (seq 0 (dim1 x)))
  / inject_Z (Z.of_nat (dim1 x)).


(** ** Floats *)

Definition pow2 (e : Z) : Q :=
  if (0 <=? e)%Z then inject_Z (2 ^ e) else 1 # Z.to_pos (2 ^ (- e)).

(** The value of a float with integral significand [m] and exponent
    [e]. *)
Definition float_value (m e : Z) : Q := inject_Z m * pow2 e.

(** The single-precision values: 24 bits of significand, subnormals
    included. *)
Definition is_float32 (s : Q) : Prop :=
  exists m e,
    (Z.abs m < 2 ^ 24)%Z /\ (-149 <= e <= 104)%Z /\ s == float_value m e.

(** The double that the literal [0.7] denotes. *)
Definition float_0_7 : Q := 3152519739159347 # 4503599627370496.

(** The nearest integer, the even one of two. *)
Definition nearest_even (q : Q) : Z :=
  let f := Qfloor q in
  match Qcompare (q - inject_Z f) (1 # 2) with
  | Lt => f
  | Gt => (f + 1)%Z
  | Eq => if Z.even f then f else (f + 1)%Z
  end.

(** The single-precision value nearest to [q], for [q] in the normal
    range. *)
Definition float32_round (q : Q) : Q :=
  if Qeq_bool q 0 then 0
  else
    let a := Qabs q in
    let e0 := (Z.log2 (Qnum a) - Z.log2 (Zpos (Qden a)))%Z in
    let e := if Qle_bool (pow2 e0) a then e0 else (e0 - 1)%Z in
    inject_Z (nearest_even (q / pow2 (e - 23))) * pow2 (e - 23).

(** Python's [a > b] on finite floats. *)
Definition Qgtb (a b : Q) : bool :=
  match a ?= b with
  | Gt => true
  | _ => false
  end.

(** ** Events, globals and runs *)

(** What a run does that can be observed from outside, plus one marker:
    [EvGetEmbedding text] records that [get_embedding] was entered with
    [text].  An outside call is recorded when it is made, whether it then
    returns or raises. *)
Inductive event :=
| EvPrint (msg : string)                      (* print(msg) *)
| EvOpenQuestions                             (* open + json.load *)
| EvTokenizerFromPretrained (name : string)   (* AutoTokenizer.from_pretrained *)
| EvModelFromPretrained (name : string)       (* AutoModel.from_pretrained *)
| EvGetEmbedding (text : string)              (* entry of get_embedding *)
| EvTokenize (text : string)                  (* tokenizer(text, ...) *)
| EvNoGradEnter                               (* torch.no_grad().__enter__ *)
| EvForward                                   (* the model call *)
| EvNoGradExit                                (* torch.no_grad().__exit__ *)
| EvCosineSimilarity.                         (* cosine_similarity(...).item() *)

Definition is_open_questions (e : event) : bool :=
  match e with EvOpenQuestions => true | _ => false end.

Definition is_tokenizer_load (e : event) : bool :=
  match e with EvTokenizerFromPretrained _ => true | _ => false end.

Definition is_model_load (e : event) : bool :=
  match e with EvModelFromPretrained _ => true | _ => false end.

Definition is_cosine (e : event) : bool :=
  match e with EvCosineSimilarity => true | _ => false end.

(** The events a call produces each time it runs, as opposed to the
    events of the lazy initialisation. *)
Definition per_call (e : event) : bool :=
  match e with
  | EvGetEmbedding _ | EvTokenize _ | EvNoGradEnter | EvForward
  | EvNoGradExit | EvCosineSimilarity => true
  | _ => false
  end.

Definition count (p : event -> bool) (tr : list event) : nat :=
  List.length (filter p tr).

(** The arguments of the [get_embedding] invocations of a trace, in
    order. *)
Fixpoint embedding_calls (tr : list event) : list string :=
  match tr with
  | [] => []
  | EvGetEmbedding text :: tr' => text :: embedding_calls tr'
  | _ :: tr' => embedding_calls tr'
  end.

Definition MODEL_NAME : string := "sentence-transformers/all-MiniLM-L6-v2".

Section Model.

Variables exn Tok Mdl Enc : Type.

(** The module-level variables. *)
Record globals := {
  _tokenizer : option Tok;
  _model : option Mdl;
  _QUESTIONS : option (list string)
}.

(** State of a freshly imported module. *)
Definition fresh : globals :=
  {| _tokenizer := None; _model := None; _QUESTIONS := None |}.

(** The outside of the module. *)
Record world := {
  (** [open(questions_path)] followed by [json.load(f)["questions"]] *)
  read_questions : exn + list string;
  (** [AutoTokenizer.from_pretrained] *)
  tokenizer_from_pretrained : string -> exn + Tok;
  (** [AutoModel.from_pretrained] *)
  model_from_pretrained : string -> exn + Mdl;
  (** [tokenizer(text, return_tensors="pt", padding=True, truncation=True)] *)
  tokenizer_call : Tok -> string -> exn + Enc;
  (** the model applied to the tokens, then [.last_hidden_state] *)
  model_call : Mdl -> Enc -> exn + tensor3;
  (** [x.mean(dim=1)] *)
  mean_dim1 : tensor3 -> tensor2;
  (** [torch.nn.functional.cosine_similarity(a, b).item()] *)
  cosine_similarity : tensor2 -> tensor2 -> Q
}.

(** What a run leaves behind. *)
Record run (A : Type) := {
  outcome : exn + A;
  final : globals;
  trace : list event
}.

Definition M (A : Type) : Type := globals -> run A.

Definition ret {A} (a : A) : M A :=
  fun g => {| outcome := inr a; final := g; trace := [] |}.

Definition bind {A B} (c : M A) (k : A -> M B) : M B :=
  fun g =>
    let r := c g in
    match outcome r with
    | inl e => {| outcome := inl e; final := final r; trace := trace r |}
    | inr a =>
        let r' := k a (final r) in
        {| outcome := outcome r'; final := final r';
           trace := trace r ++ trace r' |}
    end.

Definition emit (e : event) : M unit :=
  fun g => {| outcome := inr tt; final := g; trace := [e] |}.

(** A call into the outside: recorded, then it raises or returns. *)
Definition outside {A} (e : event) (r : exn + A) : M A :=
  fun g => {| outcome := r; final := g; trace := [e] |}.

Definition get : M globals :=
  fun g => {| outcome := inr g; final := g; trace := [] |}.

Definition put (g' : globals) : M unit :=
  fun _ => {| outcome := inr tt; final := g'; trace := [] |}.

(** [with torch.no_grad(): body]: the context is left on both exits. *)
Definition with_no_grad {A} (body : M A) : M A :=
  fun g =>
    let r := body g in
    {| outcome := outcome r; final := final r;
       trace := EvNoGradEnter :: trace r ++ [EvNoGradExit] |}.

Notation "x <- c ;; k" := (bind c (fun x => k))
  (at level 61, c at next level, right associativity).
Notation "c ;;; k" := (bind c (fun _ => k))
  (at level 61, right associativity).

Variable w : world.

(** The body of the [if] runs unless both handles are set; the function
    returns the two globals, which are then both set. *)
Definition _load_model : M (Tok * Mdl) :=
  g <- get ;;
  match _tokenizer g, _model g with
  | Some tokenizer, Some model => ret (tokenizer, model)
  | _, _ =>
      emit (EvPrint "Loading semantic model...") ;;;
      tokenizer <- outside (EvTokenizerFromPretrained MODEL_NAME)
                     (tokenizer_from_pretrained w MODEL_NAME) ;;
      put {| _tokenizer := Some tokenizer; _model := _model g;
             _QUESTIONS := _QUESTIONS g |} ;;;
      model <- outside (EvModelFromPretrained MODEL_NAME)
                 (model_from_pretrained w MODEL_NAME) ;;
      put {| _tokenizer := Some tokenizer; _model := Some model;
             _QUESTIONS := _QUESTIONS g |} ;;;
      emit (EvPrint "Semantic model loaded successfully") ;;;
      ret (tokenizer, model)
  end.

Definition _load_questions : M (list string) :=
  g <- get ;;
  match _QUESTIONS g with
  | Some QUESTIONS => ret QUESTIONS
  | None =>
      QUESTIONS <- outside EvOpenQuestions (read_questions w) ;;
      put {| _tokenizer := _tokenizer g; _model := _model g;
             _QUESTIONS := Some QUESTIONS |} ;;;
      ret QUESTIONS
  end.

Definition get_embedding (text : string) : M tensor2 :=
  emit (EvGetEmbedding text) ;;;
  tm <- _load_model ;;
  tokens <- outside (EvTokenize text) (tokenizer_call w (fst tm) text) ;;
  output <- with_no_grad (outside EvForward (model_call w (snd tm) tokens)) ;;
  ret (mean_dim1 w output).

(** The [for question in QUESTIONS] loop, with the two loop variables. *)
Fixpoint for_question_in (user_embedding : tensor2) (QUESTIONS : list string)
    (best_match : option string) (highest_similarity : Q)
    : M (option string * Q) :=
  match QUESTIONS with
  | [] => ret (best_match, highest_similarity)
  | question :: rest =>
      question_embedding <- get_embedding question ;;
      similarity <- outside EvCosineSimilarity
                      (inr (cosine_similarity w user_embedding
                              question_embedding)) ;;
      if Qgtb similarity highest_similarity
      then for_question_in user_embedding rest (Some question) similarity
      else for_question_in user_embedding rest best_match highest_similarity
  end.

Definition find_best_match (user_query : string) : M (option string) :=
  QUESTIONS <- _load_questions ;;
  user_embedding <- get_embedding user_query ;;
  bh <- for_question_in user_embedding QUESTIONS None (-1) ;;
  ret (if Qgtb (snd bh) (7 # 10) then fst bh else None).

End Model.

Arguments fresh {Tok Mdl}.
Arguments ret {exn Tok Mdl A} a g.

(** ** Pure views of the code, used to state its properties *)

Section Views.

Context {exn Tok Mdl Enc : Type}.
Variable w : world exn Tok Mdl Enc.

(** What [get_embedding text] returns once the handles are [tokenizer]
    and [model]: the lines of its body after [_load_model()]. *)
Definition embedding_value (tokenizer : Tok) (model : Mdl) (text : string)
    : exn + tensor2 :=
  match tokenizer_call w tokenizer text with
  | inl e => inl e
  | inr tokens =>
      match model_call w model tokens with
      | inl e => inl e
      | inr output => inr (mean_dim1 w output)
      end
  end.

(** The events of [get_embedding] after the model is loaded. *)
Definition encode_trace (tokenizer : Tok) (text : string) : list event :=
  EvTokenize text ::
  match tokenizer_call w tokenizer text with
  | inl _ => []
  | inr _ => [EvNoGradEnter; EvForward; EvNoGradExit]
  end.

(** Both handles are in place. *)
Definition loaded (tokenizer : Tok) (model : Mdl) (g : globals Tok Mdl)
    : Prop :=
  _tokenizer g = Some tokenizer /\ _model g = Some model.

(** The loop of [find_best_match] over scores that are already known. *)
Fixpoint scan_scores (score : string -> Q) (QUESTIONS : list string)
    (best_match : option string) (highest_similarity : Q)
    : option string * Q :=
  match QUESTIONS with
  | [] => (best_match, highest_similarity)
  | question :: rest =>
      if Qgtb (score question) highest_similarity
      then scan_scores score rest (Some question) (score question)
      else scan_scores score rest best_match highest_similarity
  end.

(** The score of reference question [x] against the query, when [E]
    gives the embeddings of the texts. *)
Definition similarity (E : string -> tensor2) (user_query x : string) : Q :=
  cosine_similarity w (E user_query) (E x).

(** The ways a call [find_best_match user_query] started in [g] meets a
    failure [e] of the outside: while reading the questions, while
    loading the tokenizer or the model, while embedding the query, or
    while embedding a reference question after all the earlier ones
    were embedded. *)
Inductive meets_failure (user_query : string) (g : globals Tok Mdl)
    (e : exn) : Prop :=
| failure_questions :
    outcome (_load_questions w g) = inl e ->
    meets_failure user_query g e
| failure_model QUESTIONS :
    outcome (_load_questions w g) = inr QUESTIONS ->
    outcome (_load_model w g) = inl e ->
    meets_failure user_query g e
| failure_query QUESTIONS tokenizer model :
    outcome (_load_questions w g) = inr QUESTIONS ->
    outcome (_load_model w g) = inr (tokenizer, model) ->
    embedding_value tokenizer model user_query = inl e ->
    meets_failure user_query g e
| failure_reference before question after tokenizer model :
    outcome (_load_questions w g) = inr (before ++ question :: after) ->
    outcome (_load_model w g) = inr (tokenizer, model) ->
    (exists v, embedding_value tokenizer model user_query = inr v) ->
    (forall x, In x before ->
       exists v, embedding_value tokenizer model x = inr v) ->
    embedding_value tokenizer model question = inl e ->
    meets_failure user_query g e.

(** A process serving the queries one after the other, as the chat
    endpoint does: each call starts in the globals the previous one
    left, and an exception ends the call but not the process. *)
Fixpoint serve (queries : list string) (g : globals Tok Mdl)
    : list event * globals Tok Mdl :=
  match queries with
  | [] => ([], g)
  | user_query :: later =>
      let r := find_best_match w user_query g in
      let rest := serve later (final r) in
      (trace r ++ fst rest, snd rest)
  end.

(** The handles held in [g], if any, are the ones the outside hands
    out. *)
Definition consistent (g : globals Tok Mdl) : Prop :=
  (forall tokenizer, _tokenizer g = Some tokenizer ->
     tokenizer_from_pretrained w MODEL_NAME = inr tokenizer)
  /\ (forall model, _model g = Some model ->
        model_from_pretrained w MODEL_NAME = inr model).


(** The globals a process can be in: fresh, or left by a call. *)
Inductive reachable : globals Tok Mdl -> Prop :=
| reach_fresh : reachable fresh
| reach_embedding g text :
    reachable g -> reachable (final (get_embedding w text g))
| reach_match g user_query :
    reachable g -> reachable (final (find_best_match w user_query g)).

End Views.

(** ** Concrete worlds *)

(** A small world: tokens are character codes between the two marker
    tokens 101 and 102, the hidden state has one feature per token (its
    code), the mean is the exact average rounded to single precision, and
    the similarity of two embeddings is a function of their pooled
    features.  [file] is the content of the questions file,
    [hub] tells whether the pretrained artefacts can be fetched, and
    [unreadable] says which texts the tokenizer rejects. *)
Definition codes (text : string) : list nat :=
  101%nat :: map nat_of_ascii (list_ascii_of_string text) ++ [102%nat].

Definition hidden_of (tokens : list nat) : tensor3 :=
  {| dim0 := 1; dim1 := List.length tokens; dim2 := 1;
     at3 := fun _ t _ => inject_Z (Z.of_nat (nth t tokens 0%nat)) |}.

Definition rounded_mean (x : tensor3) : tensor2 :=
  {| rows := dim0 x;
     cols := dim2 x;
     at2 := fun b h => float32_round (average x b h) |}.

Definition small_world (file : string + list string) (hub : bool)
    (unreadable : string -> bool) (similarity : Q -> Q -> Q)
    : world string unit unit (list nat) :=
  {| read_questions := file;
     tokenizer_from_pretrained := fun _ =>
       if hub then inr tt else inl "OSError: tokenizer";
     model_from_pretrained := fun _ =>
       if hub then inr tt else inl "OSError: model";
     tokenizer_call := fun _ text =>
       if unreadable text then inl "EncodingError" else inr (codes text);
     model_call := fun _ tokens => inr (hidden_of tokens);
     mean_dim1 := rounded_mean;
     cosine_similarity := fun a b => similarity (at2 a 0 0) (at2 b 0 0) |}.

(** The embedding of a text in a small world. *)
Definition small_embedding (text : string) : tensor2 :=
  rounded_mean (hidden_of (codes text)).

(** Similarity 1 between equal pooled features and 1/2 otherwise. *)
Definition same_or_half (x y : Q) : Q :=
  if Qeq_bool x y then 1 else 1 # 2.

Definition campus_questions : list string :=
  ["WHERE IS THE LIBRARY"; "WHAT TIME IS THE CAFETERIA OPEN"].

Definition campus_world : world string unit unit (list nat) :=
  small_world (inr campus_questions) true (fun _ => false) same_or_half.

(** The smallest single-precision value above the double [0.7]. *)
Definition float32_above_0_7 : Q := float_value 11744052 (-24).

(** Similarity 1 between equal pooled features and just above the
    threshold otherwise. *)
Definition same_or_just_above (x y : Q) : Q :=
  if Qeq_bool x y then 1 else float32_above_0_7.

Definition near_world : world string unit unit (list nat) :=
  small_world (inr ["WHERE IS THE LIBRARY"]) true (fun _ => false)
    same_or_just_above.

(** The questions file lists one question, the empty string. *)
Definition blank_world : world string unit unit (list nat) :=
  small_world (inr [""]) true (fun _ => false) same_or_half.

(** The questions file lists no question. *)
Definition empty_world : world string unit unit (list nat) :=
  small_world (inr []) true (fun _ => false) same_or_half.

(** Two reference questions with the same pooled feature, hence the
    same score against every query, followed by a third one. *)
Definition tie_world : world string unit unit (list nat) :=
  small_world (inr ["AB"; "BA"; "C"]) true (fun _ => false) same_or_half.

(** The questions file is missing. *)
Definition no_file_world : world string unit unit (list nat) :=
  small_world (inl "FileNotFoundError") true (fun _ => false) same_or_half.

(** ** Further views of the matcher *)

Definition is_forward (e : event) : bool :=
  match e with EvForward => true | _ => false end.

(** The question list held in [g], if any, is the one the file gives. *)
Definition questions_consistent {exn Tok Mdl Enc : Type}
    (w : world exn Tok Mdl Enc) (g : globals Tok Mdl) : Prop :=
  forall QUESTIONS,
    _QUESTIONS g = Some QUESTIONS -> read_questions w = inr QUESTIONS.

(** The tokenizer can be fetched, the model cannot. *)
Definition no_model_world : world string unit unit (list nat) :=
  {| read_questions := inr campus_questions;
     tokenizer_from_pretrained := fun _ => inr tt;
     model_from_pretrained := fun _ => inl "OSError: model";
     tokenizer_call := fun _ text => inr (codes text);
     model_call := fun _ tokens => inr (hidden_of tokens);
     mean_dim1 := rounded_mean;
     cosine_similarity := fun a b =>
       same_or_half (at2 a 0 0) (at2 b 0 0) |}.

(** * The web application, [backend/main.py]

    Conventions.
    - A value parsed from JSON is a [json]; Python's [None] is [JNull].
      A dict is the list of its items in insertion order.  A float is
      given by its exact value; the literals [NaN] and [Infinity] are
      left out.
    - The methods of Python's [str] that the code calls are the fields
      of a [text_ops]; they are not defined here.
    - A handler returns the pair Flask receives: the JSON body and the
      status code.  An exception inside a handler's [try] is [None] in
      the model, since every handler catches [Exception] and answers
      with a fixed body.  Console and log output is not modelled. *)

#[warnings="-register-all"]
Inductive json :=
| JNull
| JBool (b : bool)
| JInt (z : Z)
| JFloat (q : Q)
| JStr (s : string)
| JList (items : list json)
| JObj (fields : list (string * json)).

(** [upper], [lower] and [strip] are the methods of that name and
    [chars s] lists the characters of [s], as iterating [s] does. *)
Record text_ops := {
  upper : string -> string;
  lower : string -> string;
  strip : string -> string;
  chars : string -> list string
}.

(** Python's truth value of a parsed value: [bool(v)]. *)
Definition truthy (v : json) : bool :=
  match v with
  | JNull => false
  | JBool b => b
  | JInt z => negb (z =? 0)%Z
  | JFloat q => negb (Qeq_bool q 0)
  | JStr s => negb (s =? "")%string
  | JList items => match items with [] => false | _ => true end
  | JObj fields => match fields with [] => false | _ => true end
  end.

(** The value stored under key [k], if any. *)
Fixpoint assoc (k : string) (fields : list (string * json)) : option json :=
  match fields with
  | [] => None
  | (k', v) :: rest => if (k' =? k)%string then Some v else assoc k rest
  end.

(** [v.get(k, default)]; only a dict has the method. *)
Definition dict_get (v : json) (k : string) (default : json) : option json :=
  match v with
  | JObj fields =>
      Some (match assoc k fields with Some x => x | None => default end)
  | _ => None
  end.

Section Chat.

Variables exn Tok Mdl Enc Bot : Type.
Variable w : world exn Tok Mdl Enc.
Variable ops : text_ops.

(** [chatbot.get_response] of the AIML engine, which keeps a session. *)
Variable get_response : Bot -> string -> (exn + string) * Bot.

(** What a request to [/chat] leaves behind: the reply, the globals of
    the matcher, the chatbot, the outside calls of the matcher, and the
    texts the chatbot was asked. *)
Record chat_run := {
  reply : json * nat;
  chat_globals : globals Tok Mdl;
  chat_bot : Bot;
  matcher_trace : list event;
  asked : list string
}.

Definition chat_error : json * nat :=
  (JObj [("response", JStr "Sorry, I encountered an error!")], 500%nat).

(** [request_json] is what [request.json] evaluates to: it raises for a
    body that is not JSON. *)
Definition chat (request_json : exn + json) (g : globals Tok Mdl)
    (bot : Bot) : chat_run :=
  match request_json with
  | inr (JObj fields) =>
      let message :=
        match assoc "message" fields with Some v => v | None => JNull end in
      if negb (truthy message) then
        {| reply := (JObj [("response", JStr "Please provide a message.")],
                     400%nat);
           chat_globals := g; chat_bot := bot;
           matcher_trace := []; asked := [] |}
      else
        match message with
        | JStr text =>
            let r := find_best_match w (upper ops text) g in
            match outcome r with
            | inr best_match =>
                let question :=
                  match best_match with
                  | Some q => if (q =? "")%string then upper ops text else q
                  | None => upper ops text
                  end in
                let answer := get_response bot question in
                {| reply :=
                     match fst answer with
                     | inr response =>
                         (JObj [("response", JStr response)], 200%nat)
                     | inl _ => chat_error
                     end;
                   chat_globals := final r; chat_bot := snd answer;
                   matcher_trace := trace r; asked := [question] |}
            | inl _ =>
                {| reply := chat_error; chat_globals := final r;
                   chat_bot := bot; matcher_trace := trace r; asked := [] |}
            end
        | _ =>
            {| reply := chat_error; chat_globals := g; chat_bot := bot;
               matcher_trace := []; asked := [] |}
        end
  | _ =>
      {| reply := chat_error; chat_globals := g; chat_bot := bot;
         matcher_trace := []; asked := [] |}
  end.

End Chat.

(** Character-wise versions of the [str] methods, for plain ASCII
    texts. *)
Definition upper_ascii (c : ascii) : ascii :=
  let n := nat_of_ascii c in
  if ((97 <=? n) && (n <=? 122))%nat then ascii_of_nat (n - 32) else c.

Definition lower_ascii (c : ascii) : ascii :=
  let n := nat_of_ascii c in
  if ((65 <=? n) && (n <=? 90))%nat then ascii_of_nat (n + 32) else c.

Fixpoint map_string (f : ascii -> ascii) (s : string) : string :=
  match s with
  | EmptyString => EmptyString
  | String c rest => String (f c) (map_string f rest)
  end.

Definition is_space (c : ascii) : bool :=
  let n := nat_of_ascii c in ((n =? 32) || ((9 <=? n) && (n <=? 13)))%nat.

Fixpoint lstrip (s : string) : string :=
  match s with
  | String c rest => if is_space c then lstrip rest else s
  | EmptyString => EmptyString
  end.

Fixpoint rstrip (s : string) : string :=
  match s with
  | EmptyString => EmptyString
  | String c rest =>
      match rstrip rest with
      | EmptyString => if is_space c then EmptyString else String c EmptyString
      | rest' => String c rest'
      end
  end.

Definition ascii_ops : text_ops :=
  {| upper := map_string upper_ascii;
     lower := map_string lower_ascii;
     strip := fun s => rstrip (lstrip s);
     chars := fun s =>
       map (fun c => String c EmptyString) (list_ascii_of_string s) |}.

(** A chatbot that echoes the question and counts its questions, and one
    that always fails. *)
Definition echo_bot (n : nat) (text : string) : (string + string) * nat :=
  (inr ("You asked: " ++ text)%string, S n).

Definition broken_bot (n : nat) (text : string) : (string + string) * nat :=
  (inl "KernelError", n).

(** ** Python operations on parsed values *)

(** The number a value stands for in arithmetic and comparisons: [bool]
    is a subclass of [int]. *)
Definition as_number (v : json) : option Q :=
  match v with
  | JBool b => Some (if b then 1 else 0)
  | JInt z => Some (inject_Z z)
  | JFloat q => Some q
  | _ => None
  end.

(** Python's [a == b] on parsed values: numbers by value, strings and
    lists by content, dicts by items whatever their order. *)
Fixpoint py_eq (a b : json) {struct a} : bool :=
  match a, b with
  | JNull, JNull => true
  | JStr s, JStr t => (s =? t)%string
  | JList xs, JList ys =>
      (fix all2 (xs ys : list json) {struct xs} : bool :=
         match xs, ys with
         | [], [] => true
         | x :: xs', y :: ys' => py_eq x y && all2 xs' ys'
         | _, _ => false
         end) xs ys
  | JObj f1, JObj f2 =>
      (List.length f1 =? List.length f2)%nat
      && (fix each (f : list (string * json)) : bool :=
            match f with
            | [] => true
            | (k, v) :: rest =>
                match assoc k f2 with
                | Some v' => py_eq v v'
                | None => false
                end && each rest
            end) f1
  | _, _ =>
      match as_number a, as_number b with
      | Some x, Some y => Qeq_bool x y
      | _, _ => false
      end
  end.

(** The dict without its ["_id"] item; only a dict has [items]. *)
Definition without_id (v : json) : option json :=
  match v with
  | JObj fields =>
      Some (JObj (filter (fun kv => negb (fst kv =? "_id")%string) fields))
  | _ => None
  end.

(** [d[k] = v]: an existing key keeps its place. *)
Fixpoint set_field (k : string) (v : json) (fields : list (string * json))
    : list (string * json) :=
  match fields with
  | [] => [(k, v)]
  | (k', v') :: rest =>
      if (k' =? k)%string then (k, v) :: rest
      else (k', v') :: set_field k v rest
  end.

Section Store.

Variable ops : text_ops.

(** The items a [for] loop over [v] visits; numbers, booleans and [None]
    cannot be iterated. *)
Definition py_iter (v : json) : option (list json) :=
  match v with
  | JList items => Some items
  | JObj fields => Some (map (fun kv => JStr (fst kv)) fields)
  | JStr s => Some (map JStr (chars ops s))
  | _ => None
  end.

(** The items a loop over [v[:n]] visits; a dict cannot be sliced. *)
Definition py_prefix (v : json) (n : nat) : option (list json) :=
  match v with
  | JList items => Some (firstn n items)
  | JStr s => Some (map JStr (firstn n (chars ops s)))
  | _ => None
  end.

(** [k in v]. *)
Definition py_contains (v : json) (k : string) : option bool :=
  match v with
  | JObj fields =>
      Some (match assoc k fields with Some _ => true | None => false end)
  | JList items => Some (existsb (fun x => py_eq x (JStr k)) items)
  | JStr s => Some (match index 0 k s with Some _ => true | None => false end)
  | _ => None
  end.

(** [c + 1]; [float_succ] is the addition of 1 on floats. *)
Variable float_succ : Q -> Q.

Definition py_add1 (c : json) : option json :=
  match c with
  | JInt z => Some (JInt (z + 1))
  | JBool b => Some (JInt (if b then 2 else 1))
  | JFloat q => Some (JFloat (float_succ q))
  | _ => None
  end.

(** *** [JsonDB] *)

Definition LOCATIONS_FILE : string := "campus_navigator.locations.json".

Definition RECENT_SEARCHES_FILE : string :=
  "campus_navigator.recent_searches.json".

(** A path of the disk: no file, a file that cannot be opened or parsed,
    or a file holding a JSON value. *)
Inductive file :=
| NoFile
| BadFile
| JsonFile (content : json).

Definition disk : Type := string -> file.

Definition read_json (d : disk) (file_path : string) : json :=
  match d file_path with
  | JsonFile content => content
  | NoFile | BadFile => JList []
  end.

(** What an attempt to write does: it succeeds, it fails before the file
    is opened for writing, or it fails after the file was truncated. *)
Inductive write_outcome :=
| Written
| Refused
| Torn.

Definition store (d : disk) (file_path : string) (f : file) : disk :=
  fun p => if (p =? file_path)%string then f else d p.

Variable attempt : string -> write_outcome.

Definition write_json (d : disk) (file_path : string) (data : json)
    : bool * disk :=
  match attempt file_path with
  | Written => (true, store d file_path (JsonFile data))
  | Refused => (false, d)
  | Torn => (false, store d file_path BadFile)
  end.

(** *** [GET /api/search] *)

(** The list comprehension of [search_locations]. *)
Fixpoint matching_locations (query : string) (locations : list json)
    : option (list json) :=
  match locations with
  | [] => Some []
  | loc :: rest =>
      match dict_get loc "name" (JStr "") with
      | Some (JStr name) =>
          if prefix (lower ops query) (lower ops name) then
            match without_id loc, matching_locations query rest with
            | Some cleaned, Some others => Some (cleaned :: others)
            | _, _ => None
            end
          else matching_locations query rest
      | _ => None
      end
  end.

Definition search_error : json * nat :=
  (JObj [("error", JStr "An error occurred while searching")], 500%nat).

(** [q] is the query parameter of that name, if given. *)
Definition search_locations (d : disk) (q : option string) : json * nat :=
  let query := strip ops (match q with Some s => s | None => "" end) in
  if (query =? "")%string then (JList [], 200%nat)
  else
    match py_iter (read_json d LOCATIONS_FILE) with
    | Some locations =>
        match matching_locations query locations with
        | Some filtered_locations =>
            (JList (firstn 10 filtered_locations), 200%nat)
        | None => search_error
        end
    | None => search_error
    end.

(** *** [GET /api/locations] and [GET /api/locations/<location_name>] *)

(** [[{k: v for k, v in loc.items() if k != '_id'} for loc in locs]] *)
Fixpoint clean_all (locs : list json) : option (list json) :=
  match locs with
  | [] => Some []
  | loc :: rest =>
      match without_id loc, clean_all rest with
      | Some cleaned, Some others => Some (cleaned :: others)
      | _, _ => None
      end
  end.


(** [next((loc for loc in locs if loc.get('name') == name), None)]: the
    generator stops at the first location it yields. *)
Fixpoint first_named (name : json) (locs : list json)
    : option (option json) :=
  match locs with
  | [] => Some None
  | loc :: rest =>
      match dict_get loc "name" JNull with
      | Some n => if py_eq n name then Some (Some loc) else first_named name rest
      | None => None
      end
  end.

Definition location_not_found : json * nat :=
  (JObj [("error", JStr "Location not found")], 404%nat).

Definition get_location_by_name (d : disk) (location_name : string)
    : json * nat :=
  let failed := (JObj [("error", JStr "Failed to fetch location")], 500%nat) in
  match py_iter (read_json d LOCATIONS_FILE) with
  | Some locations =>
      match first_named (JStr location_name) locations with
      | Some (Some location) =>
          if negb (truthy location) then location_not_found
          else
            match without_id location with
            | Some cleaned_location => (cleaned_location, 200%nat)
            | None => failed
            end
      | Some None => location_not_found
      | None => failed
      end
  | None => failed
  end.

(** *** [GET /api/top-places] *)

(** [[loc for loc in locs if loc.get('search_count', 0) > 0]], each
    location with its count. *)
Fixpoint popular (locs : list json) : option (list (Q * json)) :=
  match locs with
  | [] => Some []
  | loc :: rest =>
      match dict_get loc "search_count" (JInt 0) with
      | Some c =>
          match as_number c, popular rest with
          | Some n, Some others =>
              Some (if Qgtb n 0 then (n, loc) :: others else others)
          | _, _ => None
          end
      | None => None
      end
  end.

(** [list.sort(key=..., reverse=True)]: descending, and stable. *)
Fixpoint insert_desc (x : Q * json) (sorted : list (Q * json))
    : list (Q * json) :=
  match sorted with
  | [] => [x]
  | y :: rest =>
      if Qgtb (fst y) (fst x) then y :: insert_desc x rest else x :: sorted
  end.

Definition sort_desc (l : list (Q * json)) : list (Q * json) :=
  fold_right insert_desc [] l.

Definition get_top_places (d : disk) : json * nat :=
  let failed := (JObj [("error", JStr "Failed to fetch top places")], 500%nat) in
  let locations := read_json d LOCATIONS_FILE in
  match py_iter locations with
  | Some locs =>
      match popular locs with
      | Some popular_places =>
          match
            match popular_places with
            | _ :: _ => Some (map snd (firstn 5 (sort_desc popular_places)))
            | [] => py_prefix locations 5
            end
          with
          | Some chosen =>
              match clean_all chosen with
              | Some cleaned_places => (JList cleaned_places, 200%nat)
              | None => failed
              end
          | None => failed
          end
      | None => failed
      end
  | None => failed
  end.

(** *** [POST /api/search] *)

(** The loop of [increment_search_count]: the location found, with its
    count raised, and the list holding it in place of the old one. *)
Fixpoint find_and_count (place_name : json) (locs : list json)
    : option (option (json * list json)) :=
  match locs with
  | [] => Some None
  | loc :: rest =>
      match dict_get loc "name" JNull with
      | Some name =>
          if py_eq name place_name then
            match loc, dict_get loc "search_count" (JInt 0) with
            | JObj fields, Some c =>
                match py_add1 c with
                | Some c' =>
                    let loc' := JObj (set_field "search_count" c' fields) in
                    Some (Some (loc', loc' :: rest))
                | None => None
                end
            | _, _ => None
            end
          else
            match find_and_count place_name rest with
            | Some (Some (found, rest')) => Some (Some (found, loc :: rest'))
            | Some None => Some None
            | None => None
            end
      | None => None
      end
  end.

(** The entry of the recent searches; [name] and [coordinates] are
    subscripted, [image_url] is fetched with [get]. *)
Definition new_search (now : string) (location_found : json) : option json :=
  match location_found with
  | JObj fields =>
      match assoc "name" fields, assoc "coordinates" fields with
      | Some name, Some coordinates =>
          Some (JObj [("timestamp", JStr now);
                      ("location",
                       JObj [("name", name);
                             ("coordinates", coordinates);
                             ("image_url",
                              match assoc "image_url" fields with
                              | Some url => url
                              | None => JNull
                              end)])])
      | _, _ => None
      end
  | _ => None
  end.

Definition place_name_required : json * nat :=
  (JObj [("error", JStr "Place name is required")], 400%nat).

Definition server_error : json * nat :=
  (JObj [("error", JStr "Server error")], 500%nat).

Definition search_recorded : json * nat :=
  (JObj [("message", JStr "Search recorded successfully")], 200%nat).

(** [request_json] is what [request.get_json()] returns, [None] when it
    raises; [now] is [datetime.utcnow().isoformat()].  A location can
    only be found in a file that holds a list, so the list written back
    is the one read with the found location replaced. *)
Definition increment_search_count (now : string) (request_json : option json)
    (d : disk) : (json * nat) * disk :=
  match request_json with
  | None => (server_error, d)
  | Some data =>
      if negb (truthy data) then (place_name_required, d)
      else
        match py_contains data "placeName" with
        | None => (server_error, d)
        | Some false => (place_name_required, d)
        | Some true =>
            match data with
            | JObj fields =>
                match assoc "placeName" fields with
                | Some place_name =>
                    match py_iter (read_json d LOCATIONS_FILE) with
                    | Some locs =>
                        match find_and_count place_name locs with
                        | Some (Some (location_found, locations)) =>
                            if negb (truthy location_found)
                            then (location_not_found, d)
                            else
                              let d1 :=
                                snd (write_json d LOCATIONS_FILE
                                       (JList locations)) in
                              match
                                new_search now location_found,
                                read_json d1 RECENT_SEARCHES_FILE
                              with
                              | Some entry, JList recent_searches =>
                                  let appended := recent_searches ++ [entry] in
                                  let kept :=
                                    if (100 <? List.length appended)%nat
                                    then skipn (List.length appended - 100)
                                           appended
                                    else appended in
                                  (search_recorded,
                                   snd (write_json d1 RECENT_SEARCHES_FILE
                                          (JList kept)))
                              | _, _ => (server_error, d1)
                              end
                        | Some None => (location_not_found, d)
                        | None => (server_error, d)
                        end
                    | None => (server_error, d)
                    end
                | None => (server_error, d)
                end
            | _ => (server_error, d)
            end
        end
  end.

End Store.

(** [loc] is a dict whose name is not the string [name]. *)
Definition not_named (name : string) (loc : json) : Prop :=
  exists n, dict_get loc "name" JNull = Some n /\ n <> JStr name.

(** Counts in non-increasing order. *)
Definition descending (l : list (Q * json)) : Prop :=
  StronglySorted (fun a b => fst b <= fst a) l.

(** A disk with three locations and no recent searches. *)
Definition library : json :=
  JObj [("_id", JObj [("$oid", JStr "65a0")]);
        ("name", JStr "Library");
        ("coordinates", JList [JFloat (1297 # 100); JFloat (7759 # 100)]);
        ("search_count", JInt 3)].

Definition lab : json :=
  JObj [("_id", JObj [("$oid", JStr "65a1")]);
        ("name", JStr "Lab Block");
        ("coordinates", JList [JFloat (1298 # 100); JFloat (7760 # 100)])].

Definition canteen : json :=
  JObj [("name", JStr "Canteen");
        ("search_count", JInt 7)].

Definition campus_disk : disk :=
  fun p =>
    if (p =? LOCATIONS_FILE)%string
    then JsonFile (JList [library; lab; canteen])
    else NoFile.

(** Every entry named by number, the second without a name. *)
Definition odd_disk : disk :=
  fun p =>
    if (p =? LOCATIONS_FILE)%string
    then JsonFile (JList [library; JObj [("name", JInt 5)]])
    else NoFile.

Definition always (o : write_outcome) : string -> write_outcome :=
  fun _ => o.

(** The reference set holds the empty string, and every text is as
    similar as can be to every other. *)
Definition blank_match_world : world string unit unit (list nat) :=
  small_world (inr [""]) true (fun _ => false) (fun _ _ => 1).

(** * The database setup script, [setup_mongodb.py]

    A document on its way into MongoDB is a [bson]: a parsed JSON value
    in which some values are an [ObjectId] or a [datetime].  A dict is
    the list of its items in insertion order, with distinct keys. *)

(** A comprehension whose element expression may raise. *)
Definition map_or_raise {A B} (f : A -> option B)
    : list A -> option (list B) :=
  fix go (l : list A) : option (list B) :=
    match l with
    | [] => Some []
    | x :: rest =>
        match f x, go rest with
        | Some y, Some rest' => Some (y :: rest')
        | _, _ => None
        end
    end.

Section Setup.

Variables Oid Date : Type.

#[warnings="-register-all"]
Inductive bson :=
| BNull
| BBool (b : bool)
| BInt (z : Z)
| BFloat (q : Q)
| BStr (s : string)
| BList (items : list bson)
| BDoc (fields : list (string * bson))
| BObjectId (oid : Oid)
| BDate (t : Date).

Fixpoint bassoc (k : string) (fields : list (string * bson)) : option bson :=
  match fields with
  | [] => None
  | (k', v) :: rest => if (k' =? k)%string then Some v else bassoc k rest
  end.

(** [ObjectId(x)], and [datetime.fromisoformat(x.replace('Z', '+00:00'))];
    [None] when they raise.  [ObjectId(None)] draws a fresh identifier;
    here every value has one result. *)
Variable object_id : bson -> option Oid.
Variable parse_date : bson -> option Date.

(** Whether [data[key]] is a dict holding [marker], and then what [build]
    makes of the value under [marker]: [None] when the step does not
    apply, [Some None] when [build] raises. *)
Definition marked {A} (build : bson -> option A) (key marker : string)
    (fields : list (string * bson)) : option (option A) :=
  match bassoc key fields with
  | Some (BDoc inner) =>
      match bassoc marker inner with
      | Some x => Some (build x)
      | None => None
      end
  | _ => None
  end.

(** The value the first two steps have put under [key], if any. *)
Definition replacement (new_id : option (option Oid))
    (new_timestamp : option (option Date)) (key : string) : option bson :=
  if (key =? "_id")%string then
    match new_id with
    | Some (Some oid) => Some (BObjectId oid)
    | _ => None
    end
  else if (key =? "timestamp")%string then
    match new_timestamp with
    | Some (Some t) => Some (BDate t)
    | _ => None
    end
  else None.

(** [None] is an exception.  The source first replaces [data['_id']] and
    [data['timestamp']] and then loops over all items; the two
    replacements are neither dicts nor lists, so the loop leaves them as
    they are, which is what the loop does with them here.  The source
    updates the dict in place and returns it; the result here is that
    dict after the call, and what an exception leaves half done is not
    kept. *)
Fixpoint convert_json_to_bson (data : bson) : option bson :=
  match data with
  | BDoc fields =>
      let new_id := marked object_id "_id" "$oid" fields in
      let new_timestamp := marked parse_date "timestamp" "$date" fields in
      match new_id, new_timestamp with
      | Some None, _ | _, Some None => None
      | _, _ =>
          option_map BDoc
            (map_or_raise
               (fun item : string * bson =>
                  match replacement new_id new_timestamp (fst item) with
                  | Some v => Some (fst item, v)
                  | None =>
                      option_map (pair (fst item))
                        match snd item with
                        | BDoc _ => convert_json_to_bson (snd item)
                        | BList elements =>
                            option_map BList
                              (map_or_raise
                                 (fun element =>
                                    match element with
                                    | BDoc _ => convert_json_to_bson element
                                    | _ => Some element
                                    end) elements)
                        | _ => Some (snd item)
                        end
                  end) fields)
      end
  | _ => Some data
  end.

(** Views of the loop of [convert_json_to_bson]: the element expression
    of the inner comprehension, what the loop does with a value the first
    steps did not replace, and what it does with an item. *)
Definition convert_element (element : bson) : option bson :=
  match element with
  | BDoc _ => convert_json_to_bson element
  | _ => Some element
  end.

Definition convert_value (value : bson) : option bson :=
  match value with
  | BDoc _ => convert_json_to_bson value
  | BList elements =>
      option_map BList (map_or_raise convert_element elements)
  | _ => Some value
  end.

Definition convert_item (new_id : option (option Oid))
    (new_timestamp : option (option Date)) (item : string * bson)
    : option (string * bson) :=
  match replacement new_id new_timestamp (fst item) with
  | Some v => Some (fst item, v)
  | None => option_map (pair (fst item)) (convert_value (snd item))
  end.

Definition is_doc (d : bson) : bool :=
  match d with BDoc _ => true | _ => false end.

(** A value that is no dict and, when a list, has no dict among its
    elements. *)
Definition plain_value (v : bson) : bool :=
  match v with
  | BDoc _ => false
  | BList elements => forallb (fun e => negb (is_doc e)) elements
  | _ => true
  end.

End Setup.

(** ** The loaders

    [json.load] yields a parsed JSON value; [delete_many] and
    [insert_many] act on the database and either return or raise, with
    whatever they have done to it by then.  The two loaders differ in the
    file they read and the collection they fill; every handler returns
    [False]. *)
Section Loading.

Context {Oid Date : Type}.
Variable object_id : bson Oid Date -> option Oid.
Variable parse_date : bson Oid Date -> option Date.
Variable ops : text_ops.

Fixpoint of_json (j : json) : bson Oid Date :=
  match j with
  | JNull => BNull Oid Date
  | JBool b => BBool Oid Date b
  | JInt z => BInt Oid Date z
  | JFloat q => BFloat Oid Date q
  | JStr s => BStr Oid Date s
  | JList items => BList (map of_json items)
  | JObj fields => BDoc (map (fun kv => (fst kv, of_json (snd kv))) fields)
  end.

Variable DB : Type.

(** [db[collection].delete_many({})] and
    [db[collection].insert_many(documents)]: the database they leave, and
    whether they returned. *)
Variable delete_many : string -> DB -> DB * bool.
Variable insert_many : string -> list (bson Oid Date) -> DB -> DB * bool.

Definition load_and_insert (path collection : string) (d : disk) (db : DB)
    : bool * DB :=
  match d path with
  | NoFile | BadFile => (false, db)
  | JsonFile content =>
      match py_iter ops content with
      | None => (false, db)
      | Some items =>
          match map_or_raise
                  (fun loc =>
                     convert_json_to_bson object_id parse_date (of_json loc))
                  items with
          | None => (false, db)
          | Some documents =>
              let (cleared, deleted) := delete_many collection db in
              if deleted then
                match documents with
                | [] => (false, cleared)
                | _ =>
                    let (filled, inserted) :=
                      insert_many collection documents cleared in
                    (inserted, filled)
                end
              else (false, cleared)
          end
      end
  end.

Definition load_and_insert_locations : disk -> DB -> bool * DB :=
  load_and_insert "campus_navigator.locations (1).json" "locations".

Definition load_and_insert_recent_searches : disk -> DB -> bool * DB :=
  load_and_insert "campus_navigator.recent_searches.json" "recent_searches".

End Loading.

(** An [ObjectId] that accepts the strings of 24 characters, a date
    parser that accepts the strings ending in [Z], and a stored search in
    extended JSON. *)
Definition sample_object_id (x : bson string string) : option string :=
  match x with
  | BStr _ _ s => if (String.length s =? 24)%nat then Some s else None
  | _ => None
  end.

Definition sample_parse_date (x : bson string string) : option string :=
  match x with
  | BStr _ _ s =>
      match index 0 "Z" s with
      | Some _ => Some s
      | None => None
      end
  | _ => None
  end.

Definition stored_fields : list (string * bson string string) :=
  [("_id", BDoc [("$oid", BStr _ _ "65a000000000000000000001")]);
   ("timestamp", BDoc [("$date", BStr _ _ "2024-01-01T00:00:00Z")]);
   ("location",
    BDoc [("name", BStr _ _ "Library");
          ("tags", BList [BStr _ _ "books";
                          BDoc [("_id", BDoc [("$oid",
                              BStr _ _ "65a000000000000000000002")])]])])].

Definition stored_search : bson string string := BDoc stored_fields.

Definition converted_search : bson string string :=
  BDoc [("_id", BObjectId string "65a000000000000000000001");
        ("timestamp", BDate string "2024-01-01T00:00:00Z");
        ("location",
         BDoc [("name", BStr _ _ "Library");
               ("tags", BList [BStr _ _ "books";
                               BDoc [("_id", BObjectId string
                                   "65a000000000000000000002")]])])].

(** A marker inside a list that is itself inside a list. *)
Definition nested_route : list (string * bson string string) :=
  [("name", BStr _ _ "Library");
   ("route", BList [BList [BDoc [("_id", BDoc [("$oid",
       BStr _ _ "65a000000000000000000003")])]]])].

(** A database as the documents of each collection, whose operations
    always return. *)
Definition sample_db : Type := string -> list (bson string string).

Definition sample_delete (collection : string) (db : sample_db)
    : sample_db * bool :=
  (fun c => if (c =? collection)%string then [] else db c, true).

Definition sample_insert (collection : string)
    (documents : list (bson string string)) (db : sample_db)
    : sample_db * bool :=
  (fun c => if (c =? collection)%string then db c ++ documents else db c,
   true).

Definition old_db : sample_db :=
  fun c => if (c =? "locations")%string then [BDoc [("name", BStr _ _ "Gate")]]
           else [].

Definition good_location : json :=
  JObj [("_id", JObj [("$oid", JStr "65a000000000000000000001")]);
        ("name", JStr "Library")].

(** The identifier is too short for [ObjectId]. *)
Definition bad_location : json :=
  JObj [("_id", JObj [("$oid", JStr "65a")]); ("name", JStr "Canteen")].

Definition setup_disk (locations : json) : disk :=
  fun p => if (p =? "campus_navigator.locations (1).json")%string
           then JsonFile locations else NoFile.

(** Unfolding of the monad operations. *)
Ltac run := unfold bind, get, put, emit, outside, ret, with_no_grad; simpl.

Example campus_library :
  outcome (find_best_match campus_world "WHERE IS THE LIBRARY" fresh)
  = inr (Some "WHERE IS THE LIBRARY").
Proof. vm_compute. reflexivity. Qed.

Example campus_gibberish :
  outcome (find_best_match campus_world "asdkjasdkj random gibberish" fresh)
  = inr None.
Proof. vm_compute. reflexivity. Qed.

Example empty_set_trace :
  trace (find_best_match empty_world "HI" fresh)
  = [EvOpenQuestions; EvGetEmbedding "HI";
     EvPrint "Loading semantic model...";
     EvTokenizerFromPretrained MODEL_NAME; EvModelFromPretrained MODEL_NAME;
     EvPrint "Semantic model loaded successfully";
     EvTokenize "HI"; EvNoGradEnter; EvForward; EvNoGradExit].
Proof. vm_compute. reflexivity. Qed.

(** ** Comparison of scores *)

Lemma Qgtb_true (a b : Q) : Qgtb a b = true <-> b < a.
Proof.
  unfold Qgtb. rewrite (Qgt_alt a b).
  destruct (a ?= b); split; congruence.
Qed.

Lemma Qgtb_false (a b : Q) : Qgtb a b = false <-> a <= b.
Proof.
  unfold Qgtb. rewrite (Qle_alt a b).
  destruct (a ?= b); split; congruence.
Qed.

(** ** How the loaders and [get_embedding] run *)

Section Runs.

Context {exn Tok Mdl Enc : Type}.
Variable w : world exn Tok Mdl Enc.

Lemma load_questions_cached g QUESTIONS :
  _QUESTIONS g = Some QUESTIONS ->
  _load_questions w g
  = {| outcome := inr QUESTIONS; final := g; trace := [] |}.
Proof.
  intros H. unfold _load_questions. run. rewrite H. reflexivity.
Qed.

Lemma load_questions_cold g :
  _QUESTIONS g = None ->
  _load_questions w g
  = match read_questions w with
    | inl e => {| outcome := inl e; final := g; trace := [EvOpenQuestions] |}
    | inr QUESTIONS =>
        {| outcome := inr QUESTIONS;
           final := {| _tokenizer := _tokenizer g; _model := _model g;
                       _QUESTIONS := Some QUESTIONS |};
           trace := [EvOpenQuestions] |}
    end.
Proof.
  intros H. unfold _load_questions. run. rewrite H. run.
  destruct (read_questions w); reflexivity.
Qed.

Lemma load_questions_keeps_handles g :
  _tokenizer (final (_load_questions w g)) = _tokenizer g
  /\ _model (final (_load_questions w g)) = _model g.
Proof.
  destruct (_QUESTIONS g) as [qs|] eqn:H.
  - rewrite (load_questions_cached g H). auto.
  - rewrite (load_questions_cold g H).
    destruct (read_questions w); auto.
Qed.

Lemma load_questions_stores g QUESTIONS :
  outcome (_load_questions w g) = inr QUESTIONS ->
  _QUESTIONS (final (_load_questions w g)) = Some QUESTIONS.
Proof.
  destruct (_QUESTIONS g) as [qs|] eqn:H.
  - rewrite (load_questions_cached g H). simpl. congruence.
  - rewrite (load_questions_cold g H).
    destruct (read_questions w); simpl; congruence.
Qed.

Lemma load_model_warm g tokenizer model :
  loaded tokenizer model g ->
  _load_model w g
  = {| outcome := inr (tokenizer, model); final := g; trace := [] |}.
Proof.
  intros [Ht Hm]. unfold _load_model. run. rewrite Ht, Hm. reflexivity.
Qed.

Lemma load_model_cold g :
  _tokenizer g = None \/ _model g = None ->
  _load_model w g
  = match tokenizer_from_pretrained w MODEL_NAME with
    | inl e =>
        {| outcome := inl e; final := g;
           trace := [EvPrint "Loading semantic model...";
                     EvTokenizerFromPretrained MODEL_NAME] |}
    | inr tokenizer =>
        match model_from_pretrained w MODEL_NAME with
        | inl e =>
            {| outcome := inl e;
               final := {| _tokenizer := Some tokenizer; _model := _model g;
                           _QUESTIONS := _QUESTIONS g |};
               trace := [EvPrint "Loading semantic model...";
                         EvTokenizerFromPretrained MODEL_NAME;
                         EvModelFromPretrained MODEL_NAME] |}
        | inr model =>
            {| outcome := inr (tokenizer, model);
               final := {| _tokenizer := Some tokenizer;
                           _model := Some model;
                           _QUESTIONS := _QUESTIONS g |};
               trace := [EvPrint "Loading semantic model...";
                         EvTokenizerFromPretrained MODEL_NAME;
                         EvModelFromPretrained MODEL_NAME;
                         EvPrint "Semantic model loaded successfully"] |}
        end
    end.
Proof.
  intros H. unfold _load_model. run.
  destruct (_tokenizer g) as [t|], (_model g) as [m|];
    try (destruct H; discriminate); run;
    destruct (tokenizer_from_pretrained w MODEL_NAME); run; try reflexivity;
    destruct (model_from_pretrained w MODEL_NAME); reflexivity.
Qed.

Lemma handles_dec (g : globals Tok Mdl) :
  (exists tokenizer model, loaded tokenizer model g)
  \/ (_tokenizer g = None \/ _model g = None).
Proof.
  unfold loaded.
  destruct (_tokenizer g) as [t|], (_model g) as [m|]; eauto.
Qed.

Lemma load_model_keeps_questions g :
  _QUESTIONS (final (_load_model w g)) = _QUESTIONS g.
Proof.
  destruct (handles_dec g) as [(t & m & H)|H].
  - rewrite (load_model_warm H). reflexivity.
  - rewrite (load_model_cold g H).
    destruct (tokenizer_from_pretrained w MODEL_NAME); [reflexivity|].
    destruct (model_from_pretrained w MODEL_NAME); reflexivity.
Qed.

Lemma load_model_loads g tokenizer model :
  outcome (_load_model w g) = inr (tokenizer, model) ->
  loaded tokenizer model (final (_load_model w g)).
Proof.
  destruct (handles_dec g) as [(t & m & H)|H].
  - rewrite (load_model_warm H). simpl. intros E.
    injection E as <- <-. exact H.
  - rewrite (load_model_cold g H).
    destruct (tokenizer_from_pretrained w MODEL_NAME); [discriminate|].
    destruct (model_from_pretrained w MODEL_NAME); [discriminate|].
    simpl. intros E. injection E as <- <-. split; reflexivity.
Qed.

(** The result of [_load_model] depends on the two handles only. *)
Lemma load_model_same_handles g g' :
  _tokenizer g' = _tokenizer g -> _model g' = _model g ->
  outcome (_load_model w g') = outcome (_load_model w g).
Proof.
  intros Ht Hm.
  destruct (handles_dec g) as [(t & m & H)|H].
  - assert (H' : loaded t m g') by (destruct H; split; congruence).
    rewrite (load_model_warm H), (load_model_warm H'). reflexivity.
  - assert (H' : _tokenizer g' = None \/ _model g' = None)
      by (destruct H; [left | right]; congruence).
    rewrite (load_model_cold g H), (load_model_cold g' H').
    destruct (tokenizer_from_pretrained w MODEL_NAME); [reflexivity|].
    destruct (model_from_pretrained w MODEL_NAME); reflexivity.
Qed.

Lemma get_embedding_run g text :
  get_embedding w text g
  = let l := _load_model w g in
    match outcome l with
    | inl e =>
        {| outcome := inl e; final := final l;
           trace := EvGetEmbedding text :: trace l |}
    | inr (tokenizer, model) =>
        {| outcome := embedding_value w tokenizer model text;
           final := final l;
           trace := EvGetEmbedding text :: trace l
                    ++ encode_trace w tokenizer text |}
    end.
Proof.
  unfold get_embedding, embedding_value, encode_trace.
  unfold bind, emit, outside, ret, with_no_grad.
  cbn [outcome final trace app fst snd].
  destruct (outcome (_load_model w g)) as [e|[t m]];
    cbn [outcome final trace app fst snd]; [reflexivity|].
  destruct (tokenizer_call w t text) as [e|tokens];
    cbn [outcome final trace app fst snd]; [reflexivity|].
  destruct (model_call w m tokens);
    cbn [outcome final trace app fst snd]; rewrite ?app_nil_r; reflexivity.
Qed.

Lemma get_embedding_warm g tokenizer model text :
  loaded tokenizer model g ->
  get_embedding w text g
  = {| outcome := embedding_value w tokenizer model text; final := g;
       trace := EvGetEmbedding text :: encode_trace w tokenizer text |}.
Proof.
  intros H. rewrite get_embedding_run, (load_model_warm H). reflexivity.
Qed.

End Runs.

(** ** Traces *)

Lemma count_app p (a b : list event) :
  count p (a ++ b) = (count p a + count p b)%nat.
Proof. unfold count. rewrite filter_app, length_app. reflexivity. Qed.

Lemma embedding_calls_app (a b : list event) :
  embedding_calls (a ++ b) = embedding_calls a ++ embedding_calls b.
Proof.
  induction a as [|e a IH]; [reflexivity|].
  destruct e; simpl; rewrite IH; reflexivity.
Qed.

(** ** The loop of [find_best_match] once the model is loaded *)

Section Loop.

Context {exn Tok Mdl Enc : Type}.
Variable w : world exn Tok Mdl Enc.
Variables (tokenizer : Tok) (model : Mdl).
Variable g : globals Tok Mdl.
Hypothesis warm : loaded tokenizer model g.
Variable user_embedding : tensor2.

Lemma loop_step question rest best_match highest_similarity :
  for_question_in w user_embedding (question :: rest) best_match highest_similarity g
  = match embedding_value w tokenizer model question with
    | inl e =>
        {| outcome := inl e; final := g;
           trace := EvGetEmbedding question
                    :: encode_trace w tokenizer question |}
    | inr question_embedding =>
        let similarity :=
          cosine_similarity w user_embedding question_embedding in
        let r :=
          (if Qgtb similarity highest_similarity
           then for_question_in w user_embedding rest (Some question) similarity
           else for_question_in w user_embedding rest best_match highest_similarity) g in
        {| outcome := outcome r; final := final r;
           trace := (EvGetEmbedding question
                     :: encode_trace w tokenizer question)
                    ++ EvCosineSimilarity :: trace r |}
    end.
Proof.
  cbn [for_question_in]. unfold bind at 1.
  rewrite (get_embedding_warm w question warm).
  cbn [outcome final trace].
  destruct (embedding_value w tokenizer model question) as [e|qe];
    [reflexivity|].
  unfold bind at 1, outside. cbn [outcome final trace app].
  reflexivity.
Qed.

Lemma loop_final QUESTIONS : forall best_match highest_similarity,
  final (for_question_in w user_embedding QUESTIONS best_match highest_similarity g) = g.
Proof.
  induction QUESTIONS as [|question rest IH]; intros; [reflexivity|].
  rewrite loop_step.
  destruct (embedding_value w tokenizer model question); [reflexivity|].
  cbn [final].
  destruct (Qgtb _ highest_similarity); apply IH.
Qed.

Lemma encode_trace_quiet p text :
  p (EvTokenize text) = false -> p EvNoGradEnter = false ->
  p EvForward = false -> p EvNoGradExit = false ->
  count p (encode_trace w tokenizer text) = 0%nat.
Proof.
  intros H1 H2 H3 H4. unfold encode_trace, count.
  destruct (tokenizer_call w tokenizer text); simpl;
    rewrite ?H1, ?H2, ?H3, ?H4; reflexivity.
Qed.

(** The loop makes no outside call other than tokenizing, running the
    model and scoring. *)
Lemma loop_quiet p QUESTIONS :
  (forall text, p (EvGetEmbedding text) = false) ->
  (forall text, p (EvTokenize text) = false) ->
  p EvNoGradEnter = false -> p EvForward = false ->
  p EvNoGradExit = false -> p EvCosineSimilarity = false ->
  forall best_match highest_similarity,
    count p (trace (for_question_in w user_embedding QUESTIONS best_match highest_similarity g)) = 0%nat.
Proof.
  intros Hg Ht H2 H3 H4 Hc.
  induction QUESTIONS as [|question rest IH]; intros; [reflexivity|].
  rewrite loop_step.
  assert (Q0 : count p (EvGetEmbedding question
                        :: encode_trace w tokenizer question) = 0%nat).
  { change (count p ([EvGetEmbedding question]
                     ++ encode_trace w tokenizer question) = 0%nat).
    rewrite count_app, encode_trace_quiet by auto.
    unfold count. simpl. rewrite Hg. reflexivity. }
  destruct (embedding_value w tokenizer model question); [exact Q0|].
  cbn [trace].
  change (EvCosineSimilarity :: ?t) with ([EvCosineSimilarity] ++ t).
  rewrite !count_app, Q0.
  replace (count p [EvCosineSimilarity]) with 0%nat
    by (unfold count; simpl; rewrite Hc; reflexivity).
  destruct (Qgtb _ highest_similarity); rewrite IH; reflexivity.
Qed.

Lemma encode_trace_calls text :
  embedding_calls (encode_trace w tokenizer text) = [].
Proof.
  unfold encode_trace. destruct (tokenizer_call w tokenizer text);
    reflexivity.
Qed.

(** The loop embeds the reference questions in load order, and all of
    them when it completes. *)
Lemma loop_calls QUESTIONS : forall best_match highest_similarity,
  let r := for_question_in w user_embedding QUESTIONS best_match highest_similarity g in
  exists k,
    embedding_calls (trace r) = firstn k QUESTIONS
    /\ (forall v, outcome r = inr v -> k = List.length QUESTIONS).
Proof.
  induction QUESTIONS as [|question rest IH]; intros.
  - exists 0%nat. split; reflexivity.
  - subst r. rewrite loop_step.
    destruct (embedding_value w tokenizer model question) as [e|qe].
    + exists 1%nat. cbn [trace outcome]. split; [|discriminate].
      cbn [embedding_calls]. rewrite encode_trace_calls.
      destruct rest; reflexivity.
    + cbn [trace outcome].
      destruct (Qgtb _ highest_similarity);
        [destruct (IH (Some question)
                     (cosine_similarity w user_embedding qe))
           as (k & Hk & Hl)
        | destruct (IH best_match highest_similarity) as (k & Hk & Hl)];
        exists (S k);
        (split; [|intros v Hv; cbn [List.length]; rewrite (Hl v Hv);
                  reflexivity]);
        rewrite embedding_calls_app; cbn [embedding_calls];
        rewrite encode_trace_calls, Hk; reflexivity.
Qed.

(** The number of scores computed is the number of reference questions
    embedded. *)
Lemma loop_cosines QUESTIONS : forall best_match highest_similarity,
  let r := for_question_in w user_embedding QUESTIONS best_match highest_similarity g in
  (count is_cosine (trace r) <= List.length QUESTIONS)%nat
  /\ (forall v, outcome r = inr v ->
        count is_cosine (trace r) = List.length QUESTIONS).
Proof.
  induction QUESTIONS as [|question rest IH]; intros.
  - split; [apply Nat.le_refl | reflexivity].
  - subst r. rewrite loop_step.
    assert (Q0 : count is_cosine (EvGetEmbedding question
                   :: encode_trace w tokenizer question) = 0%nat).
    { change (count is_cosine ([EvGetEmbedding question]
                       ++ encode_trace w tokenizer question) = 0%nat).
      rewrite count_app, encode_trace_quiet by reflexivity. reflexivity. }
    destruct (embedding_value w tokenizer model question) as [e|qe].
    + cbn [trace outcome]. rewrite Q0. split; [lia | discriminate].
    + cbn [trace outcome].
      change (EvCosineSimilarity :: ?t) with ([EvCosineSimilarity] ++ t).
      rewrite !count_app, Q0.
      change (count is_cosine [EvCosineSimilarity]) with 1%nat.
      cbn [List.length].
      destruct (Qgtb _ highest_similarity);
        [destruct (IH (Some question)
                     (cosine_similarity w user_embedding qe)) as (Hk & Hl)
        | destruct (IH best_match highest_similarity) as (Hk & Hl)];
        (split; [lia | intros v Hv; rewrite (Hl v Hv); reflexivity]).
Qed.

Lemma loop_ok QUESTIONS (E : string -> tensor2) :
  (forall x, In x QUESTIONS ->
     embedding_value w tokenizer model x = inr (E x)) ->
  forall best_match highest_similarity,
    outcome (for_question_in w user_embedding QUESTIONS best_match highest_similarity g)
    = inr (scan_scores
             (fun x => cosine_similarity w user_embedding (E x))
             QUESTIONS best_match highest_similarity).
Proof.
  induction QUESTIONS as [|question rest IH]; intros HE best hi;
    [reflexivity|].
  rewrite loop_step, (HE question (or_introl eq_refl)).
  cbn [outcome scan_scores].
  destruct (Qgtb _ hi); apply IH; intros x Hx; apply HE; right; exact Hx.
Qed.

Lemma loop_fail before question after e :
  (forall x, In x before ->
     exists v, embedding_value w tokenizer model x = inr v) ->
  embedding_value w tokenizer model question = inl e ->
  forall best_match highest_similarity,
    outcome (for_question_in w user_embedding (before ++ question :: after) best_match
               highest_similarity g) = inl e.
Proof.
  intros Hb Hq. induction before as [|x before IH]; intros best hi.
  - cbn [app]. rewrite loop_step, Hq. reflexivity.
  - cbn [app]. rewrite loop_step.
    destruct (Hb x (or_introl eq_refl)) as [v Hv]. rewrite Hv.
    cbn [outcome].
    destruct (Qgtb _ hi); apply IH; intros y Hy; apply Hb; right; exact Hy.
Qed.

Lemma loop_raises QUESTIONS e : forall best_match highest_similarity,
  outcome (for_question_in w user_embedding QUESTIONS best_match highest_similarity g) = inl e ->
  exists before question after,
    QUESTIONS = before ++ question :: after
    /\ (forall x, In x before ->
          exists v, embedding_value w tokenizer model x = inr v)
    /\ embedding_value w tokenizer model question = inl e.
Proof.
  induction QUESTIONS as [|question rest IH]; intros best hi H;
    [discriminate|].
  rewrite loop_step in H.
  destruct (embedding_value w tokenizer model question) as [e'|qe] eqn:Hq.
  - cbn [outcome] in H. injection H as ->.
    exists [], question, rest. repeat split; [|exact Hq].
    intros x [].
  - cbn [outcome] in H.
    assert (H' : exists b h, outcome (for_question_in w user_embedding rest b h g) = inl e)
      by (destruct (Qgtb _ hi); eauto).
    destruct H' as (b & h & H').
    destruct (IH b h H') as (before & x & after & -> & Hb & Hx).
    exists (question :: before), x, after. repeat split; [|exact Hx].
    intros y [<-|Hy]; [eauto | apply Hb; exact Hy].
Qed.

End Loop.

(** ** The loop over known scores *)

Section Scores.

Variable score : string -> Q.

(** After the loop either nothing beat the initial score, or the
    tracked question is the earliest one whose score is maximal. *)
Lemma scan_scores_spec QUESTIONS :
  forall best_match highest_similarity b h,
    scan_scores score QUESTIONS best_match highest_similarity = (b, h) ->
    (forall x, In x QUESTIONS -> score x <= h)
    /\ ((b = best_match /\ h = highest_similarity)
        \/ (exists i x,
              nth_error QUESTIONS i = Some x /\ b = Some x
              /\ h = score x /\ highest_similarity < score x
              /\ forall j y, (j < i)%nat ->
                   nth_error QUESTIONS j = Some y -> score y < score x)).
Proof.
  induction QUESTIONS as [|question rest IH]; intros best hi b h H.
  - cbn in H. injection H as <- <-. split; [intros x []|left; auto].
  - cbn [scan_scores] in H.
    destruct (Qgtb (score question) hi) eqn:G.
    + apply Qgtb_true in G.
      destruct (IH _ _ _ _ H) as (Hmax & [[-> ->]|(i & x & Hi & -> & -> & Hlt & Hbefore)]).
      * split.
        { intros x [<-|Hx]; [apply Qle_refl | apply Hmax; exact Hx]. }
        right. exists 0%nat, question. repeat split; auto.
        intros j y Hj. lia.
      * split.
        { intros y [<-|Hy]; [apply Qlt_le_weak; exact Hlt | apply Hmax; exact Hy]. }
        right. exists (S i), x. repeat split; auto.
        { eapply Qlt_trans; eauto. }
        intros [|j] y Hj Hy.
        { cbn in Hy. injection Hy as <-. exact Hlt. }
        { apply (Hbefore j); [lia | exact Hy]. }
    + apply Qgtb_false in G.
      destruct (IH _ _ _ _ H) as (Hmax & [[-> ->]|(i & x & Hi & -> & -> & Hlt & Hbefore)]).
      * split; [|left; auto].
        intros x [<-|Hx]; [exact G | apply Hmax; exact Hx].
      * split.
        { intros y [<-|Hy];
            [apply Qlt_le_weak; eapply Qle_lt_trans; eauto
            | apply Hmax; exact Hy]. }
        right. exists (S i), x. repeat split; auto.
        intros [|j] y Hj Hy.
        { cbn in Hy. injection Hy as <-. eapply Qle_lt_trans; eauto. }
        { apply (Hbefore j); [lia | exact Hy]. }
Qed.

(** The tracked score never falls below the initial one. *)
Lemma scan_scores_grows QUESTIONS :
  forall best_match highest_similarity,
    highest_similarity
    <= snd (scan_scores score QUESTIONS best_match highest_similarity).
Proof.
  induction QUESTIONS as [|question rest IH]; intros best hi.
  - apply Qle_refl.
  - cbn [scan_scores]. destruct (Qgtb (score question) hi) eqn:G.
    + apply Qgtb_true in G. eapply Qle_trans; [|apply IH].
      apply Qlt_le_weak. exact G.
    + apply IH.
Qed.

End Scores.

(** ** How [find_best_match] runs *)

Section Matcher.

Context {exn Tok Mdl Enc : Type}.
Variable w : world exn Tok Mdl Enc.

Lemma bind_run A B (c : M exn Tok Mdl A) (k : A -> M exn Tok Mdl B) g :
  bind c k g
  = match outcome (c g) with
    | inl e =>
        {| outcome := inl e; final := final (c g); trace := trace (c g) |}
    | inr a =>
        {| outcome := outcome (k a (final (c g)));
           final := final (k a (final (c g)));
           trace := trace (c g) ++ trace (k a (final (c g))) |}
    end.
Proof. reflexivity. Qed.

Lemma find_best_match_run user_query g :
  find_best_match w user_query g
  = let l := _load_questions w g in
    match outcome l with
    | inl e => {| outcome := inl e; final := final l; trace := trace l |}
    | inr QUESTIONS =>
        let u := get_embedding w user_query (final l) in
        match outcome u with
        | inl e =>
            {| outcome := inl e; final := final u;
               trace := trace l ++ trace u |}
        | inr user_embedding =>
            let r := for_question_in w user_embedding QUESTIONS None (-1)
                       (final u) in
            {| outcome :=
                 match outcome r with
                 | inl e => inl e
                 | inr bh =>
                     inr (if Qgtb (snd bh) (7 # 10) then fst bh else None)
                 end;
               final := final r;
               trace := trace l ++ trace u ++ trace r |}
        end
    end.
Proof.
  unfold find_best_match. rewrite bind_run. cbn zeta.
  destruct (outcome (_load_questions w g)) as [e|QUESTIONS];
    [reflexivity|].
  rewrite bind_run.
  destruct (outcome (get_embedding w user_query _)) as [e|ue];
    cbn [outcome final trace]; [reflexivity|].
  rewrite bind_run.
  destruct (outcome (for_question_in w ue QUESTIONS None (-1) _));
    cbn [outcome final trace ret]; rewrite ?app_nil_r; reflexivity.
Qed.

(** The query embedding succeeds only with both handles in place. *)
Lemma get_embedding_loads text g v :
  outcome (get_embedding w text g) = inr v ->
  exists tokenizer model,
    outcome (_load_model w g) = inr (tokenizer, model)
    /\ embedding_value w tokenizer model text = inr v
    /\ loaded tokenizer model (final (get_embedding w text g)).
Proof.
  rewrite get_embedding_run. cbn zeta.
  destruct (outcome (_load_model w g)) as [e|[t m]] eqn:H;
    cbn [outcome final]; [discriminate|].
  intros Hv. exists t, m. repeat split; auto.
  - apply (load_model_loads w g H).
  - apply (load_model_loads w g H).
Qed.

Section Healthy.

Variables (g : globals Tok Mdl) (user_query : string).
Variables (QUESTIONS : list string) (tokenizer : Tok) (model : Mdl).
Variable E : string -> tensor2.
Hypothesis questions_ok : outcome (_load_questions w g) = inr QUESTIONS.
Hypothesis model_ok : outcome (_load_model w g) = inr (tokenizer, model).
Hypothesis embeddings_ok :
  forall x, x = user_query \/ In x QUESTIONS ->
    embedding_value w tokenizer model x = inr (E x).

Lemma query_embedding_ok :
  let u := get_embedding w user_query (final (_load_questions w g)) in
  outcome u = inr (E user_query) /\ loaded tokenizer model (final u).
Proof.
  cbn zeta.
  assert (H : outcome (_load_model w (final (_load_questions w g)))
              = inr (tokenizer, model)).
  { rewrite <- model_ok.
    destruct (load_questions_keeps_handles w g).
    apply load_model_same_handles; assumption. }
  rewrite get_embedding_run. cbn zeta. rewrite H. cbn [outcome final].
  split; [apply embeddings_ok; left; reflexivity|].
  apply (load_model_loads w _ H).
Qed.

(** With a readable questions file, a loadable model and texts that
    can all be embedded, the call returns what the loop over the
    scores decides. *)
Lemma find_best_match_healthy :
  outcome (find_best_match w user_query g)
  = inr (let bh := scan_scores (similarity w E user_query) QUESTIONS None (-1) in
         if Qgtb (snd bh) (7 # 10) then fst bh else None).
Proof.
  rewrite find_best_match_run. cbn zeta. rewrite questions_ok.
  destruct query_embedding_ok as [Hu Hl]. rewrite Hu.
  cbn [outcome].
  rewrite (loop_ok w Hl (E user_query) QUESTIONS E).
  - reflexivity.
  - intros x Hx. apply embeddings_ok. right. exact Hx.
Qed.

(** A question is returned exactly when it is the earliest one with
    the maximal score and that score is above the threshold. *)
Lemma find_best_match_some q :
  outcome (find_best_match w user_query g) = inr (Some q) ->
  7 # 10 < similarity w E user_query q
  /\ (forall x, In x QUESTIONS -> similarity w E user_query x <= similarity w E user_query q)
  /\ exists i,
       nth_error QUESTIONS i = Some q
       /\ forall j y, (j < i)%nat -> nth_error QUESTIONS j = Some y ->
            similarity w E user_query y < similarity w E user_query q.
Proof.
  rewrite find_best_match_healthy. cbn zeta.
  destruct (scan_scores (similarity w E user_query) QUESTIONS None (-1)) as [b h] eqn:S.
  cbn [fst snd]. destruct (Qgtb h (7 # 10)) eqn:G; [|discriminate].
  intros Hb. injection Hb as ->. apply Qgtb_true in G.
  destruct (scan_scores_spec (similarity w E user_query) QUESTIONS _ _ S)
    as (Hmax & [[Hn _]|(i & x & Hi & Hx & -> & _ & Hbefore)]);
    [discriminate|].
  injection Hx as ->. repeat split; eauto.
Qed.

Lemma find_best_match_none :
  outcome (find_best_match w user_query g) = inr None ->
  forall x, In x QUESTIONS -> similarity w E user_query x <= 7 # 10.
Proof.
  rewrite find_best_match_healthy. cbn zeta.
  destruct (scan_scores (similarity w E user_query) QUESTIONS None (-1)) as [b h] eqn:S.
  cbn [fst snd]. destruct (Qgtb h (7 # 10)) eqn:G.
  - apply Qgtb_true in G. intros Hb. injection Hb as ->.
    destruct (scan_scores_spec (similarity w E user_query) QUESTIONS _ _ S)
      as (_ & [[_ ->]|(i & x & _ & Hx & _)]);
      [|discriminate].
    exfalso. revert G. apply Qle_not_lt. discriminate.
  - apply Qgtb_false in G. intros _ x Hx.
    destruct (scan_scores_spec (similarity w E user_query) QUESTIONS _ _ S) as (Hmax & _).
    eapply Qle_trans; [apply Hmax; exact Hx | exact G].
Qed.

Lemma find_best_match_returns :
  exists r, outcome (find_best_match w user_query g) = inr r.
Proof. rewrite find_best_match_healthy. eauto. Qed.

End Healthy.

End Matcher.

(** * The matching rule *)

(** A maximal score above the threshold makes the call return a question
    with that score. *)
Lemma maximum_above_threshold
    {exn Tok Mdl Enc} (w : world exn Tok Mdl Enc) (g : globals Tok Mdl)
    (user_query : string) (QUESTIONS : list string)
    (tokenizer : Tok) (model : Mdl) (E : string -> tensor2) (best : string) :
  outcome (_load_questions w g) = inr QUESTIONS ->
  outcome (_load_model w g) = inr (tokenizer, model) ->
  (forall x, x = user_query \/ In x QUESTIONS ->
     embedding_value w tokenizer model x = inr (E x)) ->
  In best QUESTIONS ->
  (forall x, In x QUESTIONS ->
     similarity w E user_query x <= similarity w E user_query best) ->
  7 # 10 < similarity w E user_query best ->
  exists q,
    outcome (find_best_match w user_query g) = inr (Some q)
    /\ In q QUESTIONS
    /\ similarity w E user_query q == similarity w E user_query best.
Proof.
  intros Hq Hm He Hin Hmax Hthr.
  rewrite (@find_best_match_healthy _ _ _ _ w g user_query QUESTIONS
             tokenizer model E Hq Hm He). cbn zeta.
  fold (similarity w E user_query).
  destruct (scan_scores (similarity w E user_query) QUESTIONS None (-1))
    as [b h] eqn:S.
  destruct (scan_scores_spec _ QUESTIONS _ _ S)
    as (Hall & [[_ ->]|(i & x & Hi & -> & -> & _ & _)]).
  - exfalso. specialize (Hall best Hin).
    assert (-1 < 7 # 10) by reflexivity. lra.
  - cbn [fst snd]. specialize (Hall best Hin).
    apply nth_error_In in Hi.
    assert (G : Qgtb (similarity w E user_query x) (7 # 10) = true).
    { apply Qgtb_true. eapply Qlt_le_trans; eauto. }
    rewrite G. exists x. repeat split; auto.
    apply Qle_antisym; auto.
Qed.

(** ** The threshold and single precision *)

(** No single-precision value lies between the double [0.7] and 7/10:
    the two neighbours of 0.7 in single precision are 11744051/2^24,
    below the double, and 11744052/2^24, above 7/10. *)
Lemma float32_clears_threshold (s : Q) :
  is_float32 s -> float_0_7 <= s -> 7 # 10 < s.
Proof.
  intros (m & e & Hm & He & Hs) Hle. rewrite Hs in *. clear Hs s.
  change (2 ^ 24)%Z with 16777216%Z in Hm.
  unfold float_0_7, float_value, pow2 in *.
  destruct (Z.leb_spec 0 e) as [Hpos|Hneg].
  - assert (P : (0 < 2 ^ e)%Z) by (apply Z.pow_pos_nonneg; lia).
    unfold Qle, Qlt in *. cbn in *. nia.
  - set (n := (- e)%Z) in *.
    assert (P : (0 < 2 ^ n)%Z) by (apply Z.pow_pos_nonneg; lia).
    assert (HD : Zpos (Z.to_pos (2 ^ n)) = (2 ^ n)%Z)
      by (apply Z2Pos.id, P).
    set (D := Z.to_pos (2 ^ n)) in *.
    assert (Hle' : (3152519739159347 * 2 ^ n
                    <= m * 4503599627370496)%Z).
    { unfold Qle in Hle. cbv [Qnum Qden Qmult inject_Z] in Hle.
      rewrite Pos.mul_1_l, HD in Hle. lia. }
    assert (G : (7 * 2 ^ n < m * 10)%Z).
    { destruct (Z.le_gt_cases n 24) as [Hn|Hn].
      - assert (C : (0 < 2 ^ (24 - n))%Z) by (apply Z.pow_pos_nonneg; lia).
        assert (S : (2 ^ n * 2 ^ (24 - n) = 16777216)%Z).
        { rewrite <- Z.pow_add_r by lia.
          replace (n + (24 - n))%Z with 24%Z by lia. reflexivity. }
        set (c := (2 ^ (24 - n))%Z) in *. set (p := (2 ^ n)%Z) in *.
        assert (K : (3152519739159347 * 16777216
                     <= (m * c) * 4503599627370496)%Z) by nia.
        assert (K' : (11744052 <= m * c)%Z) by lia.
        nia.
      - assert (B : (2 ^ 25 <= 2 ^ n)%Z)
          by (apply Z.pow_le_mono_r; lia).
        change (2 ^ 25)%Z with 33554432%Z in B. lia. }
    unfold Qlt. cbv [Qnum Qden Qmult inject_Z].
    rewrite Pos.mul_1_l, HD. lia.
Qed.

(** Hence the test of the code, against the double, and the test here,
    against [7 # 10], give the same answer on every score. *)
Lemma threshold_readings_agree (s : Q) :
  is_float32 s -> Qgtb s (7 # 10) = Qgtb s float_0_7.
Proof.
  intros F. destruct (Qlt_le_dec float_0_7 s) as [L|L].
  - rewrite (proj2 (Qgtb_true s float_0_7) L).
    apply Qgtb_true, float32_clears_threshold; [exact F|].
    apply Qlt_le_weak, L.
  - rewrite (proj2 (Qgtb_false s float_0_7) L). apply Qgtb_false.
    apply Qle_trans with (1 := L). unfold float_0_7, Qle. cbn. lia.
Qed.

(** C1.  When the questions file can be read, the model can be loaded
    and the query and all reference questions can be embedded, and the
    maximal similarity of the query against the reference questions, a
    single-precision value, is at least 0.7, whether 0.7 is read as 7/10
    or as the double the code compares with, [find_best_match] returns a
    reference question attaining that maximal similarity, not the
    no-match value. *)
Theorem at_least_threshold_returns_best
    {exn Tok Mdl Enc} (w : world exn Tok Mdl Enc) (g : globals Tok Mdl)
    (user_query : string) (QUESTIONS : list string)
    (tokenizer : Tok) (model : Mdl) (E : string -> tensor2) (best : string) :
  outcome (_load_questions w g) = inr QUESTIONS ->
  outcome (_load_model w g) = inr (tokenizer, model) ->
  (forall x, x = user_query \/ In x QUESTIONS ->
     embedding_value w tokenizer model x = inr (E x)) ->
  In best QUESTIONS ->
  (forall x, In x QUESTIONS ->
     similarity w E user_query x <= similarity w E user_query best) ->
  is_float32 (similarity w E user_query best) ->
  7 # 10 <= similarity w E user_query best
  \/ float_0_7 <= similarity w E user_query best ->
  exists q,
    outcome (find_best_match w user_query g) = inr (Some q)
    /\ In q QUESTIONS
    /\ similarity w E user_query q == similarity w E user_query best.
Proof.
  intros Hq Hm He Hin Hmax Hfloat Hthr.
  apply (@maximum_above_threshold _ _ _ _ w g user_query QUESTIONS
           tokenizer model E best Hq Hm He Hin Hmax).
  apply float32_clears_threshold; [exact Hfloat|].
  destruct Hthr as [H|H]; [|exact H].
  apply Qle_trans with (2 := H). unfold float_0_7, Qle. cbn. lia.
Qed.

Lemma at_least_threshold_returns_best_witness :
  similarity near_world small_embedding "WHERE IS THE LIBRARY?"
    "WHERE IS THE LIBRARY" == 11744052 # 16777216
  /\ exists q,
       outcome (find_best_match near_world "WHERE IS THE LIBRARY?" fresh)
       = inr (Some q)
       /\ In q ["WHERE IS THE LIBRARY"]
       /\ similarity near_world small_embedding "WHERE IS THE LIBRARY?" q
          == similarity near_world small_embedding "WHERE IS THE LIBRARY?"
               "WHERE IS THE LIBRARY".
Proof.
  split; [vm_compute; reflexivity|].
  apply (@at_least_threshold_returns_best _ _ _ _ near_world fresh
           "WHERE IS THE LIBRARY?" ["WHERE IS THE LIBRARY"] tt tt
           small_embedding "WHERE IS THE LIBRARY").
  - reflexivity.
  - reflexivity.
  - intros x _. reflexivity.
  - left. reflexivity.
  - intros x [<-|[]]. vm_compute. discriminate.
  - exists 11744052%Z, (-24)%Z. split; [reflexivity|]. split; [lia|].
    vm_compute. reflexivity.
  - right. vm_compute. discriminate.
Defined.

(** The earliest question with the maximal score exists as soon as there
    is a question at all. *)
Lemma earliest_maximum (score : string -> Q) (QUESTIONS : list string) :
  QUESTIONS <> [] ->
  exists i top,
    nth_error QUESTIONS i = Some top
    /\ (forall x, In x QUESTIONS -> score x <= score top)
    /\ forall j y, (j < i)%nat -> nth_error QUESTIONS j = Some y ->
         score y < score top.
Proof.
  destruct QUESTIONS as [|q0 rest]; [congruence|]. intros _.
  destruct (scan_scores score (q0 :: rest) None (score q0 - 1))
    as [b h] eqn:S.
  destruct (scan_scores_spec _ _ _ _ S)
    as (Hall & [[_ ->]|(i & x & Hi & _ & -> & _ & Hb)]).
  - exfalso. specialize (Hall q0 (or_introl eq_refl)). lra.
  - exists i, x. auto.
Qed.

(** C2.  When the questions file can be read, the model can be loaded and
    the query and all reference questions can be embedded, a non-empty
    reference set has a best-matching question [top] (maximal similarity,
    earliest in load order), and [find_best_match] returns [top] if its
    similarity is strictly greater than 0.7 and the no-match value if it
    is not. *)
Theorem match_iff_above_threshold
    {exn Tok Mdl Enc} (w : world exn Tok Mdl Enc) (g : globals Tok Mdl)
    (user_query : string) (QUESTIONS : list string)
    (tokenizer : Tok) (model : Mdl) (E : string -> tensor2) :
  outcome (_load_questions w g) = inr QUESTIONS ->
  outcome (_load_model w g) = inr (tokenizer, model) ->
  (forall x, x = user_query \/ In x QUESTIONS ->
     embedding_value w tokenizer model x = inr (E x)) ->
  QUESTIONS <> [] ->
  exists top,
    In top QUESTIONS
    /\ (forall x, In x QUESTIONS ->
          similarity w E user_query x <= similarity w E user_query top)
    /\ ((7 # 10 < similarity w E user_query top
         /\ outcome (find_best_match w user_query g) = inr (Some top))
        \/ (similarity w E user_query top <= 7 # 10
            /\ outcome (find_best_match w user_query g) = inr None)).
Proof.
  intros Hq Hm He Hne.
  destruct (earliest_maximum (similarity w E user_query) Hne)
    as (i & top & Hi & Hmax & Hearly).
  exists top. split; [eapply nth_error_In; eauto|]. split; [exact Hmax|].
  destruct (@find_best_match_returns _ _ _ _ w g user_query QUESTIONS
              tokenizer model E Hq Hm He) as [[q|] Hr].
  - left.
    destruct (@find_best_match_some _ _ _ _ w g user_query QUESTIONS
                tokenizer model E Hq Hm He q Hr)
      as (Hthr & Hqmax & j & Hj & Hjearly).
    unfold similarity in *.
    assert (Hq_in : In q QUESTIONS) by (eapply nth_error_In; eauto).
    assert (Htop_in : In top QUESTIONS) by (eapply nth_error_In; eauto).
    assert (i = j).
    { destruct (Nat.lt_trichotomy i j) as [L|[L|L]]; [|exact L|].
      - specialize (Hjearly i top L Hi). specialize (Hmax q Hq_in). lra.
      - specialize (Hearly j q L Hj). specialize (Hqmax top Htop_in). lra. }
    subst j. rewrite Hi in Hj. injection Hj as <-. auto.
  - right. split; [|exact Hr].
    apply (@find_best_match_none _ _ _ _ w g user_query QUESTIONS
             tokenizer model E Hq Hm He Hr).
    eapply nth_error_In; eauto.
Qed.

Lemma match_iff_above_threshold_witness :
  exists top,
    In top campus_questions
    /\ (forall x, In x campus_questions ->
          similarity campus_world small_embedding "HELLO" x
          <= similarity campus_world small_embedding "HELLO" top)
    /\ ((7 # 10 < similarity campus_world small_embedding "HELLO" top
         /\ outcome (find_best_match campus_world "HELLO" fresh)
            = inr (Some top))
        \/ (similarity campus_world small_embedding "HELLO" top <= 7 # 10
            /\ outcome (find_best_match campus_world "HELLO" fresh)
               = inr None)).
Proof.
  apply (@match_iff_above_threshold _ _ _ _ campus_world fresh "HELLO"
           campus_questions tt tt small_embedding).
  - reflexivity.
  - reflexivity.
  - intros x _. reflexivity.
  - discriminate.
Defined.

(** C3, amended.  When the questions file can be read, the model can be
    loaded and the query and all reference questions can be embedded: if
    the earliest question attaining the maximal similarity scores above
    0.7, it is the one returned, whatever later questions score the same;
    a returned question is always the earliest one attaining the maximal
    similarity; when the maximal similarity is not above 0.7 the no-match
    value is returned, ties or not; and inside the loop a question whose
    score does not strictly exceed the tracked score leaves the tracked
    pair as it is. *)
Theorem earliest_of_equal_maxima_wins
    {exn Tok Mdl Enc} (w : world exn Tok Mdl Enc) (g : globals Tok Mdl)
    (user_query : string) (QUESTIONS : list string)
    (tokenizer : Tok) (model : Mdl) (E : string -> tensor2) :
  outcome (_load_questions w g) = inr QUESTIONS ->
  outcome (_load_model w g) = inr (tokenizer, model) ->
  (forall x, x = user_query \/ In x QUESTIONS ->
     embedding_value w tokenizer model x = inr (E x)) ->
  (forall i first,
     nth_error QUESTIONS i = Some first ->
     (forall x, In x QUESTIONS ->
        similarity w E user_query x <= similarity w E user_query first) ->
     (forall j y, (j < i)%nat -> nth_error QUESTIONS j = Some y ->
        similarity w E user_query y < similarity w E user_query first) ->
     7 # 10 < similarity w E user_query first ->
     outcome (find_best_match w user_query g) = inr (Some first))
  /\ (forall q,
        outcome (find_best_match w user_query g) = inr (Some q) ->
        exists i,
          nth_error QUESTIONS i = Some q
          /\ (forall x, In x QUESTIONS ->
                similarity w E user_query x <= similarity w E user_query q)
          /\ forall j y, (j < i)%nat -> nth_error QUESTIONS j = Some y ->
               similarity w E user_query y < similarity w E user_query q)
  /\ (forall first,
        In first QUESTIONS ->
        (forall x, In x QUESTIONS ->
           similarity w E user_query x <= similarity w E user_query first) ->
        similarity w E user_query first <= 7 # 10 ->
        outcome (find_best_match w user_query g) = inr None)
  /\ (forall g' user_embedding question rest best_match highest_similarity v,
        loaded tokenizer model g' ->
        embedding_value w tokenizer model question = inr v ->
        cosine_similarity w user_embedding v <= highest_similarity ->
        outcome (for_question_in w user_embedding (question :: rest)
                   best_match highest_similarity g')
        = outcome (for_question_in w user_embedding rest
                     best_match highest_similarity g')).
Proof.
  intros Hq Hm He. split; [|split; [|split]].
  - intros i first Hi Hmax Hearly Hthr.
    assert (Hin : In first QUESTIONS) by (eapply nth_error_In; eauto).
    destruct (@maximum_above_threshold _ _ _ _ w g user_query QUESTIONS
                tokenizer model E first Hq Hm He Hin Hmax Hthr) as (q & Hr & Hq_in & Heq).
    rewrite Hr. do 2 f_equal.
    destruct (@find_best_match_some _ _ _ _ w g user_query QUESTIONS
                tokenizer model E Hq Hm He q Hr)
      as (_ & _ & j & Hj & Hjearly).
    unfold similarity in *.
    assert (i = j).
    { destruct (Nat.lt_trichotomy i j) as [L|[L|L]]; [|exact L|].
      - specialize (Hjearly i first L Hi). lra.
      - specialize (Hearly j q L Hj). lra. }
    subst j. congruence.
  - intros q Hr.
    destruct (@find_best_match_some _ _ _ _ w g user_query QUESTIONS
                tokenizer model E Hq Hm He q Hr)
      as (_ & Hmax & j & Hj & Hjearly).
    exists j. auto.
  - intros first Hin Hmax Hlow.
    destruct (@find_best_match_returns _ _ _ _ w g user_query QUESTIONS
                tokenizer model E Hq Hm He) as [[q|] Hr]; [|exact Hr].
    exfalso.
    destruct (@find_best_match_some _ _ _ _ w g user_query QUESTIONS
                tokenizer model E Hq Hm He q Hr)
      as (Hthr & _ & j & Hj & _).
    assert (Hq_in : In q QUESTIONS) by (eapply nth_error_In; eauto).
    specialize (Hmax q Hq_in). unfold similarity in *. lra.
  - intros g' ue question rest best hi v Hwarm Hv Hle.
    rewrite (loop_step w Hwarm), Hv. cbn [outcome].
    apply Qgtb_false in Hle. rewrite Hle. reflexivity.
Qed.

Lemma earliest_of_equal_maxima_wins_witness :
  outcome (find_best_match tie_world "AB" fresh) = inr (Some "AB")
  /\ similarity tie_world small_embedding "AB" "AB"
     == similarity tie_world small_embedding "AB" "BA".
Proof.
  split; [|vm_compute; reflexivity].
  apply (proj1 (@earliest_of_equal_maxima_wins _ _ _ _ tie_world fresh "AB"
                  ["AB"; "BA"; "C"] tt tt small_embedding
                  eq_refl eq_refl (fun x _ => eq_refl)) 0%nat "AB").
  - reflexivity.
  - intros x [<-|[<-|[<-|[]]]]; vm_compute; discriminate.
  - intros j y Hj. lia.
  - vm_compute. reflexivity.
Defined.

(** C3 as stated fails when the questions that tie score no more than
    0.7: the three reference questions all score 1/2 against the query,
    the first of them is the earliest with the maximal similarity, and
    the call returns the no-match value, not that question. *)
Lemma tie_below_threshold_has_no_winner :
  outcome (_load_questions tie_world fresh) = inr ["AB"; "BA"; "C"]
  /\ similarity tie_world small_embedding "ZZZ" "AB" == 1 # 2
  /\ similarity tie_world small_embedding "ZZZ" "BA" == 1 # 2
  /\ similarity tie_world small_embedding "ZZZ" "C" == 1 # 2
  /\ outcome (find_best_match tie_world "ZZZ" fresh) = inr None.
Proof. repeat split; vm_compute; reflexivity. Qed.

(** ** Membership of the result *)

Section Member.

Context {exn Tok Mdl Enc : Type}.
Variable w : world exn Tok Mdl Enc.

(** The loop tracks the initial candidate or one of the questions. *)
Lemma loop_member tokenizer model g user_embedding QUESTIONS :
  loaded tokenizer model g ->
  forall best_match highest_similarity b h,
    outcome (for_question_in w user_embedding QUESTIONS best_match
               highest_similarity g) = inr (b, h) ->
    b = best_match \/ exists q, b = Some q /\ In q QUESTIONS.
Proof.
  intros Hwarm.
  induction QUESTIONS as [|question rest IH]; intros best hi b h H.
  - cbn in H. injection H as <- <-. left. reflexivity.
  - rewrite (loop_step w Hwarm) in H.
    destruct (embedding_value w tokenizer model question) as [e|qe];
      [discriminate|].
    cbn [outcome] in H.
    destruct (Qgtb _ hi); destruct (IH _ _ _ _ H) as [->|(q & -> & Hin)];
      auto; right; eexists; split; try reflexivity;
      simpl; auto.
Qed.

End Member.

(** C4, amended.  Whenever [find_best_match] returns, the reference
    question set was loaded and the value returned is either one of its
    members or the no-match value: never a string outside the set, and
    the empty string only if the empty string is itself a reference
    question. *)
Theorem result_is_member_or_none
    {exn Tok Mdl Enc} (w : world exn Tok Mdl Enc) (g : globals Tok Mdl)
    (user_query : string) (r : option string) :
  outcome (find_best_match w user_query g) = inr r ->
  exists QUESTIONS,
    outcome (_load_questions w g) = inr QUESTIONS
    /\ (r = None \/ exists q, r = Some q /\ In q QUESTIONS)
    /\ (r = Some "" -> In "" QUESTIONS).
Proof.
  rewrite find_best_match_run. cbn zeta.
  destruct (outcome (_load_questions w g)) as [e|QUESTIONS];
    [discriminate|].
  destruct (outcome (get_embedding w user_query _)) as [e|ue] eqn:Hu;
    [discriminate|].
  destruct (get_embedding_loads w _ _ Hu) as (t & m & _ & _ & Hwarm).
  cbn [outcome].
  destruct (outcome (for_question_in w ue QUESTIONS None (-1) _))
    as [e|[b h]] eqn:Hl; [discriminate|].
  intros Hr. injection Hr as <-. exists QUESTIONS.
  assert (M : (if Qgtb h (7 # 10) then b else None) = None
              \/ exists q, (if Qgtb h (7 # 10) then b else None) = Some q
                           /\ In q QUESTIONS).
  { cbn [fst snd]. destruct (Qgtb h (7 # 10)); [|left; reflexivity].
    destruct (loop_member w ue QUESTIONS Hwarm _ _ Hl) as [->|H]; auto. }
  cbn [fst snd]. split; [reflexivity|]. split; [exact M|].
  intros H0. destruct M as [M|(q & M & Hin)]; congruence.
Qed.

Lemma result_is_member_or_none_witness :
  exists QUESTIONS,
    outcome (_load_questions campus_world fresh) = inr QUESTIONS
    /\ (Some "WHERE IS THE LIBRARY" = None
        \/ exists q, Some "WHERE IS THE LIBRARY" = Some q /\ In q QUESTIONS)
    /\ (Some "WHERE IS THE LIBRARY" = Some "" -> In "" QUESTIONS).
Proof.
  apply (@result_is_member_or_none _ _ _ _ campus_world fresh
           "WHERE IS THE LIBRARY").
  vm_compute. reflexivity.
Defined.

(** C4 as stated fails when the questions file lists the empty string:
    the empty query then matches it, and the call returns the empty
    string. *)
Lemma empty_string_can_be_returned :
  outcome (_load_questions blank_world fresh) = inr [""]
  /\ outcome (find_best_match blank_world "" fresh) = inr (Some "").
Proof. split; vm_compute; reflexivity. Qed.

(** * Traces of the calls *)

Section CallTraces.

Context {exn Tok Mdl Enc : Type}.
Variable w : world exn Tok Mdl Enc.

Lemma load_questions_trace g :
  trace (_load_questions w g)
  = match _QUESTIONS g with
    | Some _ => []
    | None => [EvOpenQuestions]
    end.
Proof.
  destruct (_QUESTIONS g) as [qs|] eqn:H.
  - rewrite (load_questions_cached w g H). reflexivity.
  - rewrite (load_questions_cold w g H).
    destruct (read_questions w); reflexivity.
Qed.

(** [_load_model] produces initialisation events only. *)
Lemma load_model_trace_init p g :
  (forall msg, p (EvPrint msg) = false) ->
  (forall name, p (EvTokenizerFromPretrained name) = false) ->
  (forall name, p (EvModelFromPretrained name) = false) ->
  count p (trace (_load_model w g)) = 0%nat.
Proof.
  intros H1 H2 H3.
  destruct (handles_dec g) as [(t & m & H)|H].
  - rewrite (load_model_warm w H). reflexivity.
  - rewrite (load_model_cold w g H). unfold count.
    destruct (tokenizer_from_pretrained w MODEL_NAME);
      [|destruct (model_from_pretrained w MODEL_NAME)];
      simpl; rewrite ?H1, ?H2, ?H3; reflexivity.
Qed.

Lemma load_model_calls g : embedding_calls (trace (_load_model w g)) = [].
Proof.
  destruct (handles_dec g) as [(t & m & H)|H].
  - rewrite (load_model_warm w H). reflexivity.
  - rewrite (load_model_cold w g H).
    destruct (tokenizer_from_pretrained w MODEL_NAME);
      [|destruct (model_from_pretrained w MODEL_NAME)]; reflexivity.
Qed.

(** The trace of [get_embedding]: the call itself, the events of
    [_load_model], and then only tokenizing and running the model. *)
Lemma get_embedding_trace text g :
  exists tail,
    trace (get_embedding w text g)
    = EvGetEmbedding text :: trace (_load_model w g) ++ tail
    /\ embedding_calls tail = []
    /\ forall p,
         (forall t, p (EvTokenize t) = false) -> p EvNoGradEnter = false ->
         p EvForward = false -> p EvNoGradExit = false ->
         count p tail = 0%nat.
Proof.
  rewrite get_embedding_run. cbn zeta.
  destruct (outcome (_load_model w g)) as [e|[t m]]; cbn [trace].
  - exists []. rewrite app_nil_r. repeat split.
  - exists (encode_trace w t text). repeat split.
    + unfold encode_trace. destruct (tokenizer_call w t text); reflexivity.
    + intros p H1 H2 H3 H4. unfold encode_trace, count.
      destruct (tokenizer_call w t text); simpl;
        rewrite ?H1, ?H2, ?H3, ?H4; reflexivity.
Qed.

Lemma get_embedding_no_cosine text g :
  count is_cosine (trace (get_embedding w text g)) = 0%nat.
Proof.
  destruct (get_embedding_trace text g) as (tail & -> & _ & Ht).
  change (EvGetEmbedding text :: ?t) with ([EvGetEmbedding text] ++ t).
  rewrite !count_app, Ht, load_model_trace_init by reflexivity.
  reflexivity.
Qed.




End CallTraces.

(** C5.  When the loaded reference question set is empty, a call computes
    no cosine similarity and never returns a question; it returns the
    no-match value as soon as the model can be loaded and the query can
    be embedded. *)
Theorem empty_set_never_matches
    {exn Tok Mdl Enc} (w : world exn Tok Mdl Enc) (g : globals Tok Mdl)
    (user_query : string) :
  outcome (_load_questions w g) = inr [] ->
  count is_cosine (trace (find_best_match w user_query g)) = 0%nat
  /\ (forall r, outcome (find_best_match w user_query g) = inr r -> r = None)
  /\ (forall tokenizer model v,
        outcome (_load_model w g) = inr (tokenizer, model) ->
        embedding_value w tokenizer model user_query = inr v ->
        outcome (find_best_match w user_query g) = inr None).
Proof.
  intros Hq. split; [|split].
  - rewrite find_best_match_run. cbn zeta. rewrite Hq.
    assert (L : count is_cosine (trace (_load_questions w g)) = 0%nat).
    { rewrite load_questions_trace. destruct (_QUESTIONS g); reflexivity. }
    destruct (outcome (get_embedding w user_query _));
      cbn [trace for_question_in ret];
      rewrite ?count_app, L, get_embedding_no_cosine; reflexivity.
  - intros r. rewrite find_best_match_run. cbn zeta. rewrite Hq.
    destruct (outcome (get_embedding w user_query _)); [discriminate|].
    cbn. intros H. injection H as <-. reflexivity.
  - intros tokenizer model v Hm Hv.
    rewrite (@find_best_match_healthy _ _ _ _ w g user_query []
               tokenizer model (fun _ => v) Hq Hm).
    + reflexivity.
    + intros x [->|[]]. exact Hv.
Qed.

Lemma empty_set_never_matches_witness :
  count is_cosine (trace (find_best_match empty_world "HI" fresh)) = 0%nat
  /\ (forall r, outcome (find_best_match empty_world "HI" fresh) = inr r ->
        r = None)
  /\ (forall tokenizer model v,
        outcome (_load_model empty_world fresh) = inr (tokenizer, model) ->
        embedding_value empty_world tokenizer model "HI" = inr v ->
        outcome (find_best_match empty_world "HI" fresh) = inr None).
Proof.
  apply (@empty_set_never_matches _ _ _ _ empty_world fresh "HI").
  reflexivity.
Defined.

(** ** What is initialised stays initialised *)

Section Stability.

Context {exn Tok Mdl Enc : Type}.
Variable w : world exn Tok Mdl Enc.

Lemma get_embedding_final text g :
  final (get_embedding w text g) = final (_load_model w g).
Proof.
  rewrite get_embedding_run. cbn zeta.
  destruct (outcome (_load_model w g)) as [e|[t m]]; reflexivity.
Qed.



End Stability.

(** * Lazy initialisation *)




(** * Failures of the outside *)

(** C7.  A call of [find_best_match] raises [e] exactly when a failure
    [e] of the outside is met on its way: while reading the questions
    file, while loading the tokenizer or the model, while embedding the
    query, or while embedding a reference question.  The exception that
    leaves the call is the one the outside raised; none is caught,
    replaced by a result, or invented. *)
Theorem failures_propagate_unchanged
    {exn Tok Mdl Enc} (w : world exn Tok Mdl Enc) (g : globals Tok Mdl)
    (user_query : string) (e : exn) :
  outcome (find_best_match w user_query g) = inl e
  <-> meets_failure w user_query g e.
Proof.
  assert (Same : outcome (_load_model w (final (_load_questions w g)))
                 = outcome (_load_model w g)).
  { destruct (load_questions_keeps_handles w g).
    apply load_model_same_handles; assumption. }
  split.
  - rewrite find_best_match_run. cbn zeta.
    destruct (outcome (_load_questions w g)) as [e'|QUESTIONS] eqn:Hq.
    { cbn [outcome]. intros H. injection H as ->.
      apply failure_questions. exact Hq. }
    destruct (outcome (get_embedding w user_query _)) as [e'|ue] eqn:Hu.
    { cbn [outcome]. intros H. injection H as ->.
      rewrite get_embedding_run in Hu. cbn zeta in Hu. rewrite Same in Hu.
      destruct (outcome (_load_model w g)) as [e'|[t m]] eqn:Hm;
        cbn [outcome] in Hu.
      - injection Hu as ->. eapply failure_model; eauto.
      - eapply failure_query; eauto. }
    destruct (get_embedding_loads w _ _ Hu) as (t & m & Hm & Hv & Hwarm).
    rewrite Same in Hm. cbn [outcome].
    destruct (outcome (for_question_in w ue QUESTIONS None (-1) _))
      as [e'|bh] eqn:Hl; [|discriminate].
    intros H. injection H as ->.
    destruct (loop_raises w Hwarm ue QUESTIONS _ _ Hl)
      as (before & question & after & -> & Hb & Hx).
    eapply failure_reference; eauto.
  - intros [Hq | QUESTIONS Hq Hm | QUESTIONS t m Hq Hm Hv
            | before question after t m Hq Hm [v Hv] Hb Hx];
      rewrite find_best_match_run; cbn zeta; rewrite Hq;
      [reflexivity | | | ];
      rewrite get_embedding_run; cbn zeta; rewrite Same, Hm;
      cbn [outcome final]; [reflexivity | | ].
    + rewrite Hv. reflexivity.
    + rewrite Hv. cbn [outcome].
      assert (Hwarm : loaded t m
                        (final (_load_model w (final (_load_questions w g))))).
      { apply load_model_loads. rewrite Same. exact Hm. }
      rewrite (loop_fail w Hwarm v before question after Hb Hx).
      reflexivity.
Qed.

Lemma failures_propagate_unchanged_witness :
  outcome (find_best_match no_file_world "WHERE IS THE LIBRARY" fresh)
  = inl "FileNotFoundError".
Proof.
  apply (proj2 (@failures_propagate_unchanged _ _ _ _ no_file_world fresh
                  "WHERE IS THE LIBRARY" "FileNotFoundError")).
  apply failure_questions. reflexivity.
Defined.

(** * The embedding provider *)



(** The rounding of a mean: the average 268/3 of three entries is no
    single-precision value, and the one nearest to it is returned. *)
Example rounded_third : float32_round (268 # 3) == 11709099 # 131072.
Proof. vm_compute. reflexivity. Qed.

(** The pooled feature of ["AB"] in a small world: the mean of the four
    token codes 101, 65, 66 and 102. *)
Example pooled_AB : at2 (small_embedding "AB") 0 0 == 334 # 4.
Proof. vm_compute. reflexivity. Qed.

(** ** Handles within one process *)

Section Process.

Context {exn Tok Mdl Enc : Type}.
Variable w : world exn Tok Mdl Enc.

Lemma fresh_consistent : consistent w fresh.
Proof. split; intros x H; discriminate. Qed.

Lemma load_questions_consistent g :
  consistent w g -> consistent w (final (_load_questions w g)).
Proof.
  intros [Ct Cm]. destruct (load_questions_keeps_handles w g) as [Ht Hm].
  split; intros x H; [apply Ct | apply Cm]; congruence.
Qed.

Lemma load_model_consistent g :
  consistent w g -> consistent w (final (_load_model w g)).
Proof.
  intros C. destruct (handles_dec g) as [(t & m & H)|H].
  - rewrite (load_model_warm w H). exact C.
  - rewrite (load_model_cold w g H).
    destruct (tokenizer_from_pretrained w MODEL_NAME) as [e|t] eqn:Ht;
      [exact C|].
    destruct (model_from_pretrained w MODEL_NAME) as [e|m] eqn:Hm;
      split; cbn; intros x Hx; try congruence.
    apply C. exact Hx.
Qed.

(** With consistent globals [_load_model] returns what it returns in a
    fresh module. *)
Lemma load_model_outcome g :
  consistent w g ->
  outcome (_load_model w g) = outcome (_load_model w fresh).
Proof.
  intros [Ct Cm].
  rewrite (load_model_cold w fresh) by (left; reflexivity).
  destruct (handles_dec g) as [(t & m & H)|H].
  - rewrite (load_model_warm w H).
    destruct H as [Ht Hm]. rewrite (Ct t Ht), (Cm m Hm). reflexivity.
  - rewrite (load_model_cold w g H).
    destruct (tokenizer_from_pretrained w MODEL_NAME); [reflexivity|].
    destruct (model_from_pretrained w MODEL_NAME); reflexivity.
Qed.

Lemma get_embedding_outcome text g :
  outcome (get_embedding w text g)
  = match outcome (_load_model w g) with
    | inl e => inl e
    | inr (tokenizer, model) => embedding_value w tokenizer model text
    end.
Proof.
  rewrite get_embedding_run. cbn zeta.
  destruct (outcome (_load_model w g)) as [e|[t m]]; reflexivity.
Qed.

Lemma get_embedding_consistent text g :
  consistent w g -> consistent w (final (get_embedding w text g)).
Proof.
  intros C. rewrite get_embedding_final. apply load_model_consistent, C.
Qed.

Lemma find_best_match_consistent user_query g :
  consistent w g -> consistent w (final (find_best_match w user_query g)).
Proof.
  intros C. rewrite find_best_match_run. cbn zeta.
  pose proof (load_questions_consistent C) as Cl.
  pose proof (get_embedding_consistent user_query Cl) as Cu.
  destruct (outcome (_load_questions w g)); [exact Cl|].
  destruct (outcome (get_embedding w user_query _)) as [e|ue] eqn:Hu;
    [exact Cu|].
  destruct (get_embedding_loads w _ _ Hu) as (t & m & _ & _ & Hwarm).
  cbn [final]. rewrite (loop_final w Hwarm). exact Cu.
Qed.

Lemma reachable_consistent g : reachable w g -> consistent w g.
Proof.
  induction 1 as [|g text _ IH|g user_query _ IH].
  - apply fresh_consistent.
  - apply get_embedding_consistent, IH.
  - apply find_best_match_consistent, IH.
Qed.

Lemma load_model_cold_counts g :
  _tokenizer g = None \/ _model g = None ->
  count is_tokenizer_load (trace (_load_model w g)) = 1%nat
  /\ forall tokenizer,
       tokenizer_from_pretrained w MODEL_NAME = inr tokenizer ->
       count is_model_load (trace (_load_model w g)) = 1%nat.
Proof.
  intros H. rewrite (load_model_cold w g H).
  destruct (tokenizer_from_pretrained w MODEL_NAME);
    [|destruct (model_from_pretrained w MODEL_NAME)];
    (split; [reflexivity | intros t' Ht'; try discriminate; reflexivity]).
Qed.

End Process.

(** C9.  Within one process, that is, in any two globals reached from a
    fresh module by calls of [get_embedding] and [find_best_match], two
    calls [get_embedding s] have the same outcome: the same vector, or
    the same exception. *)
Theorem get_embedding_deterministic
    {exn Tok Mdl Enc} (w : world exn Tok Mdl Enc)
    (g1 g2 : globals Tok Mdl) (s : string) :
  reachable w g1 -> reachable w g2 ->
  outcome (get_embedding w s g1) = outcome (get_embedding w s g2).
Proof.
  intros R1 R2. rewrite !get_embedding_outcome.
  rewrite (load_model_outcome (reachable_consistent R1)).
  rewrite (load_model_outcome (reachable_consistent R2)).
  reflexivity.
Qed.

Lemma get_embedding_deterministic_witness :
  outcome (get_embedding campus_world "WHERE IS THE LIBRARY" fresh)
  = outcome (get_embedding campus_world "WHERE IS THE LIBRARY"
               (final (find_best_match campus_world "HELLO" fresh))).
Proof.
  apply (@get_embedding_deterministic _ _ _ _ campus_world).
  - apply reach_fresh.
  - apply reach_match, reach_fresh.
Defined.

(** The order of the [get_embedding] invocations of a call, and the
    lazy loads it makes. *)
Lemma query_heads_the_embeddings
    {exn Tok Mdl Enc} (w : world exn Tok Mdl Enc) (g : globals Tok Mdl)
    (user_query : string) (QUESTIONS : list string) :
  outcome (_load_questions w g) = inr QUESTIONS ->
  let r := find_best_match w user_query g in
  (exists rest,
     trace r
     = trace (_load_questions w g) ++ EvGetEmbedding user_query :: rest)
  /\ (exists k,
        embedding_calls (trace r) = user_query :: firstn k QUESTIONS
        /\ forall v, outcome r = inr v -> k = List.length QUESTIONS)
  /\ (_QUESTIONS g = None -> count is_open_questions (trace r) = 1%nat)
  /\ (_tokenizer g = None \/ _model g = None ->
      count is_tokenizer_load (trace r) = 1%nat
      /\ forall tokenizer,
           tokenizer_from_pretrained w MODEL_NAME = inr tokenizer ->
           count is_model_load (trace r) = 1%nat).
Proof.
  intros Hq. cbn zeta. rewrite find_best_match_run. cbn zeta. rewrite Hq.
  set (l := _load_questions w g).
  destruct (get_embedding_trace w user_query (final l))
    as (tail & Hu & Hcalls & Hquiet).
  assert (Lc : embedding_calls (trace l) = []).
  { unfold l. rewrite load_questions_trace. destruct (_QUESTIONS g);
      reflexivity. }
  assert (Uc : embedding_calls (trace (get_embedding w user_query (final l)))
               = [user_query]).
  { rewrite Hu. cbn [embedding_calls].
    rewrite embedding_calls_app, load_model_calls, Hcalls. reflexivity. }
  assert (Cold : _tokenizer g = None \/ _model g = None ->
                 _tokenizer (final l) = None \/ _model (final l) = None).
  { destruct (load_questions_keeps_handles w g) as [Ht Hm]. fold l in Ht, Hm.
    rewrite Ht, Hm. auto. }
  assert (Ut : forall p,
             (forall e, per_call e = true -> p e = false) ->
             count p (trace (get_embedding w user_query (final l)))
             = count p (trace (_load_model w (final l)))).
  { intros p Hp. rewrite Hu.
    change (EvGetEmbedding user_query :: ?t)
      with ([EvGetEmbedding user_query] ++ t).
    rewrite !count_app, Hquiet by (intros; apply Hp; reflexivity).
    unfold count at 1. cbn [filter]. rewrite Hp by reflexivity.
    cbn. apply Nat.add_0_r. }
  assert (T : forall e, per_call e = true -> is_tokenizer_load e = false)
    by (intros []; simpl; congruence).
  assert (D : forall e, per_call e = true -> is_model_load e = false)
    by (intros []; simpl; congruence).
  assert (O : forall e, per_call e = true -> is_open_questions e = false)
    by (intros []; simpl; congruence).
  assert (Lo : _QUESTIONS g = None ->
               count is_open_questions (trace l) = 1%nat).
  { intros H. unfold l. rewrite load_questions_trace, H. reflexivity. }
  assert (Lt : forall p, p EvOpenQuestions = false ->
               count p (trace l) = 0%nat).
  { intros p Hp. unfold l. rewrite load_questions_trace.
    destruct (_QUESTIONS g); [reflexivity|].
    unfold count. cbn. rewrite Hp. reflexivity. }
  assert (Uo : count is_open_questions
                 (trace (get_embedding w user_query (final l))) = 0%nat).
  { rewrite (Ut _ O). apply load_model_trace_init; reflexivity. }
  destruct (outcome (get_embedding w user_query (final l))) as [e|ue] eqn:Ho;
    cbn [outcome trace].
  - split; [rewrite Hu; eauto|]. split.
    { exists 0%nat. rewrite embedding_calls_app, Lc, Uc.
      split; [reflexivity | discriminate]. }
    split.
    { intros H. rewrite count_app, (Lo H), Uo. reflexivity. }
    intros H. specialize (Cold H).
    destruct (load_model_cold_counts w (final l) Cold) as [C1 C2].
    rewrite !count_app, (Ut _ T), (Ut _ D), C1.
    rewrite !Lt by reflexivity.
    split; [reflexivity|]. intros t Ht. rewrite (C2 t Ht). reflexivity.
  - destruct (get_embedding_loads w _ _ Ho) as (t & m & _ & _ & Hwarm).
    set (u := get_embedding w user_query (final l)) in *.
    split; [rewrite Hu; cbn [app]; rewrite <- app_assoc; eauto|].
    destruct (loop_calls w Hwarm ue QUESTIONS None (-1)) as (k & Hk & Hlen).
    cbn zeta in Hk, Hlen.
    split.
    { exists k. rewrite !embedding_calls_app, Lc, Uc, Hk.
      split; [reflexivity|].
      intros v Hv.
      destruct (outcome (for_question_in w ue QUESTIONS None (-1) (final u)))
        as [e|bh] eqn:Hl; [discriminate|].
      eapply Hlen. reflexivity. }
    split.
    { intros H. rewrite !count_app, (Lo H), Uo.
      rewrite (loop_quiet w Hwarm) by reflexivity. reflexivity. }
    intros H. specialize (Cold H).
    destruct (load_model_cold_counts w (final l) Cold) as [C1 C2].
    rewrite !count_app, (Ut _ T), (Ut _ D), C1.
    rewrite !Lt by reflexivity.
    rewrite !(loop_quiet w Hwarm) by reflexivity.
    split; [reflexivity|]. intros t' Ht. rewrite (C2 t' Ht). reflexivity.
Qed.

(** C10.  When the reference question set can be loaded, every call of
    [find_best_match], whether the set is empty or not, runs
    [get_embedding] on the query right after [_load_questions] and before
    any reference question.  The texts embedded during the call are the
    query followed by the reference questions in load order (all of them
    when the call returns); a call in globals without questions reads the
    questions file, and a call in globals lacking a handle loads the
    tokenizer, and the model too once the tokenizer is there.  When the
    model can be loaded and the query tokenized and run through the
    model, the query is tokenized and run inside the no-gradient context
    before the loop starts, the loop compares every reference question
    with the mean of that output, and with an empty set the call ends
    there with the no-match value.  When the embedding of the query
    raises, the call raises the same and embeds and compares nothing
    else. *)
Theorem query_embedded_first
    {exn Tok Mdl Enc} (w : world exn Tok Mdl Enc) (g : globals Tok Mdl)
    (user_query : string) (QUESTIONS : list string) :
  outcome (_load_questions w g) = inr QUESTIONS ->
  let l := _load_questions w g in
  let u := get_embedding w user_query (final l) in
  let r := find_best_match w user_query g in
  (exists rest,
     trace r = trace l ++ EvGetEmbedding user_query :: rest)
  /\ (exists k,
        embedding_calls (trace r) = user_query :: firstn k QUESTIONS
        /\ forall v, outcome r = inr v -> k = List.length QUESTIONS)
  /\ (_QUESTIONS g = None -> count is_open_questions (trace r) = 1%nat)
  /\ (_tokenizer g = None \/ _model g = None ->
      count is_tokenizer_load (trace r) = 1%nat
      /\ forall tokenizer,
           tokenizer_from_pretrained w MODEL_NAME = inr tokenizer ->
           count is_model_load (trace r) = 1%nat)
  /\ (forall tokenizer model tokens output,
        outcome (_load_model w g) = inr (tokenizer, model) ->
        tokenizer_call w tokenizer user_query = inr tokens ->
        model_call w model tokens = inr output ->
        let loop :=
          for_question_in w (mean_dim1 w output) QUESTIONS None (-1)
            (final u) in
        outcome u = inr (mean_dim1 w output)
        /\ trace r
           = trace l
             ++ (EvGetEmbedding user_query :: trace (_load_model w (final l))
                 ++ [EvTokenize user_query; EvNoGradEnter; EvForward;
                     EvNoGradExit])
             ++ trace loop
        /\ outcome r
           = match outcome loop with
             | inl e => inl e
             | inr bh => inr (if Qgtb (snd bh) (7 # 10) then fst bh else None)
             end
        /\ (QUESTIONS = [] -> outcome r = inr None /\ trace loop = []))
  /\ (forall e,
        outcome u = inl e ->
        outcome r = inl e
        /\ embedding_calls (trace r) = [user_query]
        /\ count is_cosine (trace r) = 0%nat).
Proof.
  intros Hq. cbn zeta.
  destruct (query_heads_the_embeddings w g user_query Hq)
    as (First & Calls & Reads & Loads).
  cbn zeta in First, Calls, Reads, Loads.
  do 4 (split; [assumption|]).
  assert (Same : outcome (_load_model w (final (_load_questions w g)))
                 = outcome (_load_model w g)).
  { destruct (load_questions_keeps_handles w g).
    apply load_model_same_handles; assumption. }
  split.
  - intros tokenizer model tokens output Hm Ht Ho.
    assert (U : get_embedding w user_query (final (_load_questions w g))
                = {| outcome := inr (mean_dim1 w output);
                     final := final (_load_model w
                                       (final (_load_questions w g)));
                     trace := EvGetEmbedding user_query
                              :: trace (_load_model w
                                          (final (_load_questions w g)))
                              ++ [EvTokenize user_query; EvNoGradEnter;
                                  EvForward; EvNoGradExit] |}).
    { rewrite get_embedding_run. cbn zeta. rewrite Same, Hm.
      unfold embedding_value, encode_trace. rewrite Ht, Ho. reflexivity. }
    rewrite find_best_match_run. cbn zeta. rewrite Hq, U.
    cbn [outcome final trace].
    split; [reflexivity|]. split; [reflexivity|]. split; [reflexivity|].
    intros ->. split; reflexivity.
  - intros e He. rewrite find_best_match_run. cbn zeta. rewrite Hq, He.
    cbn [outcome trace]. split; [reflexivity|].
    assert (Lt : trace (_load_questions w g) = []
                 \/ trace (_load_questions w g) = [EvOpenQuestions]).
    { rewrite load_questions_trace. destruct (_QUESTIONS g); auto. }
    destruct (get_embedding_trace w user_query (final (_load_questions w g)))
      as (tail & Hu & Hcalls & _).
    split.
    + rewrite embedding_calls_app, Hu. cbn [embedding_calls].
      rewrite embedding_calls_app, load_model_calls, Hcalls.
      destruct Lt as [-> | ->]; reflexivity.
    + rewrite count_app, get_embedding_no_cosine.
      destruct Lt as [-> | ->]; reflexivity.
Qed.

(** A call with an empty reference set, in a fresh module: the file is
    read, the tokenizer and the model are loaded, the query is tokenized
    and run through the model, and the no-match value is returned. *)
Lemma query_embedded_first_witness :
  outcome (find_best_match empty_world "HI" fresh) = inr None
  /\ trace (find_best_match empty_world "HI" fresh)
     = [EvOpenQuestions; EvGetEmbedding "HI";
        EvPrint "Loading semantic model...";
        EvTokenizerFromPretrained MODEL_NAME;
        EvModelFromPretrained MODEL_NAME;
        EvPrint "Semantic model loaded successfully";
        EvTokenize "HI"; EvNoGradEnter; EvForward; EvNoGradExit]
  /\ outcome (get_embedding empty_world "HI"
                (final (_load_questions empty_world fresh)))
     = inr (mean_dim1 empty_world (hidden_of (codes "HI"))).
Proof.
  destruct (@query_embedded_first _ _ _ _ empty_world fresh "HI" []
              eq_refl) as (_ & _ & _ & _ & Computed & _).
  destruct (Computed tt tt (codes "HI") (hidden_of (codes "HI"))
              eq_refl eq_refl eq_refl)
    as (Value & Trace & _ & Empty).
  destruct (Empty eq_refl) as (Result & _).
  split; [exact Result|]. split; [|exact Value].
  rewrite Trace. reflexivity.
Defined.

(** * Further properties of the matcher *)

Section MatcherCost.

Context {exn Tok Mdl Enc : Type}.
Variable w : world exn Tok Mdl Enc.

Lemma encode_trace_forward tokenizer model text v :
  embedding_value w tokenizer model text = inr v ->
  count is_forward (encode_trace w tokenizer text) = 1%nat.
Proof.
  unfold embedding_value, encode_trace.
  destruct (tokenizer_call w tokenizer text); [discriminate|reflexivity].
Qed.

(** A completed loop runs the model once per reference question. *)
Lemma loop_forwards tokenizer model g user_embedding QUESTIONS :
  loaded tokenizer model g ->
  forall best_match highest_similarity v,
    outcome (for_question_in w user_embedding QUESTIONS best_match
               highest_similarity g) = inr v ->
    count is_forward
      (trace (for_question_in w user_embedding QUESTIONS best_match
                highest_similarity g)) = List.length QUESTIONS.
Proof.
  intros Hwarm.
  induction QUESTIONS as [|question rest IH]; intros best hi v H;
    [reflexivity|].
  rewrite (loop_step w Hwarm) in H |- *.
  destruct (embedding_value w tokenizer model question) as [e|qe] eqn:Hq;
    [discriminate|].
  cbn [outcome trace] in H |- *.
  change (EvGetEmbedding question :: ?t) with ([EvGetEmbedding question] ++ t).
  change (EvCosineSimilarity :: ?t) with ([EvCosineSimilarity] ++ t).
  rewrite !count_app, (encode_trace_forward _ _ _ Hq).
  cbn [List.length].
  destruct (Qgtb _ hi); rewrite (IH _ _ _ H); reflexivity.
Qed.

(** The outcome of the loop depends on the globals through the handles
    only. *)
Lemma loop_outcome_same tokenizer model g1 g2 user_embedding QUESTIONS :
  loaded tokenizer model g1 -> loaded tokenizer model g2 ->
  forall best_match highest_similarity,
    outcome (for_question_in w user_embedding QUESTIONS best_match
               highest_similarity g1)
    = outcome (for_question_in w user_embedding QUESTIONS best_match
                 highest_similarity g2).
Proof.
  intros H1 H2.
  induction QUESTIONS as [|question rest IH]; intros best hi; [reflexivity|].
  rewrite (loop_step w H1), (loop_step w H2).
  destruct (embedding_value w tokenizer model question) as [e|qe];
    [reflexivity|].
  cbn [outcome]. destruct (Qgtb _ hi); apply IH.
Qed.

Lemma fresh_questions_consistent : questions_consistent w fresh.
Proof. intros qs H. discriminate. Qed.

Lemma load_questions_questions_consistent g :
  questions_consistent w g ->
  questions_consistent w (final (_load_questions w g)).
Proof.
  intros C. destruct (_QUESTIONS g) as [qs|] eqn:H.
  - rewrite (load_questions_cached w g H). exact C.
  - rewrite (load_questions_cold w g H).
    destruct (read_questions w) as [e|qs] eqn:R; [exact C|].
    intros qs' H'. cbn in H'. congruence.
Qed.

Lemma get_embedding_questions_consistent text g :
  questions_consistent w g ->
  questions_consistent w (final (get_embedding w text g)).
Proof.
  intros C qs. rewrite get_embedding_final, load_model_keeps_questions.
  apply C.
Qed.

Lemma find_best_match_questions_consistent user_query g :
  questions_consistent w g ->
  questions_consistent w (final (find_best_match w user_query g)).
Proof.
  intros C. rewrite find_best_match_run. cbn zeta.
  pose proof (load_questions_questions_consistent C) as Cl.
  pose proof (get_embedding_questions_consistent user_query Cl) as Cu.
  destruct (outcome (_load_questions w g)); [exact Cl|].
  destruct (outcome (get_embedding w user_query _)) as [e|ue] eqn:Hu;
    [exact Cu|].
  destruct (get_embedding_loads w _ _ Hu) as (t & m & _ & _ & Hwarm).
  cbn [final]. rewrite (loop_final w Hwarm). exact Cu.
Qed.

Lemma reachable_questions_consistent g :
  reachable w g -> questions_consistent w g.
Proof.
  induction 1 as [|g text _ IH|g user_query _ IH].
  - apply fresh_questions_consistent.
  - apply get_embedding_questions_consistent, IH.
  - apply find_best_match_questions_consistent, IH.
Qed.

(** With consistent globals [_load_questions] returns what the file
    gives. *)
Lemma load_questions_outcome g :
  questions_consistent w g ->
  outcome (_load_questions w g) = read_questions w.
Proof.
  intros C. destruct (_QUESTIONS g) as [qs|] eqn:H.
  - rewrite (load_questions_cached w g H). cbn. symmetry. apply C, H.
  - rewrite (load_questions_cold w g H).
    destruct (read_questions w); reflexivity.
Qed.

(** The outcome of a call is fixed by the outcomes of the two loaders. *)
Lemma find_best_match_outcome_same user_query g1 g2 :
  outcome (_load_questions w g1) = outcome (_load_questions w g2) ->
  outcome (_load_model w g1) = outcome (_load_model w g2) ->
  outcome (find_best_match w user_query g1)
  = outcome (find_best_match w user_query g2).
Proof.
  intros Hq Hm.
  assert (Same : forall g,
            outcome (_load_model w (final (_load_questions w g)))
            = outcome (_load_model w g)).
  { intros g. destruct (load_questions_keeps_handles w g).
    apply load_model_same_handles; assumption. }
  rewrite !find_best_match_run. cbn zeta. rewrite <- Hq.
  destruct (outcome (_load_questions w g1)) as [e|QUESTIONS]; [reflexivity|].
  assert (Hu : outcome (get_embedding w user_query
                          (final (_load_questions w g1)))
               = outcome (get_embedding w user_query
                            (final (_load_questions w g2)))).
  { rewrite !get_embedding_outcome, !Same, Hm. reflexivity. }
  rewrite <- Hu.
  destruct (outcome (get_embedding w user_query
                       (final (_load_questions w g1)))) as [e|ue] eqn:H1;
    [reflexivity|].
  symmetry in Hu.
  destruct (get_embedding_loads w _ _ H1) as (t & m & L1 & _ & W1).
  destruct (get_embedding_loads w _ _ Hu) as (t' & m' & L2 & _ & W2).
  assert (t' = t /\ m' = m) as [-> ->].
  { rewrite Same in L1, L2. rewrite Hm in L1. rewrite L1 in L2.
    injection L2 as -> ->. auto. }
  cbn [outcome].
  rewrite (loop_outcome_same ue QUESTIONS W1 W2). reflexivity.
Qed.

End MatcherCost.

(** X1.  The reference embeddings are not cached: a call that returns
    embeds the query and then every reference question, in load order,
    runs the model once for each of these texts and computes one cosine
    similarity per reference question. *)
Theorem every_call_embeds_every_question
    {exn Tok Mdl Enc} (w : world exn Tok Mdl Enc) (g : globals Tok Mdl)
    (user_query : string) (QUESTIONS : list string) (r : option string) :
  outcome (_load_questions w g) = inr QUESTIONS ->
  outcome (find_best_match w user_query g) = inr r ->
  embedding_calls (trace (find_best_match w user_query g))
  = user_query :: QUESTIONS
  /\ count is_forward (trace (find_best_match w user_query g))
     = S (List.length QUESTIONS)
  /\ count is_cosine (trace (find_best_match w user_query g))
     = List.length QUESTIONS.
Proof.
  intros Hq. rewrite find_best_match_run. cbn zeta. rewrite Hq.
  set (l := _load_questions w g).
  destruct (outcome (get_embedding w user_query (final l))) as [e|ue] eqn:Hu;
    [discriminate|].
  destruct (get_embedding_loads w _ _ Hu) as (t & m & Hm & Hv & Hwarm).
  destruct (outcome (for_question_in w ue QUESTIONS None (-1) _))
    as [e|bh] eqn:Hl; [discriminate|].
  intros _. cbn [trace].
  assert (Lt : forall p, p EvOpenQuestions = false ->
               count p (trace l) = 0%nat).
  { intros p Hp. unfold l. rewrite load_questions_trace.
    destruct (_QUESTIONS g); [reflexivity|].
    unfold count. cbn. rewrite Hp. reflexivity. }
  assert (Lc : embedding_calls (trace l) = []).
  { unfold l. rewrite load_questions_trace. destruct (_QUESTIONS g);
      reflexivity. }
  assert (Ut : trace (get_embedding w user_query (final l))
               = EvGetEmbedding user_query
                 :: trace (_load_model w (final l))
                 ++ encode_trace w t user_query).
  { rewrite get_embedding_run. cbn zeta. rewrite Hm. reflexivity. }
  destruct (loop_calls w Hwarm ue QUESTIONS None (-1)) as (k & Hk & Hlen).
  cbn zeta in Hk, Hlen. rewrite (Hlen _ Hl), firstn_all in Hk.
  destruct (loop_cosines w Hwarm ue QUESTIONS None (-1)) as (_ & Hcos).
  cbn zeta in Hcos.
  rewrite !embedding_calls_app, !count_app, Lc, !Lt by reflexivity.
  rewrite Hk, (Hcos _ Hl), (loop_forwards w ue QUESTIONS Hwarm _ _ Hl).
  rewrite Ut.
  change (EvGetEmbedding user_query :: ?t)
    with ([EvGetEmbedding user_query] ++ t).
  rewrite !embedding_calls_app, !count_app, load_model_calls.
  rewrite !load_model_trace_init by reflexivity.
  rewrite (@encode_trace_forward _ _ _ _ w t m user_query ue Hv),
    encode_trace_calls.
  rewrite (encode_trace_quiet w t is_cosine user_query) by reflexivity.
  repeat split.
Qed.

Lemma every_call_embeds_every_question_witness :
  embedding_calls (trace (find_best_match campus_world "HELLO" fresh))
  = "HELLO" :: campus_questions
  /\ count is_forward (trace (find_best_match campus_world "HELLO" fresh))
     = S (List.length campus_questions)
  /\ count is_cosine (trace (find_best_match campus_world "HELLO" fresh))
     = List.length campus_questions.
Proof.
  apply (@every_call_embeds_every_question _ _ _ _ campus_world fresh
           "HELLO" campus_questions None); vm_compute; reflexivity.
Defined.

Section FailedLoads.

Context {exn Tok Mdl Enc : Type}.
Variable w : world exn Tok Mdl Enc.

(** A call while the model cannot be loaded. *)
Lemma model_down_call QUESTIONS tokenizer e user_query g :
  tokenizer_from_pretrained w MODEL_NAME = inr tokenizer ->
  model_from_pretrained w MODEL_NAME = inl e ->
  outcome (_load_questions w g) = inr QUESTIONS ->
  _model g = None ->
  find_best_match w user_query g
  = {| outcome := inl e;
       final := {| _tokenizer := Some tokenizer; _model := None;
                   _QUESTIONS := Some QUESTIONS |};
       trace := trace (_load_questions w g)
                ++ [EvGetEmbedding user_query;
                    EvPrint "Loading semantic model...";
                    EvTokenizerFromPretrained MODEL_NAME;
                    EvModelFromPretrained MODEL_NAME] |}.
Proof.
  intros Ht Hm Hq Hg. rewrite find_best_match_run. cbn zeta. rewrite Hq.
  destruct (load_questions_keeps_handles w g) as [_ Km].
  pose proof (load_questions_stores w g Hq) as Ks.
  rewrite get_embedding_run. cbn zeta.
  rewrite load_model_cold by (right; congruence).
  rewrite Ht, Hm. cbn [outcome final trace].
  rewrite Km, Hg, Ks. reflexivity.
Qed.

Lemma model_down_serve QUESTIONS tokenizer e queries :
  tokenizer_from_pretrained w MODEL_NAME = inr tokenizer ->
  model_from_pretrained w MODEL_NAME = inl e ->
  forall g,
    _QUESTIONS g = Some QUESTIONS -> _model g = None ->
    let s := serve w queries g in
    (queries <> [] ->
     snd s = {| _tokenizer := Some tokenizer; _model := None;
                _QUESTIONS := Some QUESTIONS |})
    /\ count is_tokenizer_load (fst s) = List.length queries
    /\ count is_model_load (fst s) = List.length queries
    /\ count is_open_questions (fst s) = 0%nat.
Proof.
  intros Ht Hm. induction queries as [|q later IH]; intros g Hq Hg.
  - cbn. repeat split. congruence.
  - cbn zeta. cbn [serve fst snd].
    assert (Hl : outcome (_load_questions w g) = inr QUESTIONS)
      by (rewrite (load_questions_cached w g Hq); reflexivity).
    rewrite (model_down_call q g Ht Hm Hl Hg). cbn [final trace].
    rewrite (load_questions_cached w g Hq). cbn [trace app].
    destruct (IH {| _tokenizer := Some tokenizer; _model := None;
                    _QUESTIONS := Some QUESTIONS |} eq_refl eq_refl)
      as (F & T & D & O).
    cbn zeta in F, T, D, O.
    change (EvGetEmbedding q :: ?a :: ?b :: ?c :: ?t)
      with ([EvGetEmbedding q; a; b; c] ++ t).
    rewrite !count_app, T, D, O. repeat split.
    intros _. destruct later as [|q' later']; [reflexivity|].
    apply F. discriminate.
Qed.

(** A call while the questions file cannot be read. *)
Lemma questions_down_call e user_query g :
  read_questions w = inl e ->
  _QUESTIONS g = None ->
  find_best_match w user_query g
  = {| outcome := inl e; final := g; trace := [EvOpenQuestions] |}.
Proof.
  intros Hr Hg. rewrite find_best_match_run. cbn zeta.
  rewrite (load_questions_cold w g Hg), Hr. reflexivity.
Qed.

End FailedLoads.

(** X2.  A model that cannot be loaded is loaded again by every call:
    when the questions file and the tokenizer are available and loading
    the model raises, each call of a sequence, the first one included,
    raises, loads the tokenizer anew and tries the model anew, while the
    questions file is read once; the globals keep the tokenizer and the
    questions and no model. *)
Theorem unloadable_model_is_retried
    {exn Tok Mdl Enc} (w : world exn Tok Mdl Enc)
    (QUESTIONS : list string) (tokenizer : Tok) (e : exn)
    (user_query : string) (later : list string) :
  read_questions w = inr QUESTIONS ->
  tokenizer_from_pretrained w MODEL_NAME = inr tokenizer ->
  model_from_pretrained w MODEL_NAME = inl e ->
  let whole := serve w (user_query :: later) fresh in
  outcome (find_best_match w user_query fresh) = inl e
  /\ outcome (find_best_match w user_query (snd whole)) = inl e
  /\ snd whole = {| _tokenizer := Some tokenizer; _model := None;
                    _QUESTIONS := Some QUESTIONS |}
  /\ count is_tokenizer_load (fst whole) = S (List.length later)
  /\ count is_model_load (fst whole) = S (List.length later)
  /\ count is_open_questions (fst whole) = 1%nat.
Proof.
  intros Hq Ht Hm. cbn zeta.
  assert (Hl : outcome (_load_questions w fresh) = inr QUESTIONS).
  { rewrite (load_questions_cold w fresh eq_refl), Hq. reflexivity. }
  split.
  { rewrite (@model_down_call _ _ _ _ w QUESTIONS tokenizer e user_query
               fresh Ht Hm Hl eq_refl). reflexivity. }
  cbn [serve fst snd].
  rewrite (@model_down_call _ _ _ _ w QUESTIONS tokenizer e user_query fresh
             Ht Hm Hl eq_refl).
  cbn [final trace].
  rewrite (load_questions_cold w fresh eq_refl), Hq. cbn [trace app].
  set (g1 := {| _tokenizer := Some tokenizer; _model := None;
                _QUESTIONS := Some QUESTIONS |}).
  destruct (@model_down_serve _ _ _ _ w QUESTIONS tokenizer e later Ht Hm g1
              eq_refl eq_refl)
    as (F & T & D & O).
  cbn zeta in F, T, D, O.
  assert (S1 : snd (serve w later g1) = g1).
  { destruct later; [reflexivity | apply F; discriminate]. }
  rewrite S1.
  assert (Hl1 : outcome (_load_questions w g1) = inr QUESTIONS)
    by reflexivity.
  rewrite (@model_down_call _ _ _ _ w QUESTIONS tokenizer e user_query g1
             Ht Hm Hl1 eq_refl).
  change (EvOpenQuestions :: ?a :: ?b :: ?c :: ?d :: ?t)
    with ([EvOpenQuestions; a; b; c; d] ++ t).
  rewrite !count_app, T, D, O. repeat split.
Qed.

Lemma unloadable_model_is_retried_witness :
  let whole := serve no_model_world ["HELLO"; "HELLO AGAIN"] fresh in
  outcome (find_best_match no_model_world "HELLO" fresh)
  = inl "OSError: model"
  /\ outcome (find_best_match no_model_world "HELLO" (snd whole))
     = inl "OSError: model"
  /\ snd whole = {| _tokenizer := Some tt; _model := None;
                    _QUESTIONS := Some campus_questions |}
  /\ count is_tokenizer_load (fst whole) = 2%nat
  /\ count is_model_load (fst whole) = 2%nat
  /\ count is_open_questions (fst whole) = 1%nat.
Proof.
  apply (@unloadable_model_is_retried _ _ _ _ no_model_world
           campus_questions tt "OSError: model" "HELLO" ["HELLO AGAIN"]);
    reflexivity.
Defined.

(** X3.  Without a readable questions file nothing else is touched: every
    call of a sequence raises the error of the read, reads the file anew,
    never enters [get_embedding], never loads the tokenizer or the model,
    and leaves the globals fresh. *)
Theorem unreadable_questions_stop_every_call
    {exn Tok Mdl Enc} (w : world exn Tok Mdl Enc) (e : exn)
    (queries : list string) (user_query : string) :
  read_questions w = inl e ->
  let whole := serve w queries fresh in
  snd whole = fresh
  /\ outcome (find_best_match w user_query (snd whole)) = inl e
  /\ count is_open_questions (fst whole) = List.length queries
  /\ count is_tokenizer_load (fst whole) = 0%nat
  /\ count is_model_load (fst whole) = 0%nat
  /\ embedding_calls (fst whole) = [].
Proof.
  intros Hr. cbn zeta.
  assert (S : snd (serve w queries fresh) = fresh
              /\ count is_open_questions (fst (serve w queries fresh))
                 = List.length queries
              /\ count is_tokenizer_load (fst (serve w queries fresh)) = 0%nat
              /\ count is_model_load (fst (serve w queries fresh)) = 0%nat
              /\ embedding_calls (fst (serve w queries fresh)) = []).
  { induction queries as [|q later IH]; [repeat split|].
    cbn [serve fst snd].
    rewrite (questions_down_call w q fresh Hr eq_refl). cbn [final trace].
    destruct IH as (F & O & T & D & C).
    rewrite !count_app, embedding_calls_app, F, O, T, D, C. repeat split. }
  destruct S as (F & O & T & D & C). rewrite F.
  rewrite (questions_down_call w user_query fresh Hr eq_refl).
  repeat split; assumption.
Qed.

Lemma unreadable_questions_stop_every_call_witness :
  let whole := serve no_file_world ["A"; "B"; "C"] fresh in
  snd whole = fresh
  /\ outcome (find_best_match no_file_world "D" (snd whole))
     = inl "FileNotFoundError"
  /\ count is_open_questions (fst whole) = 3%nat
  /\ count is_tokenizer_load (fst whole) = 0%nat
  /\ count is_model_load (fst whole) = 0%nat
  /\ embedding_calls (fst whole) = [].
Proof.
  apply (@unreadable_questions_stop_every_call _ _ _ _ no_file_world
           "FileNotFoundError" ["A"; "B"; "C"] "D").
  reflexivity.
Defined.

(** X4.  The lazy caches are transparent: in globals reached within one
    process by whatever calls, [find_best_match] has the outcome it has
    in a fresh module: the same match, the same no-match, or the same
    exception. *)
Theorem answer_does_not_depend_on_history
    {exn Tok Mdl Enc} (w : world exn Tok Mdl Enc) (g : globals Tok Mdl)
    (user_query : string) :
  reachable w g ->
  outcome (find_best_match w user_query g)
  = outcome (find_best_match w user_query fresh).
Proof.
  intros R. apply find_best_match_outcome_same.
  - rewrite (load_questions_outcome (reachable_questions_consistent R)).
    rewrite (load_questions_outcome (fresh_questions_consistent w)).
    reflexivity.
  - apply load_model_outcome, reachable_consistent, R.
Qed.

Lemma answer_does_not_depend_on_history_witness :
  outcome (find_best_match campus_world "WHERE IS THE LIBRARY"
             (final (find_best_match campus_world "HELLO"
                       (final (get_embedding campus_world "X" fresh)))))
  = outcome (find_best_match campus_world "WHERE IS THE LIBRARY" fresh).
Proof.
  apply (@answer_does_not_depend_on_history _ _ _ _ campus_world).
  apply reach_match, reach_embedding, reach_fresh.
Defined.

(** * The chat endpoint *)

Section MatcherForChat.

Context {exn Tok Mdl Enc : Type}.
Variable w : world exn Tok Mdl Enc.

(** No score above the threshold, no match. *)
Lemma below_threshold_gives_none g user_query QUESTIONS tokenizer model E :
  outcome (_load_questions w g) = inr QUESTIONS ->
  outcome (_load_model w g) = inr (tokenizer, model) ->
  (forall x, x = user_query \/ In x QUESTIONS ->
     embedding_value w tokenizer model x = inr (E x)) ->
  (forall x, In x QUESTIONS -> similarity w E user_query x <= 7 # 10) ->
  outcome (find_best_match w user_query g) = inr None.
Proof.
  intros Hq Hm He Hlow.
  destruct (@find_best_match_returns _ _ _ _ w g user_query QUESTIONS
              tokenizer model E Hq Hm He) as [[q|] Hr]; [|exact Hr].
  exfalso.
  destruct (@find_best_match_some _ _ _ _ w g user_query QUESTIONS
              tokenizer model E Hq Hm He q Hr) as (Hthr & _ & i & Hi & _).
  apply nth_error_In in Hi. specialize (Hlow q Hi). lra.
Qed.

(** A failure met on the way leaves the call as an exception. *)
Lemma meets_failure_raises g user_query e :
  meets_failure w user_query g e ->
  outcome (find_best_match w user_query g) = inl e.
Proof.
  assert (Same : outcome (_load_model w (final (_load_questions w g)))
                 = outcome (_load_model w g)).
  { destruct (load_questions_keeps_handles w g).
    apply load_model_same_handles; assumption. }
  intros [Hq | QUESTIONS Hq Hm | QUESTIONS t m Hq Hm Hv
          | before question after t m Hq Hm [v Hv] Hb Hx];
    rewrite find_best_match_run; cbn zeta; rewrite Hq;
    [reflexivity | | | ];
    rewrite get_embedding_run; cbn zeta; rewrite Same, Hm;
    cbn [outcome final]; [reflexivity | | ].
  - rewrite Hv. reflexivity.
  - rewrite Hv. cbn [outcome].
    assert (Hwarm : loaded t m
                      (final (_load_model w (final (_load_questions w g))))).
    { apply load_model_loads. rewrite Same. exact Hm. }
    rewrite (loop_fail w Hwarm v before question after Hb Hx).
    reflexivity.
Qed.

(** A returned question is one of the loaded questions. *)
Lemma match_is_loaded_question g user_query q :
  outcome (find_best_match w user_query g) = inr (Some q) ->
  exists QUESTIONS,
    outcome (_load_questions w g) = inr QUESTIONS /\ In q QUESTIONS.
Proof.
  rewrite find_best_match_run. cbn zeta.
  destruct (outcome (_load_questions w g)) as [e|QUESTIONS];
    [discriminate|].
  destruct (outcome (get_embedding w user_query _)) as [e|ue] eqn:Hu;
    [discriminate|].
  destruct (get_embedding_loads w _ _ Hu) as (t & m & _ & _ & Hwarm).
  cbn [outcome].
  destruct (outcome (for_question_in w ue QUESTIONS None (-1) _))
    as [e|[b h]] eqn:Hl; [discriminate|].
  cbn [fst snd]. destruct (Qgtb h (7 # 10)); [|discriminate].
  intros Hr. injection Hr as ->. exists QUESTIONS. split; [reflexivity|].
  destruct (loop_member w ue QUESTIONS Hwarm _ _ Hl) as [H|(q' & H & Hin)];
    [discriminate|].
  injection H as ->. exact Hin.
Qed.

End MatcherForChat.

(** X5.  A request that carries no usable message never reaches the
    matcher or the chatbot: when the body is not an object, or its
    [message] is absent, null, empty or not a string, the globals and the
    chatbot are left as they were and nothing is loaded; the status is
    400 when the message is absent or falsy and 500 otherwise. *)
Theorem chat_without_text_touches_nothing
    {exn Tok Mdl Enc Bot} (w : world exn Tok Mdl Enc) (ops : text_ops)
    (get_response : Bot -> string -> (exn + string) * Bot)
    (request_json : exn + json) (g : globals Tok Mdl) (bot : Bot) :
  (forall fields text,
     request_json = inr (JObj fields) ->
     assoc "message" fields = Some (JStr text) -> text = "") ->
  let r := chat w ops get_response request_json g bot in
  chat_globals r = g /\ chat_bot r = bot
  /\ matcher_trace r = [] /\ asked r = []
  /\ (snd (reply r) = 400%nat \/ reply r = chat_error)
  /\ (snd (reply r) = 400%nat <->
      exists fields,
        request_json = inr (JObj fields)
        /\ truthy (match assoc "message" fields with
                   | Some v => v
                   | None => JNull
                   end) = false).
Proof.
  intros H. cbn zeta. unfold chat.
  destruct request_json as [e|body].
  { repeat split; auto. intros; discriminate.
    intros (fields & Hf & _); discriminate. }
  destruct body as [| | | | |items|fields];
    try (repeat split; auto;
         [intros; discriminate | intros (fields & Hf & _); discriminate]).
  destruct (assoc "message" fields) as [message|] eqn:Hm.
  - destruct (truthy message) eqn:Ht; cbn [negb].
    + destruct message as [| | | |text| |];
        try (repeat split; auto;
             [intros; discriminate
             | intros (f & Hf & Hfalse); injection Hf as <-;
               rewrite Hm, Ht in Hfalse; discriminate]).
      specialize (H fields text eq_refl Hm). subst text. discriminate.
    + repeat split; auto. intros _. exists fields. rewrite Hm. auto.
  - cbn. repeat split; auto. intros _. exists fields. rewrite Hm. auto.
Qed.

Lemma chat_without_text_touches_nothing_witness :
  let r := chat campus_world ascii_ops echo_bot
             (inr (JObj [("message", JStr "")])) fresh 0%nat in
  chat_globals r = fresh /\ chat_bot r = 0%nat
  /\ matcher_trace r = [] /\ asked r = []
  /\ (snd (reply r) = 400%nat \/ reply r = chat_error)
  /\ (snd (reply r) = 400%nat <->
      exists fields,
        inr (JObj [("message", JStr "")]) = @inr string json (JObj fields)
        /\ truthy (match assoc "message" fields with
                   | Some v => v
                   | None => JNull
                   end) = false).
Proof.
  apply (@chat_without_text_touches_nothing _ _ _ _ _ campus_world ascii_ops
           echo_bot (inr (JObj [("message", JStr "")])) fresh 0%nat).
  intros fields text Hf Hm. injection Hf as <-. cbn in Hm. congruence.
Defined.

(** X6.  When the best reference question scores above 0.7 against the
    upper-cased message, the chatbot is asked that canonical question and
    not the user's text: it is asked once, a reference question with the
    maximal similarity, and its answer is the reply (status 200), or the
    fixed apology (status 500) if the chatbot raises. *)
Theorem chat_asks_the_matched_question
    {exn Tok Mdl Enc Bot} (w : world exn Tok Mdl Enc) (ops : text_ops)
    (get_response : Bot -> string -> (exn + string) * Bot)
    (fields : list (string * json)) (text : string)
    (g : globals Tok Mdl) (bot : Bot)
    (QUESTIONS : list string) (tokenizer : Tok) (model : Mdl)
    (E : string -> tensor2) (best : string) :
  assoc "message" fields = Some (JStr text) ->
  text <> "" ->
  outcome (_load_questions w g) = inr QUESTIONS ->
  outcome (_load_model w g) = inr (tokenizer, model) ->
  (forall x, x = upper ops text \/ In x QUESTIONS ->
     embedding_value w tokenizer model x = inr (E x)) ->
  ~ In "" QUESTIONS ->
  In best QUESTIONS ->
  (forall x, In x QUESTIONS ->
     similarity w E (upper ops text) x
     <= similarity w E (upper ops text) best) ->
  7 # 10 < similarity w E (upper ops text) best ->
  let r := chat w ops get_response (inr (JObj fields)) g bot in
  exists q,
    In q QUESTIONS
    /\ similarity w E (upper ops text) q
       == similarity w E (upper ops text) best
    /\ asked r = [q]
    /\ chat_bot r = snd (get_response bot q)
    /\ reply r
       = match fst (get_response bot q) with
         | inr response => (JObj [("response", JStr response)], 200%nat)
         | inl _ => chat_error
         end.
Proof.
  intros Hmsg Htext Hq Hm He Hblank Hin Hmax Hthr. cbn zeta.
  destruct (@maximum_above_threshold _ _ _ _ w g (upper ops text) QUESTIONS
              tokenizer model E best Hq Hm He Hin Hmax Hthr)
    as (q & Hr & Hq_in & Heq).
  exists q. split; [exact Hq_in|]. split; [exact Heq|].
  unfold chat. rewrite Hmsg.
  assert (Ht : truthy (JStr text) = true).
  { cbn. destruct (String.eqb_spec text ""); [contradiction|reflexivity]. }
  rewrite Ht. cbn [negb]. rewrite Hr.
  assert (Hne : (q =? "")%string = false).
  { destruct (String.eqb_spec q ""); [subst q; contradiction|reflexivity]. }
  rewrite Hne. cbn. auto.
Qed.

Lemma chat_asks_the_matched_question_witness :
  let r := chat campus_world ascii_ops echo_bot
             (inr (JObj [("message", JStr "where is the library")]))
             fresh 0%nat in
  exists q,
    In q campus_questions
    /\ similarity campus_world small_embedding
         (upper ascii_ops "where is the library") q
       == similarity campus_world small_embedding
            (upper ascii_ops "where is the library") "WHERE IS THE LIBRARY"
    /\ asked r = [q]
    /\ chat_bot r = snd (echo_bot 0%nat q)
    /\ reply r
       = match fst (echo_bot 0%nat q) with
         | inr response => (JObj [("response", JStr response)], 200%nat)
         | inl _ => chat_error
         end.
Proof.
  apply (@chat_asks_the_matched_question _ _ _ _ _ campus_world ascii_ops
           echo_bot [("message", JStr "where is the library")]
           "where is the library" fresh 0%nat campus_questions tt tt
           small_embedding "WHERE IS THE LIBRARY").
  - reflexivity.
  - discriminate.
  - reflexivity.
  - reflexivity.
  - intros x _. reflexivity.
  - intros [H|[H|[]]]; discriminate.
  - left. reflexivity.
  - intros x [<-|[<-|[]]]; vm_compute; discriminate.
  - vm_compute. reflexivity.
Defined.

(** X7.  When no reference question scores above 0.7 against the
    upper-cased message (in particular when there is no reference
    question), the chatbot is asked the upper-cased message itself. *)
Theorem chat_falls_back_to_the_message
    {exn Tok Mdl Enc Bot} (w : world exn Tok Mdl Enc) (ops : text_ops)
    (get_response : Bot -> string -> (exn + string) * Bot)
    (fields : list (string * json)) (text : string)
    (g : globals Tok Mdl) (bot : Bot)
    (QUESTIONS : list string) (tokenizer : Tok) (model : Mdl)
    (E : string -> tensor2) :
  assoc "message" fields = Some (JStr text) ->
  text <> "" ->
  outcome (_load_questions w g) = inr QUESTIONS ->
  outcome (_load_model w g) = inr (tokenizer, model) ->
  (forall x, x = upper ops text \/ In x QUESTIONS ->
     embedding_value w tokenizer model x = inr (E x)) ->
  (forall x, In x QUESTIONS ->
     similarity w E (upper ops text) x <= 7 # 10) ->
  let r := chat w ops get_response (inr (JObj fields)) g bot in
  asked r = [upper ops text]
  /\ chat_bot r = snd (get_response bot (upper ops text))
  /\ reply r
     = match fst (get_response bot (upper ops text)) with
       | inr response => (JObj [("response", JStr response)], 200%nat)
       | inl _ => chat_error
       end.
Proof.
  intros Hmsg Htext Hq Hm He Hlow. cbn zeta.
  pose proof (below_threshold_gives_none w g E Hq Hm He Hlow) as Hr.
  unfold chat. rewrite Hmsg.
  assert (Ht : truthy (JStr text) = true).
  { cbn. destruct (String.eqb_spec text ""); [contradiction|reflexivity]. }
  rewrite Ht. cbn [negb]. rewrite Hr. cbn. auto.
Qed.

Lemma chat_falls_back_to_the_message_witness :
  let r := chat campus_world ascii_ops echo_bot
             (inr (JObj [("message", JStr "hello there")])) fresh 0%nat in
  asked r = [upper ascii_ops "hello there"]
  /\ chat_bot r = snd (echo_bot 0%nat (upper ascii_ops "hello there"))
  /\ reply r
     = match fst (echo_bot 0%nat (upper ascii_ops "hello there")) with
       | inr response => (JObj [("response", JStr response)], 200%nat)
       | inl _ => chat_error
       end.
Proof.
  apply (@chat_falls_back_to_the_message _ _ _ _ _ campus_world ascii_ops
           echo_bot [("message", JStr "hello there")] "hello there"
           fresh 0%nat campus_questions tt tt small_embedding).
  - reflexivity.
  - discriminate.
  - reflexivity.
  - reflexivity.
  - intros x _. reflexivity.
  - intros x [<-|[<-|[]]]; vm_compute; discriminate.
Defined.

(** X8.  Whatever goes wrong on the way of the matcher (questions file,
    tokenizer or model, an embedding) is answered with the fixed apology
    and status 500: the exception does not leave the handler, and the
    chatbot is not asked. *)
Theorem chat_reports_matcher_failures
    {exn Tok Mdl Enc Bot} (w : world exn Tok Mdl Enc) (ops : text_ops)
    (get_response : Bot -> string -> (exn + string) * Bot)
    (fields : list (string * json)) (text : string)
    (g : globals Tok Mdl) (bot : Bot) (e : exn) :
  assoc "message" fields = Some (JStr text) ->
  text <> "" ->
  meets_failure w (upper ops text) g e ->
  let r := chat w ops get_response (inr (JObj fields)) g bot in
  reply r = chat_error /\ asked r = [] /\ chat_bot r = bot
  /\ chat_globals r = final (find_best_match w (upper ops text) g).
Proof.
  intros Hmsg Htext Hfail. cbn zeta.
  pose proof (meets_failure_raises Hfail) as Hr.
  unfold chat. rewrite Hmsg.
  assert (Ht : truthy (JStr text) = true).
  { cbn. destruct (String.eqb_spec text ""); [contradiction|reflexivity]. }
  rewrite Ht. cbn [negb]. rewrite Hr. cbn. auto.
Qed.

Lemma chat_reports_matcher_failures_witness :
  let r := chat no_file_world ascii_ops echo_bot
             (inr (JObj [("message", JStr "hello")])) fresh 0%nat in
  reply r = chat_error /\ asked r = [] /\ chat_bot r = 0%nat
  /\ chat_globals r
     = final (find_best_match no_file_world (upper ascii_ops "hello") fresh).
Proof.
  apply (@chat_reports_matcher_failures _ _ _ _ _ no_file_world ascii_ops
           echo_bot [("message", JStr "hello")] "hello" fresh 0%nat
           "FileNotFoundError").
  - reflexivity.
  - discriminate.
  - apply failure_questions. reflexivity.
Defined.

(** X9.  The chatbot is asked at most one text per request, and that
    text is either the upper-cased message or a non-empty reference
    question of the loaded set: a match that is the empty string is
    treated as no match. *)
Theorem chat_asks_message_or_nonempty_question
    {exn Tok Mdl Enc Bot} (w : world exn Tok Mdl Enc) (ops : text_ops)
    (get_response : Bot -> string -> (exn + string) * Bot)
    (fields : list (string * json)) (text : string)
    (g : globals Tok Mdl) (bot : Bot) :
  assoc "message" fields = Some (JStr text) ->
  let r := chat w ops get_response (inr (JObj fields)) g bot in
  (List.length (asked r) <= 1)%nat
  /\ forall q, In q (asked r) ->
       q = upper ops text
       \/ (q <> ""
           /\ exists QUESTIONS,
                outcome (_load_questions w g) = inr QUESTIONS
                /\ In q QUESTIONS).
Proof.
  intros Hmsg. cbn zeta. unfold chat. rewrite Hmsg.
  destruct (truthy (JStr text)); cbn [negb];
    [|split; [cbn; lia | intros q []]].
  destruct (outcome (find_best_match w (upper ops text) g))
    as [e|[q|]] eqn:Hr; cbn [asked List.length];
    try (split; [lia | intros q' []]; fail).
  - split; [lia|]. intros q' [<-|[]].
    destruct (String.eqb_spec q ""); [left; reflexivity|].
    right. split; [assumption|].
    apply (match_is_loaded_question w _ _ Hr).
  - split; [lia|]. intros q' [<-|[]]. left. reflexivity.
Qed.

Lemma chat_asks_message_or_nonempty_question_witness :
  let r := chat blank_match_world ascii_ops echo_bot
             (inr (JObj [("message", JStr "hi")])) fresh 0%nat in
  (List.length (asked r) <= 1)%nat
  /\ forall q, In q (asked r) ->
       q = upper ascii_ops "hi"
       \/ (q <> ""
           /\ exists QUESTIONS,
                outcome (_load_questions blank_match_world fresh)
                = inr QUESTIONS
                /\ In q QUESTIONS).
Proof.
  apply (@chat_asks_message_or_nonempty_question _ _ _ _ _ blank_match_world
           ascii_ops echo_bot [("message", JStr "hi")] "hi" fresh 0%nat).
  reflexivity.
Defined.

(** The empty string wins the match and the chatbot is asked the
    message. *)
Example empty_match_is_no_match :
  outcome (find_best_match blank_match_world "HI" fresh) = inr (Some "")
  /\ asked (chat blank_match_world ascii_ops echo_bot
              (inr (JObj [("message", JStr "hi")])) fresh 0%nat) = ["HI"].
Proof. split; vm_compute; reflexivity. Qed.

(** * The location endpoints *)

Lemma in_firstn_in A (n : nat) (l : list A) (x : A) :
  In x (firstn n l) -> In x l.
Proof.
  intros H. rewrite <- (firstn_skipn n l). apply in_or_app. left. exact H.
Qed.

Lemma in_skipn_in A (n : nat) (l : list A) (x : A) :
  In x (skipn n l) -> In x l.
Proof.
  intros H. rewrite <- (firstn_skipn n l). apply in_or_app. right. exact H.
Qed.

Lemma py_eq_str (n : json) (s : string) :
  py_eq n (JStr s) = true <-> n = JStr s.
Proof.
  destruct n as [|b|z|q|t|items|fields]; cbn;
    try (split; discriminate).
  destruct (String.eqb_spec t s); split; congruence.
Qed.

Lemma assoc_without_id (fields : list (string * json)) :
  assoc "_id" (filter (fun kv => negb (fst kv =? "_id")%string) fields) = None.
Proof.
  induction fields as [|[k v] rest IH]; [reflexivity|].
  cbn [filter fst]. destruct (k =? "_id")%string eqn:K; cbn [negb].
  - exact IH.
  - cbn [assoc]. rewrite K. exact IH.
Qed.


Section Search.

Variable ops : text_ops.

(** Every hit is a stored location, cleaned, whose name starts with the
    query. *)
Lemma matching_locations_sound query items : forall hits,
  matching_locations ops query items = Some hits ->
  forall hit, In hit hits ->
    exists fields name,
      In (JObj fields) items
      /\ hit = JObj (filter (fun kv => negb (fst kv =? "_id")%string) fields)
      /\ dict_get (JObj fields) "name" (JStr "") = Some (JStr name)
      /\ prefix (lower ops query) (lower ops name) = true.
Proof.
  induction items as [|loc rest IH]; intros hits H hit Hin.
  - cbn in H. injection H as <-. destruct Hin.
  - cbn [matching_locations] in H.
    destruct (dict_get loc "name" (JStr "")) as [[| | | |name| |]|] eqn:Hn;
      try discriminate.
    destruct loc as [| | | | | |fields]; try discriminate.
    destruct (prefix (lower ops query) (lower ops name)) eqn:Hp.
    + cbn [without_id] in H.
      destruct (matching_locations ops query rest) as [others|];
        [|discriminate].
      injection H as <-. destruct Hin as [<-|Hin].
      * exists fields, name. repeat split; auto. left. reflexivity.
      * destruct (IH others eq_refl hit Hin) as (f & n & Hf & He & Hg & Hq).
        exists f, n. repeat split; auto. right. exact Hf.
    + destruct (IH hits H hit Hin) as (f & n & Hf & He & Hg & Hq).
      exists f, n. repeat split; auto. right. exact Hf.
Qed.

(** Every stored location whose name starts with the query is a hit. *)
Lemma matching_locations_complete query items : forall hits,
  matching_locations ops query items = Some hits ->
  forall fields name,
    In (JObj fields) items ->
    dict_get (JObj fields) "name" (JStr "") = Some (JStr name) ->
    prefix (lower ops query) (lower ops name) = true ->
    In (JObj (filter (fun kv => negb (fst kv =? "_id")%string) fields)) hits.
Proof.
  induction items as [|loc rest IH]; intros hits H fields name Hin Hn Hp.
  - destruct Hin.
  - cbn [matching_locations] in H.
    destruct (dict_get loc "name" (JStr "")) as [[| | | |name'| |]|] eqn:Hn';
      try discriminate.
    destruct (prefix (lower ops query) (lower ops name')) eqn:Hp'.
    + destruct (without_id loc) as [cleaned|] eqn:Hc; [|discriminate].
      destruct (matching_locations ops query rest) as [others|];
        [|discriminate].
      injection H as <-. destruct Hin as [->|Hin].
      * cbn in Hc. injection Hc as <-. left. reflexivity.
      * right. eapply IH; eauto.
    + destruct Hin as [->|Hin]; [|eapply IH; eauto].
      rewrite Hn in Hn'. injection Hn' as <-. congruence.
Qed.

(** One entry that is no dict, or whose name is no string, breaks the
    whole comprehension. *)
Lemma matching_locations_bad query items bad :
  In bad items ->
  match dict_get bad "name" (JStr "") with
  | Some (JStr _) => False
  | _ => True
  end ->
  matching_locations ops query items = None.
Proof.
  induction items as [|loc rest IH]; intros Hin Hbad; [destruct Hin|].
  cbn [matching_locations]. destruct Hin as [->|Hin].
  - destruct (dict_get bad "name" (JStr "")) as [[| | | |name| |]|];
      try reflexivity. destruct Hbad.
  - rewrite (IH Hin Hbad).
    destruct (dict_get loc "name" (JStr "")) as [[| | | |name| |]|];
      try reflexivity.
    destruct (prefix (lower ops query) (lower ops name)); [|reflexivity].
    destruct (without_id loc); reflexivity.
Qed.

End Search.


(** X10.  A search never fails because the locations file is missing or
    cannot be parsed, nor for a blank query: the status is 500 only when
    the query is not blank and the file holds a JSON value; a blank query
    is answered with the empty list whatever the disk holds. *)
Theorem search_fails_only_on_parsed_data
    (ops : text_ops) (d : disk) (q : option string) :
  (snd (search_locations ops d q) = 500%nat ->
   strip ops (match q with Some s => s | None => "" end) <> ""
   /\ exists content, d LOCATIONS_FILE = JsonFile content)
  /\ (strip ops (match q with Some s => s | None => "" end) = "" ->
      search_locations ops d q = (JList [], 200%nat))
  /\ ((d LOCATIONS_FILE = NoFile \/ d LOCATIONS_FILE = BadFile) ->
      search_locations ops d q = (JList [], 200%nat)).
Proof.
  unfold search_locations, read_json.
  set (query := strip ops (match q with Some s => s | None => "" end)).
  destruct (String.eqb_spec query "") as [E|N].
  - repeat split; try reflexivity; discriminate.
  - split; [|split].
    + intros H. split; [exact N|].
      destruct (d LOCATIONS_FILE) as [| |content]; try discriminate. eauto.
    + intros E. contradiction.
    + intros [H|H]; rewrite H; reflexivity.
Qed.

(** X11.  What a search returns: at most 10 entries, each of them a
    location of the file with its ["_id"] removed, whose name (the empty
    string when it has none) starts with the stripped query once both are
    lower-cased. *)
Theorem search_hits_are_stored_matches
    (ops : text_ops) (d : disk) (q : option string) (hits : list json) :
  search_locations ops d q = (JList hits, 200%nat) ->
  (List.length hits <= 10)%nat
  /\ forall hit, In hit hits ->
       exists items fields name,
         py_iter ops (read_json d LOCATIONS_FILE) = Some items
         /\ In (JObj fields) items
         /\ hit = JObj (filter (fun kv => negb (fst kv =? "_id")%string)
                          fields)
         /\ dict_get hit "_id" JNull = Some JNull
         /\ dict_get (JObj fields) "name" (JStr "") = Some (JStr name)
         /\ prefix
              (lower ops
                 (strip ops (match q with Some s => s | None => "" end)))
              (lower ops name) = true.
Proof.
  unfold search_locations.
  set (query := strip ops (match q with Some s => s | None => "" end)).
  destruct (query =? "")%string.
  { intros H. injection H as <-. split; [cbn; lia | intros hit []]. }
  destruct (py_iter ops (read_json d LOCATIONS_FILE)) as [items|];
    [|discriminate].
  destruct (matching_locations ops query items) as [found|] eqn:Hm;
    [|discriminate].
  intros H. assert (Hh : hits = firstn 10 found) by congruence.
  clear H. subst hits. split.
  - rewrite length_firstn. lia.
  - intros hit Hin. apply in_firstn_in in Hin.
    destruct (matching_locations_sound ops query items Hm hit Hin)
      as (fields & name & Hf & He & Hn & Hp).
    exists items, fields, name. repeat split; auto.
    subst hit. cbn [dict_get]. rewrite assoc_without_id. reflexivity.
Qed.

Lemma search_hits_are_stored_matches_witness :
  (List.length [JObj [("name", JStr "Library");
                      ("coordinates",
                       JList [JFloat (1297 # 100); JFloat (7759 # 100)]);
                      ("search_count", JInt 3)];
                JObj [("name", JStr "Lab Block");
                      ("coordinates",
                       JList [JFloat (1298 # 100); JFloat (7760 # 100)])]]
   <= 10)%nat
  /\ forall hit,
       In hit [JObj [("name", JStr "Library");
                     ("coordinates",
                      JList [JFloat (1297 # 100); JFloat (7759 # 100)]);
                     ("search_count", JInt 3)];
               JObj [("name", JStr "Lab Block");
                     ("coordinates",
                      JList [JFloat (1298 # 100); JFloat (7760 # 100)])]] ->
       exists items fields name,
         py_iter ascii_ops (read_json campus_disk LOCATIONS_FILE) = Some items
         /\ In (JObj fields) items
         /\ hit = JObj (filter (fun kv => negb (fst kv =? "_id")%string)
                          fields)
         /\ dict_get hit "_id" JNull = Some JNull
         /\ dict_get (JObj fields) "name" (JStr "") = Some (JStr name)
         /\ prefix (lower ascii_ops (strip ascii_ops " L"))
              (lower ascii_ops name) = true.
Proof.
  apply (@search_hits_are_stored_matches ascii_ops campus_disk (Some " L")).
  vm_compute. reflexivity.
Defined.

(** X12.  A search for a query that is not blank and that returns fewer
    than 10 entries has missed nothing: every location of the file whose
    lower-cased name starts with the lower-cased stripped query is among
    them, cleaned.  (A blank query is answered with the empty list.) *)
Theorem short_search_result_is_complete
    (ops : text_ops) (d : disk) (q : string) (hits items : list json)
    (fields : list (string * json)) (name : string) :
  strip ops q <> "" ->
  search_locations ops d (Some q) = (JList hits, 200%nat) ->
  (List.length hits < 10)%nat ->
  py_iter ops (read_json d LOCATIONS_FILE) = Some items ->
  In (JObj fields) items ->
  dict_get (JObj fields) "name" (JStr "") = Some (JStr name) ->
  prefix (lower ops (strip ops q)) (lower ops name) = true ->
  In (JObj (filter (fun kv => negb (fst kv =? "_id")%string) fields)) hits.
Proof.
  intros Hq. unfold search_locations.
  destruct (String.eqb_spec (strip ops q) ""); [contradiction|].
  intros H Hlen Hi. rewrite Hi in H.
  destruct (matching_locations ops (strip ops q) items) as [found|] eqn:Hm;
    [|discriminate].
  assert (Hh : hits = firstn 10 found) by congruence.
  clear H. subst hits. intros Hin Hn Hp.
  assert (Hall : firstn 10 found = found).
  { apply firstn_all2. rewrite length_firstn in Hlen. lia. }
  rewrite Hall.
  eapply matching_locations_complete; eauto.
Qed.

Lemma short_search_result_is_complete_witness :
  In (JObj (filter (fun kv => negb (fst kv =? "_id")%string)
              [("_id", JObj [("$oid", JStr "65a1")]);
               ("name", JStr "Lab Block");
               ("coordinates",
                JList [JFloat (1298 # 100); JFloat (7760 # 100)])]))
     [JObj [("name", JStr "Lab Block");
            ("coordinates",
             JList [JFloat (1298 # 100); JFloat (7760 # 100)])]].
Proof.
  apply (@short_search_result_is_complete ascii_ops campus_disk "lab"
           _ [library; lab; canteen] _ "Lab Block").
  - discriminate.
  - vm_compute. reflexivity.
  - cbn. lia.
  - reflexivity.
  - right. left. reflexivity.
  - reflexivity.
  - reflexivity.
Defined.

(** X13.  One malformed entry spoils every search: if the file holds a
    list with an entry that is no dict, or whose ["name"] is no string,
    every query that is not blank is answered with status 500, also a
    query that entry could not match. *)
Theorem one_bad_entry_fails_every_search
    (ops : text_ops) (d : disk) (q : string) (items : list json)
    (bad : json) :
  d LOCATIONS_FILE = JsonFile (JList items) ->
  In bad items ->
  match dict_get bad "name" (JStr "") with
  | Some (JStr _) => False
  | _ => True
  end ->
  strip ops q <> "" ->
  search_locations ops d (Some q) = search_error.
Proof.
  intros Hd Hin Hbad Hq. unfold search_locations, read_json.
  destruct (String.eqb_spec (strip ops q) ""); [contradiction|].
  rewrite Hd. cbn [py_iter].
  rewrite (matching_locations_bad ops (strip ops q) items bad Hin Hbad).
  reflexivity.
Qed.

Lemma one_bad_entry_fails_every_search_witness :
  search_locations ascii_ops odd_disk (Some "Lib") = search_error.
Proof.
  apply (@one_bad_entry_fails_every_search ascii_ops odd_disk "Lib"
           [library; JObj [("name", JInt 5)]] (JObj [("name", JInt 5)])).
  - reflexivity.
  - right. left. reflexivity.
  - exact I.
  - discriminate.
Defined.

Section ByName.

Variable ops : text_ops.

Lemma first_named_found name before fields after :
  (forall x, In x before -> not_named name x) ->
  assoc "name" fields = Some (JStr name) ->
  first_named (JStr name) (before ++ JObj fields :: after)
  = Some (Some (JObj fields)).
Proof.
  intros Hb Hn. induction before as [|x before IH]; cbn [app first_named].
  - cbn [dict_get]. rewrite Hn. cbn. rewrite String.eqb_refl. reflexivity.
  - destruct (Hb x (or_introl eq_refl)) as (n & Hx & Hne). rewrite Hx.
    destruct (py_eq n (JStr name)) eqn:E.
    + apply py_eq_str in E. contradiction.
    + apply IH. intros y Hy. apply Hb. right. exact Hy.
Qed.

Lemma first_named_absent name items :
  (forall x, In x items -> not_named name x) ->
  first_named (JStr name) items = Some None.
Proof.
  induction items as [|x items IH]; intros Hb; [reflexivity|].
  cbn [first_named].
  destruct (Hb x (or_introl eq_refl)) as (n & Hx & Hne). rewrite Hx.
  destruct (py_eq n (JStr name)) eqn:E.
  - apply py_eq_str in E. contradiction.
  - apply IH. intros y Hy. apply Hb. right. exact Hy.
Qed.

End ByName.

(** X14.  A lookup by name returns the first location of the file with
    that name, without its ["_id"] and otherwise unchanged, and does not
    look at the entries after it, whatever they are; when every entry is
    a dict with another name, or the file is missing or unparsable, the
    answer is 404. *)
Theorem lookup_returns_first_of_that_name
    (ops : text_ops) (d : disk) (location_name : string) :
  (forall before fields after,
     d LOCATIONS_FILE = JsonFile (JList (before ++ JObj fields :: after)) ->
     (forall x, In x before -> not_named location_name x) ->
     assoc "name" fields = Some (JStr location_name) ->
     get_location_by_name ops d location_name
     = (JObj (filter (fun kv => negb (fst kv =? "_id")%string) fields),
        200%nat))
  /\ (forall items,
        d LOCATIONS_FILE = JsonFile (JList items) ->
        (forall x, In x items -> not_named location_name x) ->
        get_location_by_name ops d location_name = location_not_found)
  /\ (d LOCATIONS_FILE = NoFile \/ d LOCATIONS_FILE = BadFile ->
      get_location_by_name ops d location_name = location_not_found).
Proof.
  split; [|split].
  - intros before fields after Hd Hb Hn.
    unfold get_location_by_name, read_json. rewrite Hd. cbn [py_iter].
    rewrite (@first_named_found location_name before fields after Hb Hn).
    assert (T : truthy (JObj fields) = true).
    { destruct fields; [discriminate|reflexivity]. }
    rewrite T. reflexivity.
  - intros items Hd Hall.
    unfold get_location_by_name, read_json. rewrite Hd. cbn [py_iter].
    rewrite (@first_named_absent location_name items Hall). reflexivity.
  - intros [H|H]; unfold get_location_by_name, read_json; rewrite H;
      reflexivity.
Qed.

Lemma lookup_returns_first_of_that_name_witness :
  get_location_by_name ascii_ops odd_disk "Library"
  = (JObj [("name", JStr "Library");
           ("coordinates", JList [JFloat (1297 # 100); JFloat (7759 # 100)]);
           ("search_count", JInt 3)], 200%nat).
Proof.
  apply (proj1 (lookup_returns_first_of_that_name ascii_ops odd_disk
                  "Library")
           []
           [("_id", JObj [("$oid", JStr "65a0")]);
            ("name", JStr "Library");
            ("coordinates", JList [JFloat (1297 # 100); JFloat (7759 # 100)]);
            ("search_count", JInt 3)]
           [JObj [("name", JInt 5)]]).
  - reflexivity.
  - intros x [].
  - reflexivity.
Defined.

(** ** The most searched places *)

Lemma insert_desc_perm x l : Permutation (x :: l) (insert_desc x l).
Proof.
  induction l as [|y l IH]; cbn [insert_desc]; [reflexivity|].
  destruct (Qgtb (fst y) (fst x)); [|reflexivity].
  rewrite perm_swap. apply perm_skip, IH.
Qed.

Lemma sort_desc_perm l : Permutation l (sort_desc l).
Proof.
  induction l as [|x l IH]; [reflexivity|].
  cbn [sort_desc fold_right]. rewrite <- insert_desc_perm.
  apply perm_skip, IH.
Qed.

Lemma insert_desc_descending x l :
  descending l -> descending (insert_desc x l).
Proof.
  unfold descending.
  induction l as [|y l IH]; intros H; cbn [insert_desc].
  - constructor; constructor.
  - apply StronglySorted_inv in H. destruct H as [Hl Hy].
    destruct (Qgtb (fst y) (fst x)) eqn:G.
    + apply Qgtb_true in G. constructor; [apply IH, Hl|].
      rewrite <- (insert_desc_perm x l). constructor.
      * apply Qlt_le_weak, G.
      * exact Hy.
    + apply Qgtb_false in G. constructor.
      * constructor; assumption.
      * constructor; [exact G|].
        eapply Forall_impl; [|exact Hy].
        intros b Hb. cbn in Hb |- *. eapply Qle_trans; eauto.
Qed.

Lemma sort_desc_descending l : descending (sort_desc l).
Proof.
  induction l as [|x l IH]; [constructor|].
  cbn [sort_desc fold_right]. apply insert_desc_descending, IH.
Qed.

Lemma descending_split (a b : list (Q * json)) :
  descending (a ++ b) ->
  descending a /\ forall x y, In x a -> In y b -> fst y <= fst x.
Proof.
  unfold descending. induction a as [|z a IH]; cbn [app]; intros H.
  - split; [constructor | intros x y []].
  - apply StronglySorted_inv in H. destruct H as [Hs Hz].
    destruct (IH Hs) as [Ha Hab]. split.
    + constructor; [exact Ha|].
      apply Forall_app in Hz. apply Hz.
    + intros x y [<-|Hx] Hy; [|apply Hab; assumption].
      apply Forall_app in Hz. destruct Hz as [_ Hz].
      rewrite Forall_forall in Hz. apply (Hz y Hy).
Qed.

(** The popular places are the locations with a positive count. *)
Lemma popular_sound items : forall pop,
  popular items = Some pop ->
  forall n loc, In (n, loc) pop ->
    In loc items /\ 0 < n
    /\ exists fields c,
         loc = JObj fields
         /\ dict_get loc "search_count" (JInt 0) = Some c
         /\ as_number c = Some n.
Proof.
  induction items as [|x items IH]; intros pop H n loc Hin.
  - cbn in H. injection H as <-. destruct Hin.
  - cbn [popular] in H.
    destruct (dict_get x "search_count" (JInt 0)) as [c|] eqn:Hc;
      [|discriminate].
    destruct (as_number c) as [m|] eqn:Hm; [|discriminate].
    destruct (popular items) as [others|]; [|discriminate].
    assert (Hrest : In (n, loc) others ->
              In loc (x :: items) /\ 0 < n
              /\ exists fields c0,
                   loc = JObj fields
                   /\ dict_get loc "search_count" (JInt 0) = Some c0
                   /\ as_number c0 = Some n).
    { intros Ho. destruct (IH others eq_refl n loc Ho) as (A & B & C).
      split; [right; exact A|]. split; assumption. }
    destruct (Qgtb m 0) eqn:G; injection H as <-; [|auto].
    destruct Hin as [Heq|Hin]; [|auto].
    injection Heq as <- <-. apply Qgtb_true in G.
    split; [left; reflexivity|]. split; [exact G|].
    destruct x as [| | | | | |fields]; try discriminate.
    exists fields, c. auto.
Qed.

Lemma popular_complete items : forall pop,
  popular items = Some pop ->
  forall loc c n,
    In loc items ->
    dict_get loc "search_count" (JInt 0) = Some c ->
    as_number c = Some n -> 0 < n ->
    In (n, loc) pop.
Proof.
  induction items as [|x items IH]; intros pop H loc c n Hin Hc Hn Hpos.
  - destruct Hin.
  - cbn [popular] in H.
    destruct (dict_get x "search_count" (JInt 0)) as [c'|] eqn:Hc';
      [|discriminate].
    destruct (as_number c') as [m|] eqn:Hm; [|discriminate].
    destruct (popular items) as [others|]; [|discriminate].
    destruct Hin as [->|Hin].
    + rewrite Hc in Hc'. injection Hc' as <-. rewrite Hn in Hm.
      injection Hm as <-. apply Qgtb_true in Hpos. rewrite Hpos in H.
      injection H as <-. left. reflexivity.
    + specialize (IH others eq_refl loc c n Hin Hc Hn Hpos).
      destruct (Qgtb m 0); injection H as <-; [right|]; exact IH.
Qed.

Lemma clean_all_dicts locs :
  (forall loc, In loc locs -> exists fields, loc = JObj fields) ->
  exists cleaned,
    clean_all locs = Some cleaned
    /\ List.length cleaned = List.length locs
    /\ forall c, In c cleaned -> dict_get c "_id" JNull = Some JNull.
Proof.
  induction locs as [|loc locs IH]; intros H.
  - exists []. repeat split. intros c [].
  - destruct (H loc (or_introl eq_refl)) as [fields ->].
    destruct IH as (cleaned & Hc & Hl & Hid).
    { intros x Hx. apply H. right. exact Hx. }
    cbn [clean_all without_id]. rewrite Hc. eexists. split; [reflexivity|].
    split; [cbn; rewrite Hl; reflexivity|].
    intros c [<-|Hin]; [|apply Hid, Hin].
    cbn [dict_get]. rewrite assoc_without_id. reflexivity.
Qed.

Lemma popular_dicts items : forall pop,
  popular items = Some pop ->
  forall loc, In loc items -> exists fields, loc = JObj fields.
Proof.
  induction items as [|x items IH]; intros pop H loc Hin; [destruct Hin|].
  cbn [popular] in H.
  destruct (dict_get x "search_count" (JInt 0)) as [c|] eqn:Hc;
    [|discriminate].
  destruct (as_number c); [|discriminate].
  destruct (popular items) as [others|]; [|discriminate].
  destruct Hin as [<-|Hin]; [|eapply IH; eauto].
  destruct x as [| | | | | |fields]; try discriminate. eauto.
Qed.

(** X15.  The top places.  When the file holds a list whose entries are
    dicts with numeric counts, and some count is positive, the answer
    lists min(5, number of places with a positive count) places, all with
    a positive count, in non-increasing order of count, none of the
    places left out having a higher count than a place listed, and all
    without ["_id"]; when no count is positive, the answer lists the
    first five entries of the file. *)
Theorem top_places_are_the_most_searched
    (ops : text_ops) (d : disk) (items : list json)
    (pop : list (Q * json)) :
  d LOCATIONS_FILE = JsonFile (JList items) ->
  popular items = Some pop ->
  (pop <> [] ->
   exists chosen rest cleaned,
     Permutation pop (chosen ++ rest)
     /\ List.length chosen = Nat.min 5 (List.length pop)
     /\ descending chosen
     /\ (forall x y, In x chosen -> In y rest -> fst y <= fst x)
     /\ (forall x, In x chosen -> 0 < fst x /\ In (snd x) items)
     /\ clean_all (map snd chosen) = Some cleaned
     /\ (forall c, In c cleaned -> dict_get c "_id" JNull = Some JNull)
     /\ get_top_places ops d = (JList cleaned, 200%nat))
  /\ (pop = [] ->
      exists cleaned,
        clean_all (firstn 5 items) = Some cleaned
        /\ get_top_places ops d = (JList cleaned, 200%nat)).
Proof.
  intros Hd Hp. split.
  - intros Hne.
    set (sorted := sort_desc pop).
    assert (Hperm : Permutation pop sorted) by apply sort_desc_perm.
    assert (Hsplit : descending (firstn 5 sorted ++ skipn 5 sorted)).
    { rewrite firstn_skipn. apply sort_desc_descending. }
    apply descending_split in Hsplit. destruct Hsplit as [Hdesc Htop].
    assert (Hin : forall x, In x (firstn 5 sorted) ->
              0 < fst x /\ In (snd x) items
              /\ exists fields, snd x = JObj fields).
    { intros [n loc] Hx. apply in_firstn_in in Hx.
      apply (Permutation_in _ (Permutation_sym Hperm)) in Hx.
      destruct (popular_sound items Hp n loc Hx)
        as (A & B & fields & c & E & _).
      cbn. repeat split; eauto. }
    destruct (clean_all_dicts (map snd (firstn 5 sorted)))
      as (cleaned & Hc & _ & Hid).
    { intros loc Hl. apply in_map_iff in Hl. destruct Hl as (x & <- & Hx).
      apply (Hin x Hx). }
    exists (firstn 5 sorted), (skipn 5 sorted), cleaned.
    split; [rewrite firstn_skipn; exact Hperm|].
    split; [rewrite length_firstn, (Permutation_length Hperm); reflexivity|].
    split; [exact Hdesc|]. split; [exact Htop|].
    split; [intros x Hx; destruct (Hin x Hx) as (A & B & _); auto|].
    split; [exact Hc|]. split; [exact Hid|].
    unfold get_top_places, read_json. rewrite Hd. cbn [py_iter]. rewrite Hp.
    destruct pop as [|p pop']; [congruence|].
    fold sorted. rewrite Hc. reflexivity.
  - intros ->.
    destruct (clean_all_dicts (firstn 5 items)) as (cleaned & Hc & _ & _).
    { intros loc Hl. apply in_firstn_in in Hl.
      apply (popular_dicts items Hp loc Hl). }
    exists cleaned. split; [exact Hc|].
    unfold get_top_places, read_json. rewrite Hd. cbn [py_iter py_prefix].
    rewrite Hp, Hc. reflexivity.
Qed.

Lemma top_places_are_the_most_searched_witness :
  exists chosen rest cleaned,
    Permutation [(inject_Z 3, library); (inject_Z 7, canteen)]
      (chosen ++ rest)
    /\ List.length chosen = Nat.min 5 2
    /\ descending chosen
    /\ (forall x y, In x chosen -> In y rest -> fst y <= fst x)
    /\ (forall x, In x chosen ->
          0 < fst x /\ In (snd x) [library; lab; canteen])
    /\ clean_all (map snd chosen) = Some cleaned
    /\ (forall c, In c cleaned -> dict_get c "_id" JNull = Some JNull)
    /\ get_top_places ascii_ops campus_disk = (JList cleaned, 200%nat).
Proof.
  apply (proj1 (@top_places_are_the_most_searched ascii_ops campus_disk
                  [library; lab; canteen]
                  [(inject_Z 3, library); (inject_Z 7, canteen)]
                  eq_refl eq_refl)).
  discriminate.
Defined.

(** The canteen, searched 7 times, comes before the library, searched 3
    times; the lab block was never searched. *)
Example top_places_of_the_campus :
  get_top_places ascii_ops campus_disk
  = (JList [canteen;
            JObj [("name", JStr "Library");
                  ("coordinates",
                   JList [JFloat (1297 # 100); JFloat (7759 # 100)]);
                  ("search_count", JInt 3)]], 200%nat).
Proof. vm_compute. reflexivity. Qed.

(** ** Recording a search *)


Lemma assoc_set_field_other k k' v fields :
  k' <> k -> assoc k' (set_field k v fields) = assoc k' fields.
Proof.
  intros Hk. induction fields as [|[k0 v0] rest IH]; cbn [set_field assoc].
  - destruct (String.eqb_spec k k'); [congruence|reflexivity].
  - destruct (String.eqb_spec k0 k) as [->|N]; cbn [assoc].
    + destruct (String.eqb_spec k k'); [congruence|reflexivity].
    + rewrite IH. reflexivity.
Qed.

Section Recording.

Variable ops : text_ops.
Variable float_succ : Q -> Q.
Variable attempt : string -> write_outcome.

(** The loop finds the first location of that name and raises its
    count; the entries around it are left as they are. *)
Lemma find_and_count_found place before fields after c c' :
  (forall x, In x before -> not_named place x) ->
  assoc "name" fields = Some (JStr place) ->
  dict_get (JObj fields) "search_count" (JInt 0) = Some c ->
  py_add1 float_succ c = Some c' ->
  find_and_count float_succ (JStr place) (before ++ JObj fields :: after)
  = Some (Some (JObj (set_field "search_count" c' fields),
                before ++ JObj (set_field "search_count" c' fields) :: after)).
Proof.
  intros Hb Hn Hc Hc'.
  induction before as [|x before IH]; cbn [app find_and_count].
  - cbn [dict_get]. rewrite Hn. cbn [py_eq]. rewrite String.eqb_refl.
    cbn [dict_get] in Hc. injection Hc as Hc. rewrite Hc, Hc'. reflexivity.
  - destruct (Hb x (or_introl eq_refl)) as (n & Hx & Hne). rewrite Hx.
    destruct (py_eq n (JStr place)) eqn:E.
    + apply py_eq_str in E. contradiction.
    + rewrite IH; [reflexivity|]. intros y Hy. apply Hb. right. exact Hy.
Qed.

Lemma find_and_count_absent place items :
  (forall x, In x items -> not_named place x) ->
  find_and_count float_succ (JStr place) items = Some None.
Proof.
  induction items as [|x items IH]; intros Hb; [reflexivity|].
  cbn [find_and_count].
  destruct (Hb x (or_introl eq_refl)) as (n & Hx & Hne). rewrite Hx.
  destruct (py_eq n (JStr place)) eqn:E.
  - apply py_eq_str in E. contradiction.
  - rewrite IH; [reflexivity|]. intros y Hy. apply Hb. right. exact Hy.
Qed.

(** What a recorded search went through. *)
Lemma search_recorded_inv now request d :
  fst (increment_search_count ops float_succ attempt now request d)
  = search_recorded ->
  exists fields place_name locs location_found locations entry recent,
    request = Some (JObj fields)
    /\ assoc "placeName" fields = Some place_name
    /\ py_iter ops (read_json d LOCATIONS_FILE) = Some locs
    /\ find_and_count float_succ place_name locs
       = Some (Some (location_found, locations))
    /\ new_search now location_found = Some entry
    /\ read_json (snd (write_json attempt d LOCATIONS_FILE (JList locations)))
         RECENT_SEARCHES_FILE = JList recent
    /\ snd (increment_search_count ops float_succ attempt now request d)
       = snd (write_json attempt
                (snd (write_json attempt d LOCATIONS_FILE (JList locations)))
                RECENT_SEARCHES_FILE
                (JList (skipn (List.length (recent ++ [entry]) - 100)
                          (recent ++ [entry])))).
Proof.
  unfold increment_search_count.
  destruct request as [data|]; [|discriminate].
  destruct (negb (truthy data)); [discriminate|].
  destruct (py_contains data "placeName") as [[|]|]; try discriminate.
  destruct data as [| | | | | |fields]; try discriminate.
  destruct (assoc "placeName" fields) as [place_name|] eqn:Hp;
    [|discriminate].
  destruct (py_iter ops (read_json d LOCATIONS_FILE)) as [locs|] eqn:Hi;
    [|discriminate].
  destruct (find_and_count float_succ place_name locs)
    as [[[location_found locations]|]|] eqn:Hf; try discriminate.
  destruct (negb (truthy location_found)); [discriminate|].
  destruct (new_search now location_found) as [entry|] eqn:Hn;
    [|discriminate].
  destruct (read_json (snd (write_json attempt d LOCATIONS_FILE
                              (JList locations))) RECENT_SEARCHES_FILE)
    as [| | | | |recent|] eqn:Hr; try discriminate.
  intros _. exists fields, place_name, locs, location_found, locations,
    entry, recent.
  repeat split; auto. cbn [snd]. do 2 f_equal.
  destruct (100 <? List.length (recent ++ [entry]))%nat eqn:L;
    [reflexivity|].
  apply Nat.ltb_ge in L.
  replace (List.length (recent ++ [entry]) - 100)%nat with 0%nat by lia.
  reflexivity.
Qed.

End Recording.

(** X16.  Recording a search.  When the request names a place by a
    string, the locations file holds a list in which the first location
    of that name has coordinates and a count that can be raised, the
    entries before it being dicts of other names, and both files can be
    written: the answer is "Search recorded successfully", the locations
    file holds the same list with the count of that one location raised
    and nothing else changed, the recent searches hold the former entries
    followed by the new one, cut to the last 100, and no other file is
    touched. *)
Theorem recorded_search_raises_one_count
    (ops : text_ops) (float_succ : Q -> Q)
    (attempt : string -> write_outcome) (now : string) (d : disk)
    (request : list (string * json)) (place : string)
    (before after : list json) (fields : list (string * json))
    (c c' coordinates : json) (recent : list json) :
  assoc "placeName" request = Some (JStr place) ->
  d LOCATIONS_FILE = JsonFile (JList (before ++ JObj fields :: after)) ->
  (forall x, In x before -> not_named place x) ->
  assoc "name" fields = Some (JStr place) ->
  dict_get (JObj fields) "search_count" (JInt 0) = Some c ->
  py_add1 float_succ c = Some c' ->
  assoc "coordinates" fields = Some coordinates ->
  read_json d RECENT_SEARCHES_FILE = JList recent ->
  attempt LOCATIONS_FILE = Written ->
  attempt RECENT_SEARCHES_FILE = Written ->
  let result :=
    increment_search_count ops float_succ attempt now
      (Some (JObj request)) d in
  let entry :=
    JObj [("timestamp", JStr now);
          ("location",
           JObj [("name", JStr place);
                 ("coordinates", coordinates);
                 ("image_url",
                  match assoc "image_url" fields with
                  | Some url => url
                  | None => JNull
                  end)])] in
  fst result = search_recorded
  /\ snd result LOCATIONS_FILE
     = JsonFile (JList (before
                        ++ JObj (set_field "search_count" c' fields)
                        :: after))
  /\ snd result RECENT_SEARCHES_FILE
     = JsonFile (JList (skipn (S (List.length recent) - 100)
                          (recent ++ [entry])))
  /\ forall p, p <> LOCATIONS_FILE -> p <> RECENT_SEARCHES_FILE ->
       snd result p = d p.
Proof.
  intros Hp Hd Hb Hn Hc Hc' Hco Hr Wl Wr result entry.
  set (found := JObj (set_field "search_count" c' fields)).
  set (locations := before ++ found :: after).
  set (d1 := store d LOCATIONS_FILE (JsonFile (JList locations))).
  assert (E1 : py_iter ops (read_json d LOCATIONS_FILE)
               = Some (before ++ JObj fields :: after)).
  { unfold read_json. rewrite Hd. reflexivity. }
  assert (E2 : find_and_count float_succ (JStr place)
                 (before ++ JObj fields :: after)
               = Some (Some (found, locations))).
  { apply find_and_count_found with (c := c); assumption. }
  assert (E3 : truthy found = true).
  { unfold found. cbn [truthy].
    destruct fields as [|[k v] rest]; cbn [set_field]; [reflexivity|].
    destruct (k =? "search_count")%string; reflexivity. }
  assert (E4 : write_json attempt d LOCATIONS_FILE (JList locations)
               = (true, d1)).
  { unfold write_json. rewrite Wl. reflexivity. }
  assert (E5 : read_json d1 RECENT_SEARCHES_FILE = JList recent).
  { unfold read_json, d1, store in *. cbn. exact Hr. }
  assert (E6 : new_search now found = Some entry).
  { unfold new_search, found.
    rewrite !assoc_set_field_other by discriminate. rewrite Hn, Hco.
    reflexivity. }
  assert (E7 : forall data,
            write_json attempt d1 RECENT_SEARCHES_FILE data
            = (true, store d1 RECENT_SEARCHES_FILE (JsonFile data))).
  { intros data. unfold write_json. rewrite Wr. reflexivity. }
  assert (T : truthy (JObj request) = true).
  { destruct request; [discriminate|reflexivity]. }
  assert (R : result
              = (search_recorded,
                 store d1 RECENT_SEARCHES_FILE
                   (JsonFile (JList (skipn (S (List.length recent) - 100)
                                       (recent ++ [entry])))))).
  { unfold result, increment_search_count.
    rewrite T. cbn [negb py_contains]. rewrite Hp, E1, E2, E3.
    cbn [negb]. rewrite E4. cbn [snd]. rewrite E6, E5, E7. cbn [snd].
    do 4 f_equal. rewrite length_app. cbn [List.length].
    rewrite Nat.add_1_r.
    destruct (100 <? S (List.length recent))%nat eqn:L; [reflexivity|].
    apply Nat.ltb_ge in L.
    replace (S (List.length recent) - 100)%nat with 0%nat by lia.
    reflexivity. }
  rewrite R. cbn [fst snd]. split; [reflexivity|]. split; [reflexivity|].
  split; [reflexivity|].
  intros p P1 P2. unfold store, d1, store.
  destruct (String.eqb_spec p RECENT_SEARCHES_FILE); [contradiction|].
  destruct (String.eqb_spec p LOCATIONS_FILE); [contradiction|].
  reflexivity.
Qed.

Lemma recorded_search_raises_one_count_witness :
  let result :=
    increment_search_count ascii_ops (fun q => q + 1) (always Written)
      "2024-01-01T00:00:00"
      (Some (JObj [("placeName", JStr "Lab Block")])) campus_disk in
  let entry :=
    JObj [("timestamp", JStr "2024-01-01T00:00:00");
          ("location",
           JObj [("name", JStr "Lab Block");
                 ("coordinates",
                  JList [JFloat (1298 # 100); JFloat (7760 # 100)]);
                 ("image_url", JNull)])] in
  fst result = search_recorded
  /\ snd result LOCATIONS_FILE
     = JsonFile
         (JList ([library]
                 ++ JObj (set_field "search_count" (JInt 1)
                            [("_id", JObj [("$oid", JStr "65a1")]);
                             ("name", JStr "Lab Block");
                             ("coordinates",
                              JList [JFloat (1298 # 100);
                                     JFloat (7760 # 100)])])
                 :: [canteen]))
  /\ snd result RECENT_SEARCHES_FILE
     = JsonFile (JList (skipn (1 - 100) ([] ++ [entry])))
  /\ forall p, p <> LOCATIONS_FILE -> p <> RECENT_SEARCHES_FILE ->
       snd result p = campus_disk p.
Proof.
  apply (@recorded_search_raises_one_count ascii_ops (fun q => q + 1)
           (always Written) "2024-01-01T00:00:00" campus_disk
           [("placeName", JStr "Lab Block")] "Lab Block"
           [library] [canteen]
           [("_id", JObj [("$oid", JStr "65a1")]);
            ("name", JStr "Lab Block");
            ("coordinates",
             JList [JFloat (1298 # 100); JFloat (7760 # 100)])]
           (JInt 0) (JInt 1)
           (JList [JFloat (1298 # 100); JFloat (7760 # 100)]) []);
    try reflexivity.
  intros x [<-|[]]. exists (JStr "Library"). split; [reflexivity|discriminate].
Defined.

(** X17.  The recent searches stay bounded: whenever a search is
    reported as recorded and the recent searches file can be written,
    the file afterwards holds a list of at least one and at most 100
    entries whose last entry is the new one, stamped with the time of the
    request, however long the list was before. *)
Theorem recent_searches_stay_bounded
    (ops : text_ops) (float_succ : Q -> Q)
    (attempt : string -> write_outcome) (now : string)
    (request : option json) (d : disk) :
  fst (increment_search_count ops float_succ attempt now request d)
  = search_recorded ->
  attempt RECENT_SEARCHES_FILE = Written ->
  exists kept entry,
    snd (increment_search_count ops float_succ attempt now request d)
      RECENT_SEARCHES_FILE = JsonFile (JList kept)
    /\ (1 <= List.length kept <= 100)%nat
    /\ last kept JNull = entry
    /\ dict_get entry "timestamp" JNull = Some (JStr now).
Proof.
  intros H Wr.
  destruct (search_recorded_inv ops float_succ attempt now request d H)
    as (fields & place_name & locs & found & locations & entry & recent
        & _ & _ & _ & _ & Hn & _ & Hs).
  rewrite Hs. unfold write_json at 1. rewrite Wr. cbn [snd]. unfold store.
  cbn [String.eqb]. rewrite String.eqb_refl.
  eexists. exists entry. split; [reflexivity|].
  assert (Hlen : List.length (recent ++ [entry]) = S (List.length recent)).
  { rewrite length_app. cbn. lia. }
  split.
  - rewrite length_skipn, Hlen. lia.
  - assert (Hk : skipn (List.length (recent ++ [entry]) - 100)
                   (recent ++ [entry])
                 = skipn (List.length (recent ++ [entry]) - 100) recent
                   ++ [entry]).
    { rewrite skipn_app.
      replace (List.length (recent ++ [entry]) - 100 - List.length recent)%nat
        with 0%nat by (rewrite Hlen; lia).
      reflexivity. }
    rewrite Hk, last_last. split; [reflexivity|].
    unfold new_search in Hn.
    destruct found as [| | | | | |ffields]; try discriminate.
    destruct (assoc "name" ffields); [|discriminate].
    destruct (assoc "coordinates" ffields); [|discriminate].
    injection Hn as <-. reflexivity.
Qed.

Lemma recent_searches_stay_bounded_witness :
  exists kept entry,
    snd (increment_search_count ascii_ops (fun q => q + 1) (always Written)
           "2024-01-01T00:00:00"
           (Some (JObj [("placeName", JStr "Library")])) campus_disk)
      RECENT_SEARCHES_FILE = JsonFile (JList kept)
    /\ (1 <= List.length kept <= 100)%nat
    /\ last kept JNull = entry
    /\ dict_get entry "timestamp" JNull
       = Some (JStr "2024-01-01T00:00:00").
Proof.
  apply (@recent_searches_stay_bounded ascii_ops (fun q => q + 1)
           (always Written) "2024-01-01T00:00:00"
           (Some (JObj [("placeName", JStr "Library")])) campus_disk);
    reflexivity.
Defined.

(** X18.  A request that is refused changes nothing: when the answer is
    "Place name is required" (400) or "Location not found" (404), the
    disk is as it was. *)
Theorem refused_requests_write_nothing
    (ops : text_ops) (float_succ : Q -> Q)
    (attempt : string -> write_outcome) (now : string)
    (request : option json) (d : disk) :
  fst (increment_search_count ops float_succ attempt now request d)
    = place_name_required
  \/ fst (increment_search_count ops float_succ attempt now request d)
     = location_not_found ->
  snd (increment_search_count ops float_succ attempt now request d) = d.
Proof.
  unfold increment_search_count.
  destruct request as [data|]; [|reflexivity].
  destruct (negb (truthy data)); [reflexivity|].
  destruct (py_contains data "placeName") as [[|]|]; try reflexivity.
  destruct data as [| | | | | |fields]; try reflexivity.
  destruct (assoc "placeName" fields) as [place_name|]; [|reflexivity].
  destruct (py_iter ops (read_json d LOCATIONS_FILE)) as [locs|];
    [|reflexivity].
  destruct (find_and_count float_succ place_name locs)
    as [[[location_found locations]|]|]; try reflexivity.
  destruct (negb (truthy location_found)); [reflexivity|].
  destruct (new_search now location_found) as [entry|];
    [|intros [H|H]; discriminate].
  destruct (read_json _ RECENT_SEARCHES_FILE);
    intros [H|H]; discriminate.
Qed.

Lemma refused_requests_write_nothing_witness :
  snd (increment_search_count ascii_ops (fun q => q + 1) (always Written)
         "2024-01-01T00:00:00"
         (Some (JObj [("placeName", JStr "Hostel")])) campus_disk)
  = campus_disk.
Proof.
  apply (@refused_requests_write_nothing ascii_ops (fun q => q + 1)
           (always Written) "2024-01-01T00:00:00"
           (Some (JObj [("placeName", JStr "Hostel")])) campus_disk).
  right. reflexivity.
Defined.

(** X19.  The count is saved before the recent searches are built: when
    the location found has no ["coordinates"], the answer is "Server
    error" (500), and yet the locations file, if it can be written,
    already holds the raised count; the recent searches are as they
    were. *)
Theorem count_is_saved_despite_server_error
    (ops : text_ops) (float_succ : Q -> Q)
    (attempt : string -> write_outcome) (now : string) (d : disk)
    (request : list (string * json)) (place : string)
    (before after : list json) (fields : list (string * json))
    (c c' : json) :
  assoc "placeName" request = Some (JStr place) ->
  d LOCATIONS_FILE = JsonFile (JList (before ++ JObj fields :: after)) ->
  (forall x, In x before -> not_named place x) ->
  assoc "name" fields = Some (JStr place) ->
  dict_get (JObj fields) "search_count" (JInt 0) = Some c ->
  py_add1 float_succ c = Some c' ->
  assoc "coordinates" fields = None ->
  attempt LOCATIONS_FILE = Written ->
  let result :=
    increment_search_count ops float_succ attempt now
      (Some (JObj request)) d in
  fst result = server_error
  /\ snd result LOCATIONS_FILE
     = JsonFile (JList (before
                        ++ JObj (set_field "search_count" c' fields)
                        :: after))
  /\ snd result RECENT_SEARCHES_FILE = d RECENT_SEARCHES_FILE.
Proof.
  intros Hp Hd Hb Hn Hc Hc' Hco Wl result.
  set (found := JObj (set_field "search_count" c' fields)).
  set (locations := before ++ found :: after).
  set (d1 := store d LOCATIONS_FILE (JsonFile (JList locations))).
  assert (E1 : py_iter ops (read_json d LOCATIONS_FILE)
               = Some (before ++ JObj fields :: after)).
  { unfold read_json. rewrite Hd. reflexivity. }
  assert (E2 : find_and_count float_succ (JStr place)
                 (before ++ JObj fields :: after)
               = Some (Some (found, locations))).
  { apply find_and_count_found with (c := c); assumption. }
  assert (E3 : truthy found = true).
  { unfold found. cbn [truthy].
    destruct fields as [|[k v] rest]; cbn [set_field]; [reflexivity|].
    destruct (k =? "search_count")%string; reflexivity. }
  assert (E4 : write_json attempt d LOCATIONS_FILE (JList locations)
               = (true, d1)).
  { unfold write_json. rewrite Wl. reflexivity. }
  assert (E6 : new_search now found = None).
  { unfold new_search, found.
    rewrite !assoc_set_field_other by discriminate. rewrite Hn, Hco.
    reflexivity. }
  assert (T : truthy (JObj request) = true).
  { destruct request; [discriminate|reflexivity]. }
  assert (R : result = (server_error, d1)).
  { unfold result, increment_search_count.
    rewrite T. cbn [negb py_contains]. rewrite Hp, E1, E2, E3.
    cbn [negb]. rewrite E4. cbn [snd]. rewrite E6. reflexivity. }
  rewrite R. cbn [fst snd]. repeat split.
Qed.

Lemma count_is_saved_despite_server_error_witness :
  let result :=
    increment_search_count ascii_ops (fun q => q + 1) (always Written)
      "2024-01-01T00:00:00"
      (Some (JObj [("placeName", JStr "Canteen")])) campus_disk in
  fst result = server_error
  /\ snd result LOCATIONS_FILE
     = JsonFile
         (JList ([library; lab]
                 ++ JObj (set_field "search_count" (JInt 8)
                            [("name", JStr "Canteen");
                             ("search_count", JInt 7)])
                 :: []))
  /\ snd result RECENT_SEARCHES_FILE = campus_disk RECENT_SEARCHES_FILE.
Proof.
  apply (@count_is_saved_despite_server_error ascii_ops (fun q => q + 1)
           (always Written) "2024-01-01T00:00:00" campus_disk
           [("placeName", JStr "Canteen")] "Canteen"
           [library; lab] []
           [("name", JStr "Canteen"); ("search_count", JInt 7)]
           (JInt 7) (JInt 8));
    try reflexivity.
  intros x [<-|[<-|[]]].
  - exists (JStr "Library"). split; [reflexivity|discriminate].
  - exists (JStr "Lab Block"). split; [reflexivity|discriminate].
Defined.

(** X20.  The results of the two writes are not looked at: when neither
    file can be opened for writing, a search on a well-formed file is
    still reported as recorded, and the disk is as it was. *)
Theorem unwritten_search_is_reported_recorded
    (ops : text_ops) (float_succ : Q -> Q)
    (attempt : string -> write_outcome) (now : string) (d : disk)
    (request : list (string * json)) (place : string)
    (before after : list json) (fields : list (string * json))
    (c c' coordinates : json) (recent : list json) :
  assoc "placeName" request = Some (JStr place) ->
  d LOCATIONS_FILE = JsonFile (JList (before ++ JObj fields :: after)) ->
  (forall x, In x before -> not_named place x) ->
  assoc "name" fields = Some (JStr place) ->
  dict_get (JObj fields) "search_count" (JInt 0) = Some c ->
  py_add1 float_succ c = Some c' ->
  assoc "coordinates" fields = Some coordinates ->
  read_json d RECENT_SEARCHES_FILE = JList recent ->
  attempt LOCATIONS_FILE = Refused ->
  attempt RECENT_SEARCHES_FILE = Refused ->
  increment_search_count ops float_succ attempt now (Some (JObj request)) d
  = (search_recorded, d).
Proof.
  intros Hp Hd Hb Hn Hc Hc' Hco Hr Wl Wr.
  set (found := JObj (set_field "search_count" c' fields)).
  set (locations := before ++ found :: after).
  assert (E1 : py_iter ops (read_json d LOCATIONS_FILE)
               = Some (before ++ JObj fields :: after)).
  { unfold read_json. rewrite Hd. reflexivity. }
  assert (E2 : find_and_count float_succ (JStr place)
                 (before ++ JObj fields :: after)
               = Some (Some (found, locations))).
  { apply find_and_count_found with (c := c); assumption. }
  assert (E3 : truthy found = true).
  { unfold found. cbn [truthy].
    destruct fields as [|[k v] rest]; cbn [set_field]; [reflexivity|].
    destruct (k =? "search_count")%string; reflexivity. }
  assert (E4 : write_json attempt d LOCATIONS_FILE (JList locations)
               = (false, d)).
  { unfold write_json. rewrite Wl. reflexivity. }
  assert (E6 : exists entry, new_search now found = Some entry).
  { unfold new_search, found.
    rewrite !assoc_set_field_other by discriminate. rewrite Hn, Hco.
    eauto. }
  destruct E6 as [entry E6].
  assert (E7 : forall data,
            write_json attempt d RECENT_SEARCHES_FILE data = (false, d)).
  { intros data. unfold write_json. rewrite Wr. reflexivity. }
  assert (T : truthy (JObj request) = true).
  { destruct request; [discriminate|reflexivity]. }
  unfold increment_search_count.
  rewrite T. cbn [negb py_contains]. rewrite Hp, E1, E2, E3.
  cbn [negb]. rewrite E4. cbn [snd]. rewrite E6, Hr, E7. reflexivity.
Qed.

Lemma unwritten_search_is_reported_recorded_witness :
  increment_search_count ascii_ops (fun q => q + 1) (always Refused)
    "2024-01-01T00:00:00" (Some (JObj [("placeName", JStr "Library")]))
    campus_disk
  = (search_recorded, campus_disk).
Proof.
  apply (@unwritten_search_is_reported_recorded ascii_ops (fun q => q + 1)
           (always Refused) "2024-01-01T00:00:00" campus_disk
           [("placeName", JStr "Library")] "Library" [] [lab; canteen]
           [("_id", JObj [("$oid", JStr "65a0")]);
            ("name", JStr "Library");
            ("coordinates", JList [JFloat (1297 # 100); JFloat (7759 # 100)]);
            ("search_count", JInt 3)]
           (JInt 3) (JInt 4)
           (JList [JFloat (1297 # 100); JFloat (7759 # 100)]) []);
    try reflexivity.
  intros x [].
Defined.




(** ** The endpoints agree *)







(** * Conversion of extended JSON *)

Lemma map_or_raise_forall2 A B (f : A -> option B) (l : list A) :
  forall l', map_or_raise f l = Some l' <->
             Forall2 (fun x y => f x = Some y) l l'.
Proof.
  induction l as [|x l IH]; intros l'; cbn.
  - split; [intros H; injection H as <-; constructor|].
    intros H. inversion H. reflexivity.
  - destruct (f x) as [y|] eqn:Hx.
    + destruct (map_or_raise f l) as [rest|] eqn:Hl.
      * split.
        { intros H. injection H as <-. constructor; [exact Hx|].
          apply IH. reflexivity. }
        { intros H. inversion H as [|x0 y0 l0 l0' Hy Hr]; subst.
          apply IH in Hr. congruence. }
      * split; [discriminate|].
        intros H. inversion H as [|x0 y0 l0 l0' Hy Hr]; subst.
        apply IH in Hr. discriminate.
    + split; [discriminate|].
      intros H. inversion H as [|x0 y0 l0 l0' Hy Hr]; subst. congruence.
Qed.

Section Conversion.

Context {Oid Date : Type}.
Variable object_id : bson Oid Date -> option Oid.
Variable parse_date : bson Oid Date -> option Date.

Local Notation "'convert'" := (convert_json_to_bson object_id parse_date).

(** The conversion of a dict, step by step. *)
Lemma convert_doc fields :
  convert (BDoc fields)
  = match marked object_id "_id" "$oid" fields,
          marked parse_date "timestamp" "$date" fields with
    | Some None, _ | _, Some None => None
    | new_id, new_timestamp =>
        option_map (@BDoc Oid Date)
          (map_or_raise
             (convert_item object_id parse_date new_id new_timestamp) fields)
    end.
Proof.
  cbn [convert_json_to_bson].
  destruct (marked object_id "_id" "$oid" fields) as [[oid|]|];
    destruct (marked parse_date "timestamp" "$date" fields) as [[t|]|];
    reflexivity.
Qed.

Lemma convert_other d : is_doc d = false -> convert d = Some d.
Proof. destruct d; try reflexivity. discriminate. Qed.

(** Induction over documents, through their lists and items. *)
Lemma bson_induction (P : bson Oid Date -> Prop) :
  P (BNull Oid Date) ->
  (forall b, P (BBool Oid Date b)) ->
  (forall z, P (BInt Oid Date z)) ->
  (forall q, P (BFloat Oid Date q)) ->
  (forall s, P (BStr Oid Date s)) ->
  (forall items, Forall P items -> P (BList items)) ->
  (forall fields, Forall (fun kv => P (snd kv)) fields -> P (BDoc fields)) ->
  (forall oid, P (BObjectId Date oid)) ->
  (forall t, P (BDate Oid t)) ->
  forall d, P d.
Proof.
  intros Hnull Hbool Hint Hfloat Hstr Hlist Hdoc Hoid Hdate.
  exact (fix rec (d : bson Oid Date) : P d :=
           match d with
           | BNull _ _ => Hnull
           | BBool _ _ b => Hbool b
           | BInt _ _ z => Hint z
           | BFloat _ _ q => Hfloat q
           | BStr _ _ s => Hstr s
           | BList items =>
               Hlist items
                 ((fix all (l : list (bson Oid Date)) : Forall P l :=
                     match l with
                     | [] => Forall_nil P
                     | x :: l' => Forall_cons x (rec x) (all l')
                     end) items)
           | BDoc fields =>
               Hdoc fields
                 ((fix all (l : list (string * bson Oid Date))
                     : Forall (fun kv => P (snd kv)) l :=
                     match l with
                     | [] => Forall_nil _
                     | kv :: l' =>
                         Forall_cons (P := fun kv => P (snd kv)) kv
                           (rec (snd kv)) (all l')
                     end) fields)
           | BObjectId _ oid => Hoid oid
           | BDate _ t => Hdate t
           end).
Qed.

Lemma bassoc_none_keys (k : string) (l : list (string * bson Oid Date)) :
  bassoc k l = None <-> ~ In k (map fst l).
Proof.
  induction l as [|[k' v] l IH]; cbn; [tauto|].
  destruct (String.eqb_spec k' k) as [->|N].
  - split; [discriminate|]. intros H. exfalso. apply H. left. reflexivity.
  - rewrite IH. split; [intros H [E|I]; [congruence|tauto] | tauto].
Qed.

Lemma convert_item_key new_id new_timestamp item item' :
  convert_item object_id parse_date new_id new_timestamp item = Some item' ->
  fst item' = fst item.
Proof.
  unfold convert_item.
  destruct (replacement new_id new_timestamp (fst item)).
  - intros H. injection H as <-. reflexivity.
  - destruct (convert_value object_id parse_date (snd item)); cbn;
      [|discriminate].
    intros H. injection H as <-. reflexivity.
Qed.

Lemma converted_keys new_id new_timestamp fields : forall fields',
  Forall2 (fun x y => convert_item object_id parse_date new_id
                        new_timestamp x = Some y) fields fields' ->
  map fst fields' = map fst fields.
Proof.
  induction fields as [|item fields IH]; intros fields' H;
    inversion H as [|x y l l' Hx Hl]; subst; [reflexivity|].
  cbn. erewrite convert_item_key by exact Hx. erewrite IH by exact Hl.
  reflexivity.
Qed.

(** What sits under a key after the loop. *)
Lemma converted_bassoc new_id new_timestamp k fields : forall fields',
  Forall2 (fun x y => convert_item object_id parse_date new_id
                        new_timestamp x = Some y) fields fields' ->
  match bassoc k fields with
  | Some v =>
      exists v',
        bassoc k fields' = Some v'
        /\ convert_item object_id parse_date new_id new_timestamp (k, v)
           = Some (k, v')
  | None => bassoc k fields' = None
  end.
Proof.
  induction fields as [|[k0 v0] fields IH]; intros fields' H;
    inversion H as [|x [k1 v1] l l' Hx Hl]; subst; [reflexivity|].
  pose proof Hx as Hk. apply convert_item_key in Hk. cbn in Hk. subst k1.
  cbn [bassoc]. destruct (String.eqb_spec k0 k) as [->|N].
  - exists v1. split; [reflexivity | exact Hx].
  - apply IH, Hl.
Qed.

(** When the conversion of a dict returns, and what. *)
Lemma convert_doc_spec fields d' :
  convert (BDoc fields) = Some d'
  <-> marked object_id "_id" "$oid" fields <> Some None
      /\ marked parse_date "timestamp" "$date" fields <> Some None
      /\ exists fields',
           d' = BDoc fields'
           /\ Forall2
                (fun x y =>
                   convert_item object_id parse_date
                     (marked object_id "_id" "$oid" fields)
                     (marked parse_date "timestamp" "$date" fields) x
                   = Some y) fields fields'.
Proof.
  rewrite convert_doc.
  assert (G : forall new_id new_timestamp,
    option_map (@BDoc Oid Date)
      (map_or_raise
         (convert_item object_id parse_date new_id new_timestamp) fields)
    = Some d'
    <-> exists fields',
          d' = BDoc fields'
          /\ Forall2
               (fun x y =>
                  convert_item object_id parse_date new_id new_timestamp x
                  = Some y) fields fields').
  { intros new_id new_timestamp. split.
    - destruct (map_or_raise _ fields) as [fields'|] eqn:Hm; cbn;
        [|discriminate].
      intros H. injection H as <-. exists fields'.
      split; [reflexivity | apply map_or_raise_forall2, Hm].
    - intros (fields' & -> & H). apply map_or_raise_forall2 in H.
      rewrite H. reflexivity. }
  destruct (marked object_id "_id" "$oid" fields) as [[oid|]|];
    destruct (marked parse_date "timestamp" "$date" fields) as [[t|]|];
    cbv zeta; rewrite ?G;
    (split;
     [ try discriminate; intros H; repeat split; try discriminate; exact H
     | intros (N1 & N2 & H); try congruence; exact H ]).
Qed.

(** The conversion keeps the kind of a value and the keys of a dict. *)
Lemma convert_shape d d' :
  convert d = Some d' ->
  is_doc d' = is_doc d
  /\ forall fields, d = BDoc fields ->
       exists fields', d' = BDoc fields' /\ map fst fields' = map fst fields.
Proof.
  destruct d as [| | | | | |fields| |];
    try (intros H; injection H as <-; split;
         [reflexivity | intros f Hf; discriminate]).
  intros H. apply convert_doc_spec in H.
  destruct H as (_ & _ & fields' & -> & H).
  split; [reflexivity|]. intros f Hf. injection Hf as <-.
  exists fields'. split; [reflexivity | eapply converted_keys, H].
Qed.

Lemma convert_value_shape v v' :
  convert_value object_id parse_date v = Some v' ->
  is_doc v' = is_doc v
  /\ forall inner, v = BDoc inner ->
       exists inner', v' = BDoc inner' /\ map fst inner' = map fst inner.
Proof.
  destruct v as [| | | | |elements|inner| |]; cbn [convert_value];
    try (intros H; injection H as <-; split;
         [reflexivity | intros f Hf; discriminate]).
  - match goal with
    | |- context [map_or_raise ?f elements] =>
        destruct (map_or_raise f elements); cbn;
        [|intros H; discriminate H]
    end.
    intros H. injection H as <-. split; [reflexivity|].
    intros f Hf. discriminate.
  - apply convert_shape.
Qed.

Lemma replacement_plain new_id new_timestamp k v :
  replacement new_id new_timestamp k = Some v ->
  (exists oid : Oid, v = BObjectId Date oid) \/ (exists t : Date, v = BDate Oid t).
Proof.
  unfold replacement.
  destruct (k =? "_id")%string.
  - destruct new_id as [[oid|]|]; try discriminate.
    intros H. injection H as <-. eauto.
  - destruct (k =? "timestamp")%string; [|discriminate].
    destruct new_timestamp as [[t|]|]; try discriminate.
    intros H. injection H as <-. eauto.
Qed.

(** After the loop no marker is left under the two keys. *)
Lemma marked_after A (build : bson Oid Date -> option A) key marker
    new_id new_timestamp fields fields' :
  Forall2 (fun x y => convert_item object_id parse_date new_id
                        new_timestamp x = Some y) fields fields' ->
  (replacement new_id new_timestamp key = None ->
   marked build key marker fields = None) ->
  marked build key marker fields' = None.
Proof.
  intros H Hrep. unfold marked in *.
  pose proof H as Hb. apply converted_bassoc with (k := key) in Hb.
  destruct (bassoc key fields) as [v|].
  - destruct Hb as (v' & Hv' & Hitem). rewrite Hv'.
    unfold convert_item in Hitem. cbn [fst snd] in Hitem.
    destruct (replacement new_id new_timestamp key) as [r|] eqn:Hr.
    + injection Hitem as <-.
      apply replacement_plain in Hr.
      destruct Hr as [[oid ->]|[t ->]]; reflexivity.
    + specialize (Hrep eq_refl).
      destruct (convert_value object_id parse_date v) as [w|] eqn:Hw;
        [|discriminate].
      cbn in Hitem. injection Hitem as <-.
      apply convert_value_shape in Hw. destruct Hw as [Hkind Hkeys].
      destruct v as [| | | | | |inner| |];
        try (destruct w; try reflexivity; discriminate).
      destruct (Hkeys inner eq_refl) as (inner' & -> & Hk).
      destruct (bassoc marker inner) eqn:Hin; [discriminate|].
      apply bassoc_none_keys in Hin. rewrite <- Hk in Hin.
      apply bassoc_none_keys in Hin. rewrite Hin. reflexivity.
  - rewrite Hb. reflexivity.
Qed.

Lemma replacement_id_none (new_timestamp : option (option Date)) fields :
  marked object_id "_id" "$oid" fields <> Some None ->
  replacement (marked object_id "_id" "$oid" fields) new_timestamp "_id"
  = None ->
  marked object_id "_id" "$oid" fields = None.
Proof.
  unfold replacement. cbn [String.eqb Ascii.eqb Bool.eqb andb].
  destruct (marked object_id "_id" "$oid" fields) as [[oid|]|];
    [discriminate | congruence | reflexivity].
Qed.

Lemma replacement_timestamp_none (new_id : option (option Oid)) fields :
  marked parse_date "timestamp" "$date" fields <> Some None ->
  replacement new_id (marked parse_date "timestamp" "$date" fields)
    "timestamp" = None ->
  marked parse_date "timestamp" "$date" fields = None.
Proof.
  unfold replacement. cbn [String.eqb Ascii.eqb Bool.eqb andb].
  destruct (marked parse_date "timestamp" "$date" fields) as [[t|]|];
    [discriminate | congruence | reflexivity].
Qed.

End Conversion.

(** ** A later pass

    The constructors of the first pass, and any other behaviour of them
    for a later one. *)
Section Again.
Context {Oid Date : Type}.
Variable object_id : bson Oid Date -> option Oid.
Variable parse_date : bson Oid Date -> option Date.
Variable other_id : bson Oid Date -> option Oid.
Variable other_date : bson Oid Date -> option Date.
Local Notation "'convert'" := (convert_json_to_bson object_id parse_date).
Local Notation "'convert_again'" :=
  (convert_json_to_bson other_id other_date).

Lemma marked_none A B (b1 : bson Oid Date -> option A)
    (b2 : bson Oid Date -> option B) key marker fields :
  marked b1 key marker fields = None -> marked b2 key marker fields = None.
Proof.
  unfold marked. destruct (bassoc key fields) as [[| | | | | |inner| |]|];
    try reflexivity.
  destruct (bassoc marker inner); [discriminate | reflexivity].
Qed.

(** A dict that was converted is returned as it is by a later pass,
    provided its values are. *)
Lemma converted_doc_is_fixed fields fields' new_id new_timestamp :
  new_id = marked object_id "_id" "$oid" fields ->
  new_timestamp = marked parse_date "timestamp" "$date" fields ->
  new_id <> Some None -> new_timestamp <> Some None ->
  Forall2 (fun x y => convert_item object_id parse_date new_id
                        new_timestamp x = Some y) fields fields' ->
  (forall item', In item' fields' ->
     convert_value other_id other_date (snd item') = Some (snd item')) ->
  convert_again (BDoc fields') = Some (BDoc fields').
Proof.
  intros Eid Ets Nid Nts H Hfix. rewrite convert_doc.
  assert (M1 : marked other_id "_id" "$oid" fields' = None).
  { eapply marked_after; [exact H|]. subst. intros Hr.
    apply marked_none with (b1 := object_id).
    revert Hr. apply replacement_id_none, Nid. }
  assert (M2 : marked other_date "timestamp" "$date" fields' = None).
  { eapply marked_after; [exact H|]. subst. intros Hr.
    apply marked_none with (b1 := parse_date).
    revert Hr. apply replacement_timestamp_none, Nts. }
  rewrite M1, M2.
  assert (F : map_or_raise (convert_item other_id other_date None None)
                fields' = Some fields').
  { apply map_or_raise_forall2. clear - Hfix.
    induction fields' as [|[k v] rest IH]; constructor.
    - unfold convert_item. cbn [fst snd].
      assert (R : replacement None None k = None :> option (bson Oid Date)).
      { unfold replacement. destruct (k =? "_id")%string; [reflexivity|].
        destruct (k =? "timestamp")%string; reflexivity. }
      pose proof (Hfix (k, v) (or_introl eq_refl)) as Hv. cbn [snd] in Hv.
      rewrite R, Hv. reflexivity.
    - apply IH. intros item' Hin. apply Hfix. right. exact Hin. }
  cbv zeta. rewrite F. reflexivity.
Qed.

Lemma convert_element_fixed e e' :
  (forall d', convert e = Some d' -> convert_again d' = Some d') ->
  convert_element object_id parse_date e = Some e' ->
  convert_element other_id other_date e' = Some e'.
Proof.
  intros IH H.
  destruct e as [| | | | | |fields| |];
    try (injection H as <-; reflexivity).
  cbn [convert_element] in H. pose proof H as S.
  apply convert_shape in S. destruct S as [_ S].
  destruct (S fields eq_refl) as (fields' & -> & _).
  cbn [convert_element]. apply IH, H.
Qed.

Lemma convert_elements_fixed elements : forall elements',
  Forall
    (fun e => forall d', convert e = Some d' -> convert_again d' = Some d')
    elements ->
  Forall2 (fun x y => convert_element object_id parse_date x = Some y)
    elements elements' ->
  Forall2 (fun x y => convert_element other_id other_date x = Some y)
    elements' elements'.
Proof.
  induction elements as [|e elements IH]; intros elements' F H;
    inversion H as [|x y l l' Hx Hl]; subst; constructor.
  - apply convert_element_fixed with (e := e); [|exact Hx].
    inversion F; assumption.
  - apply IH; [inversion F; assumption | exact Hl].
Qed.

Lemma convert_value_fixed v v' :
  (forall d', convert v = Some d' -> convert_again d' = Some d') ->
  (forall items, v = BList items ->
     Forall
       (fun e =>
          forall d', convert e = Some d' -> convert_again d' = Some d')
       items) ->
  convert_value object_id parse_date v = Some v' ->
  convert_value other_id other_date v' = Some v'.
Proof.
  intros IH IHl H.
  destruct v as [| | | | |elements|fields| |];
    try (injection H as <-; reflexivity).
  - cbn [convert_value] in H.
    destruct (map_or_raise (convert_element object_id parse_date) elements)
      as [elements'|] eqn:Hm; [|discriminate].
    cbn in H. injection H as <-. apply map_or_raise_forall2 in Hm.
    apply convert_elements_fixed in Hm; [|apply IHl; reflexivity].
    apply map_or_raise_forall2 in Hm. cbn [convert_value].
    rewrite Hm. reflexivity.
  - cbn [convert_value] in H. pose proof H as S.
    apply convert_shape in S. destruct S as [_ S].
    destruct (S fields eq_refl) as (fields' & -> & _).
    cbn [convert_value]. apply IH, H.
Qed.

Lemma convert_fixed_everywhere d :
  (forall d', convert d = Some d' -> convert_again d' = Some d')
  /\ (forall items, d = BList items ->
        Forall
          (fun e =>
             forall d', convert e = Some d' -> convert_again d' = Some d')
          items).
Proof.
  induction d as [| | | | |items IH|fields IH| |] using bson_induction;
    try (split; [intros d' H; injection H as <-; reflexivity
                | intros items' E; discriminate]).
  - split; [intros d' H; injection H as <-; reflexivity|].
    intros items' E. injection E as <-.
    apply Forall_impl with (2 := IH). intros e He. apply He.
  - split; [|intros items E; discriminate].
    intros d' H. apply convert_doc_spec in H.
    destruct H as (N1 & N2 & fields' & -> & H).
    eapply converted_doc_is_fixed;
      [reflexivity | reflexivity | exact N1 | exact N2 | exact H |].
    clear N1 N2.
    revert H IH.
    generalize (marked object_id "_id" "$oid" fields) as new_id.
    generalize (marked parse_date "timestamp" "$date" fields)
      as new_timestamp.
    intros new_timestamp new_id H. revert fields' H.
    induction fields as [|item fields IHf]; intros fields' H IH item' Hin;
      inversion H as [|x y l l' Hx Hl]; subst; [destruct Hin|].
    destruct Hin as [<-|Hin].
    + unfold convert_item in Hx.
      destruct (replacement new_id new_timestamp (fst item)) as [r|] eqn:Hr.
      * injection Hx as <-. cbn [snd]. apply replacement_plain in Hr.
        destruct Hr as [[oid ->]|[t ->]]; reflexivity.
      * destruct (convert_value object_id parse_date (snd item)) as [w|]
          eqn:Hw; [|discriminate].
        cbn in Hx. injection Hx as <-. cbn [snd].
        inversion IH as [|a b [Ha Hb] Hrest]; subst.
        eapply convert_value_fixed; [exact Ha | exact Hb | exact Hw].
    + inversion IH; subst. eapply IHf; eassumption.
Qed.

End Again.

Lemma marked_some Oid Date A (build : bson Oid Date -> option A)
    key marker fields r :
  marked build key marker fields = Some r ->
  exists inner x,
    bassoc key fields = Some (BDoc inner)
    /\ bassoc marker inner = Some x /\ r = build x.
Proof.
  unfold marked.
  destruct (bassoc key fields) as [[| | | | | |inner| |]|]; try discriminate.
  destruct (bassoc marker inner) as [x|] eqn:Hx; [|discriminate].
  intros H. injection H as <-. exists inner, x.
  split; [reflexivity|]. split; [exact Hx | reflexivity].
Qed.

(** X23.  When [convert_json_to_bson] returns for a dict, the result is a
    dict with the same keys in the same order; and if [_id] held a dict
    with [$oid], [ObjectId] accepted its value and [_id] now holds that
    identifier, and likewise [timestamp] holds the parsed [$date]. *)
Theorem conversion_keeps_keys_and_replaces_markers (Oid Date : Type)
    (object_id : bson Oid Date -> option Oid)
    (parse_date : bson Oid Date -> option Date)
    (fields : list (string * bson Oid Date)) (d' : bson Oid Date) :
  convert_json_to_bson object_id parse_date (BDoc fields) = Some d' ->
  exists fields',
    d' = BDoc fields'
    /\ map fst fields' = map fst fields
    /\ (forall r, marked object_id "_id" "$oid" fields = Some r ->
          exists oid,
            r = Some oid /\ bassoc "_id" fields' = Some (BObjectId Date oid))
    /\ (forall r, marked parse_date "timestamp" "$date" fields = Some r ->
          exists t,
            r = Some t /\ bassoc "timestamp" fields' = Some (BDate Oid t)).
Proof.
  intros H. apply convert_doc_spec in H.
  destruct H as (N1 & N2 & fields' & -> & H).
  exists fields'. split; [reflexivity|].
  split; [eapply converted_keys, H|]. split.
  - intros [oid|] Hr; [|congruence]. exists oid. split; [reflexivity|].
    pose proof H as Hb. apply converted_bassoc with (k := "_id") in Hb.
    pose proof Hr as Hm. apply marked_some in Hm.
    destruct Hm as (inner & x & Hk & _ & _). rewrite Hk in Hb.
    destruct Hb as (v' & Hv' & Hitem). rewrite Hv'.
    rewrite Hr in Hitem. unfold convert_item, replacement in Hitem.
    cbn in Hitem. congruence.
  - intros [t|] Hr; [|congruence]. exists t. split; [reflexivity|].
    pose proof H as Hb. apply converted_bassoc with (k := "timestamp") in Hb.
    pose proof Hr as Hm. apply marked_some in Hm.
    destruct Hm as (inner & x & Hk & _ & _). rewrite Hk in Hb.
    destruct Hb as (v' & Hv' & Hitem). rewrite Hv'.
    rewrite Hr in Hitem. unfold convert_item, replacement in Hitem.
    cbn in Hitem. congruence.
Qed.

Lemma conversion_keeps_keys_and_replaces_markers_witness :
  convert_json_to_bson sample_object_id sample_parse_date stored_search
  = Some converted_search
  /\ exists fields',
       converted_search = BDoc fields'
       /\ map fst fields' = map fst stored_fields
       /\ (forall r,
             marked sample_object_id "_id" "$oid" stored_fields = Some r ->
             exists oid,
               r = Some oid
               /\ bassoc "_id" fields' = Some (BObjectId string oid))
       /\ (forall r,
             marked sample_parse_date "timestamp" "$date" stored_fields
             = Some r ->
             exists t,
               r = Some t
               /\ bassoc "timestamp" fields' = Some (BDate string t)).
Proof.
  split; [reflexivity|].
  apply (@conversion_keeps_keys_and_replaces_markers string string
           sample_object_id sample_parse_date stored_fields converted_search).
  reflexivity.
Defined.

(** X24.  What [convert_json_to_bson] returns holds no marker it would
    act on: a later pass over the result returns it as it is, whatever
    [ObjectId] and the date parser would do, even if they raised on every
    value. *)
Theorem converted_document_is_stable (Oid Date : Type)
    (object_id : bson Oid Date -> option Oid)
    (parse_date : bson Oid Date -> option Date)
    (d d' : bson Oid Date) :
  convert_json_to_bson object_id parse_date d = Some d' ->
  forall (other_id : bson Oid Date -> option Oid)
         (other_date : bson Oid Date -> option Date),
    convert_json_to_bson other_id other_date d' = Some d'.
Proof.
  intros H other_id other_date.
  exact (proj1 (convert_fixed_everywhere object_id parse_date
                  other_id other_date d) d' H).
Qed.

Lemma converted_document_is_stable_witness :
  convert_json_to_bson sample_object_id sample_parse_date stored_search
  = Some converted_search
  /\ forall other_id other_date,
       convert_json_to_bson other_id other_date converted_search
       = Some converted_search.
Proof.
  split; [reflexivity|].
  apply (@converted_document_is_stable string string sample_object_id
           sample_parse_date stored_search converted_search).
  reflexivity.
Defined.

Lemma plain_elements_stay Oid Date
    (object_id : bson Oid Date -> option Oid)
    (parse_date : bson Oid Date -> option Date) elements :
  forallb (fun e => negb (is_doc e)) elements = true ->
  map_or_raise (convert_element object_id parse_date) elements
  = Some elements.
Proof.
  induction elements as [|e elements IH]; [reflexivity|].
  cbn [forallb]. intros H. apply andb_true_iff in H. destruct H as [He H].
  cbn [map_or_raise]. fold (map_or_raise (convert_element object_id parse_date)).
  rewrite (IH H). destruct e; try reflexivity. discriminate.
Qed.

Lemma plain_value_stays Oid Date
    (object_id : bson Oid Date -> option Oid)
    (parse_date : bson Oid Date -> option Date) v :
  plain_value v = true -> convert_value object_id parse_date v = Some v.
Proof.
  destruct v as [| | | | |elements|fields| |]; try reflexivity;
    [|discriminate].
  cbn [plain_value convert_value]. intros H.
  rewrite (plain_elements_stay object_id parse_date _ H). reflexivity.
Qed.

Lemma plain_fields_unmarked Oid Date A (build : bson Oid Date -> option A)
    key marker fields :
  forallb (fun kv => plain_value (snd kv)) fields = true ->
  marked build key marker fields = None.
Proof.
  unfold marked. induction fields as [|[k v] fields IH]; [reflexivity|].
  cbn [forallb bassoc snd]. intros H. apply andb_true_iff in H.
  destruct H as [Hv H]. destruct (k =? key)%string; [|apply IH, H].
  destruct v; try reflexivity. discriminate.
Qed.

(** X25.  The conversion enters the dicts among the values of a dict and
    the dicts among the elements of a list value, nothing else: a dict
    whose values are neither, such as one with a list inside a list, is
    returned as it is, whatever markers lie deeper. *)
Theorem lists_inside_lists_are_not_entered (Oid Date : Type)
    (object_id : bson Oid Date -> option Oid)
    (parse_date : bson Oid Date -> option Date)
    (fields : list (string * bson Oid Date)) :
  forallb (fun kv => plain_value (snd kv)) fields = true ->
  convert_json_to_bson object_id parse_date (BDoc fields)
  = Some (BDoc fields).
Proof.
  intros H. apply convert_doc_spec.
  rewrite (plain_fields_unmarked object_id "_id" "$oid" _ H).
  rewrite (plain_fields_unmarked parse_date "timestamp" "$date" _ H).
  split; [discriminate|]. split; [discriminate|].
  exists fields. split; [reflexivity|].
  induction fields as [|[k v] fields IH]; constructor.
  - cbn [forallb snd] in H. apply andb_true_iff in H. destruct H as [Hv _].
    unfold convert_item. cbn [fst snd].
    assert (R : replacement None None k = None :> option (bson Oid Date)).
    { unfold replacement. destruct (k =? "_id")%string; [reflexivity|].
      destruct (k =? "timestamp")%string; reflexivity. }
    rewrite R, (plain_value_stays object_id parse_date _ Hv). reflexivity.
  - apply IH. cbn [forallb] in H. apply andb_true_iff in H. apply H.
Qed.

Lemma lists_inside_lists_are_not_entered_witness :
  convert_json_to_bson sample_object_id sample_parse_date (BDoc nested_route)
  = Some (BDoc nested_route).
Proof.
  apply (@lists_inside_lists_are_not_entered string string sample_object_id
           sample_parse_date nested_route).
  reflexivity.
Defined.

(** * The loaders *)

Lemma map_or_raise_none A B (f : A -> option B) x l :
  In x l -> f x = None -> map_or_raise f l = None.
Proof.
  induction l as [|y l IH]; intros Hin Hx; [destruct Hin|].
  cbn [map_or_raise]. fold (map_or_raise f).
  destruct Hin as [->|Hin].
  - rewrite Hx. reflexivity.
  - rewrite (IH Hin Hx). destruct (f y); reflexivity.
Qed.

(** X26.  A loader converts every listed document before it touches the
    database: if the conversion of one of them raises, it returns [False]
    and neither [delete_many] nor [insert_many] has run.  Both loaders are
    this body, for their file and their collection. *)
Theorem bad_document_keeps_the_collection (Oid Date DB : Type)
    (object_id : bson Oid Date -> option Oid)
    (parse_date : bson Oid Date -> option Date) (ops : text_ops)
    (delete_many : string -> DB -> DB * bool)
    (insert_many : string -> list (bson Oid Date) -> DB -> DB * bool)
    (path collection : string) (d : disk) (db : DB)
    (content : json) (items : list json) (loc : json) :
  d path = JsonFile content ->
  py_iter ops content = Some items ->
  In loc items ->
  convert_json_to_bson object_id parse_date (of_json loc) = None ->
  load_and_insert object_id parse_date ops delete_many insert_many
    path collection d db
  = (false, db).
Proof.
  intros Hfile Hiter Hin Hbad. unfold load_and_insert.
  rewrite Hfile, Hiter.
  rewrite (map_or_raise_none
             (fun loc => convert_json_to_bson object_id parse_date
                           (of_json loc)) loc items Hin Hbad).
  reflexivity.
Qed.

Lemma bad_document_keeps_the_collection_witness :
  load_and_insert_locations sample_object_id sample_parse_date ascii_ops
    sample_delete sample_insert
    (setup_disk (JList [good_location; bad_location])) old_db
  = (false, old_db).
Proof.
  apply (@bad_document_keeps_the_collection string string sample_db
           sample_object_id sample_parse_date ascii_ops
           sample_delete sample_insert
           "campus_navigator.locations (1).json" "locations"
           (setup_disk (JList [good_location; bad_location])) old_db
           (JList [good_location; bad_location])
           [good_location; bad_location] bad_location).
  - reflexivity.
  - reflexivity.
  - right. left. reflexivity.
  - reflexivity.
Defined.

(** X27.  When a loader returns [True], the file held an iterable of
    entries, [delete_many] returned, and [insert_many] returned for a
    non-empty list with one document per entry, in which no document
    holds a marker the conversion would act on. *)
Theorem loaded_documents_are_converted (Oid Date DB : Type)
    (object_id : bson Oid Date -> option Oid)
    (parse_date : bson Oid Date -> option Date) (ops : text_ops)
    (delete_many : string -> DB -> DB * bool)
    (insert_many : string -> list (bson Oid Date) -> DB -> DB * bool)
    (path collection : string) (d : disk) (db db' : DB) :
  load_and_insert object_id parse_date ops delete_many insert_many
    path collection d db
  = (true, db') ->
  exists content items documents cleared,
    d path = JsonFile content
    /\ py_iter ops content = Some items
    /\ List.length documents = List.length items
    /\ documents <> []
    /\ delete_many collection db = (cleared, true)
    /\ insert_many collection documents cleared = (db', true)
    /\ Forall
         (fun doc =>
            forall other_id other_date,
              convert_json_to_bson other_id other_date doc = Some doc)
         documents.
Proof.
  unfold load_and_insert.
  destruct (d path) as [| |content] eqn:Hfile; try discriminate.
  destruct (py_iter ops content) as [items|] eqn:Hiter; [|discriminate].
  destruct (map_or_raise _ items) as [documents|] eqn:Hm; [|discriminate].
  destruct (delete_many collection db) as [cleared [|]] eqn:Hd;
    [|discriminate].
  destruct documents as [|doc documents]; [discriminate|].
  destruct (insert_many collection (doc :: documents) cleared)
    as [filled inserted] eqn:Hi.
  intros H. injection H as -> ->.
  exists content, items, (doc :: documents), cleared.
  apply map_or_raise_forall2 in Hm.
  split; [first [reflexivity | exact Hfile]|].
  split; [first [reflexivity | exact Hiter]|].
  split; [symmetry; apply (Forall2_length Hm)|].
  split; [discriminate|].
  split; [first [reflexivity | exact Hd]|]. split; [exact Hi|].
  clear Hi Hd Hiter. revert Hm. generalize (doc :: documents) as docs.
  clear doc documents. induction items as [|item items IH];
    intros docs Hm; inversion Hm as [|x y l l' Hx Hl]; subst;
    constructor.
  - intros other_id other_date.
    exact (proj1 (convert_fixed_everywhere object_id parse_date
                    other_id other_date (of_json item)) y Hx).
  - apply IH, Hl.
Qed.

Lemma loaded_documents_are_converted_witness :
  exists content items documents cleared,
    setup_disk (JList [good_location]) "campus_navigator.locations (1).json"
    = JsonFile content
    /\ py_iter ascii_ops content = Some items
    /\ List.length documents = List.length items
    /\ documents <> []
    /\ sample_delete "locations" old_db = (cleared, true)
    /\ sample_insert "locations" documents cleared
       = (snd (load_and_insert_locations sample_object_id sample_parse_date
                 ascii_ops sample_delete sample_insert
                 (setup_disk (JList [good_location])) old_db), true)
    /\ Forall
         (fun doc =>
            forall other_id other_date,
              convert_json_to_bson other_id other_date doc = Some doc)
         documents.
Proof.
  apply (@loaded_documents_are_converted string string sample_db
           sample_object_id sample_parse_date ascii_ops
           sample_delete sample_insert
           "campus_navigator.locations (1).json" "locations"
           (setup_disk (JList [good_location])) old_db).
  reflexivity.
Defined.
